(** * Upload service: admission pipeline of [app.py]

    A shallow embedding of the upload service: the data-URL codec
    ([parse_data_url]), the filename resolver ([FILENAME_RE] and the
    sanitisation in [upload]), the sequential namer
    ([next_sequential_name]), the base-URL resolver ([get_base_url]) and
    the orchestrator ([upload]), followed by the properties of each.

    Conventions of the embedding.
    - A Python [str] that may hold any character (the filename of the
      client, the value of [CORS_ORIGINS]) is the list of its code
      points ([ustr]). On the code points below 256 the classes [\w],
      [\d], [str.isspace] and the map [str.lower] are CPython's tables;
      from 256 on they are a parameter, the record [Unicode], so that
      what is proved holds for every Unicode database.
    - The other [str] values (data URL, headers, paths, MIME types) are
      [string]s, read as sequences of code points below 256, each
      character standing for the code point of its number. A data URL
      with a character from 256 on has no place in the model; the code
      answers it with status 400 in every case. The text of the error
      messages is kept as written in the source.
    - Python [int] is [Z], and [str] and [int] convert numbers of any
      length; [bytes] is [list byte].
    - [raise HTTPException(status_code, detail)] is the [HTTPException]
      constructor of [result]; any other raised exception is
      [Exception], which the handler of [upload] turns into a 500.
    - The storage tree is an explicit state ([FS]) threaded through the
      functions that touch the disk; each system call is a function on
      it. A call fails where the state of the tree makes it fail: a
      directory that is missing or is a regular file, a name that
      exists, a path longer than the file system allows. Beyond that,
      the outcome of the final write is an input ([write_fault]); the
      probes of the namer are not disturbed by the environment.
    - [base64.b64decode(validate=True)] is [Base64.b64decode], the
      strict mode of [binascii.a2b_base64] of CPython 3.11;
      [uuid.uuid4().hex[:8]] is an input ([uuid_hex8]).
    - Module level configuration read from the process environment
      ([IMAGES_ROOT], [BASE_URL_ENV], [MAX_SIZE_MB]) is the record
      [Config], which also carries the Unicode database of the
      interpreter. *)

From Stdlib Require Import ZArith NArith String Ascii List Lia Bool.
From Stdlib Require Import DecimalString DecimalZ Decimal.
From Stdlib Require Import Strings.Byte.
From stdpp Require Import gmap strings list fin_maps.

Local Open Scope Z_scope.

(** ** Results *)

Inductive result (A : Type) : Type :=
| Ok (a : A)
| HTTPException (status_code : Z) (detail : string)
| Exception (name : string).
Arguments Ok {A} a.
Arguments HTTPException {A} status_code detail.
Arguments Exception {A} name.

Definition is_ok {A} (r : result A) : bool :=
  match r with Ok _ => true | _ => false end.

Definition status_of {A} (r : result A) : option Z :=
  match r with HTTPException c _ => Some c | _ => None end.

(** ** Python string primitives *)

Definition len (s : string) : Z := Z.of_nat (String.length s).

(** Truthiness of a sequence, as [if s] and [not s] test it: the empty
    one is falsy. *)
Class Truth (A : Type) := nonempty : A -> bool.

#[global] Instance str_truth : Truth string :=
  fun s => match s with EmptyString => false | String _ _ => true end.

#[global] Instance list_truth {A : Type} : Truth (list A) :=
  fun l => match l with [] => false | _ :: _ => true end.

(** Truthiness of an [Optional[str]]: [None] and [""] are falsy. *)
Definition truthy (o : option string) : bool :=
  match o with Some s => nonempty s | None => false end.

(** [sub in s] *)
Fixpoint str_in (sub s : string) : bool :=
  String.prefix sub s ||
  match s with
  | EmptyString => false
  | String _ s' => str_in sub s'
  end.

(** [s.rstrip(c)] for a one-character set. *)
Fixpoint rstrip (c : ascii) (s : string) : string :=
  match s with
  | EmptyString => EmptyString
  | String a s' =>
      match rstrip c s' with
      | EmptyString => if Ascii.eqb a c then EmptyString else String a EmptyString
      | r => String a r
      end
  end.

(** Code points below 256: ASCII and Latin-1. *)
Definition in_range (lo hi c : N) : bool := ((lo <=? c) && (c <=? hi))%N.

(** [\w] below 256: [str.isalnum] or the underscore. Besides the ASCII
    letters and digits these are the Latin-1 letters, the superscript
    digits and the three vulgar fractions. *)
Definition latin1_word (c : N) : bool :=
  (in_range 48 57 c || in_range 65 90 c || in_range 97 122 c || (c =? 95)
   || (c =? 170) || in_range 178 179 c || (c =? 181) || in_range 185 186 c
   || in_range 188 190 c || in_range 192 214 c || in_range 216 246 c
   || in_range 248 255 c)%N.

(** [str.lower] of one character below 256: [A-Z] and the Latin-1
    capitals (all of 192-222 but the multiplication sign). *)
Definition latin1_lower (c : N) : N :=
  if in_range 65 90 c || in_range 192 214 c || in_range 216 222 c
  then (c + 32)%N else c.

(** [str.isspace] below 256. *)
Definition latin1_space (c : N) : bool :=
  (in_range 9 13 c || in_range 28 32 c || (c =? 133) || (c =? 160))%N.

Definition is_digit (c : ascii) : bool := in_range 48 57 (N_of_ascii c).

Definition is_upper (c : ascii) : bool := in_range 65 90 (N_of_ascii c).

Definition is_lower (c : ascii) : bool := in_range 97 122 (N_of_ascii c).

(** [\w] *)
Definition is_word (c : ascii) : bool := latin1_word (N_of_ascii c).

Definition lower_char (c : ascii) : ascii := ascii_of_N (latin1_lower (N_of_ascii c)).

(** [s.lower()] *)
Fixpoint lower (s : string) : string :=
  match s with
  | EmptyString => EmptyString
  | String c s' => String (lower_char c) (lower s')
  end.

Fixpoint str_forallb (p : ascii -> bool) (s : string) : bool :=
  match s with
  | EmptyString => true
  | String c s' => p c && str_forallb p s'
  end.

Fixpoint str_filter (p : ascii -> bool) (s : string) : string :=
  match s with
  | EmptyString => EmptyString
  | String c s' => if p c then String c (str_filter p s') else str_filter p s'
  end.

(** [str(n)] and the [{n}] of an f-string, for an [int]. *)
Definition str (n : Z) : string := NilZero.string_of_int (Z.to_int n).

(** [s.split(sep)] for a one-character separator. *)
Fixpoint split (sep : ascii) (s : string) : list string :=
  match s with
  | EmptyString => [EmptyString]
  | String c s' =>
      if Ascii.eqb c sep then EmptyString :: split sep s'
      else
        match split sep s' with
        | x :: xs => String c x :: xs
        | [] => [String c EmptyString]
        end
  end.

(** [s.endswith(c)] for one character. *)
Fixpoint endswith (c : ascii) (s : string) : bool :=
  match s with
  | EmptyString => false
  | String a EmptyString => Ascii.eqb a c
  | String _ s' => endswith c s'
  end.

(** ** Unicode text *)

(** A [str] that may hold any character, as the sequence of its code
    points. A [string] is read as such a sequence through
    [ustr_of_string]. *)
Abbreviation ustr := (list N).

Fixpoint ustr_of_string (s : string) : ustr :=
  match s with
  | EmptyString => []
  | String c s' => N_of_ascii c :: ustr_of_string s'
  end.

Coercion ustr_of_string : string >-> list.

(** What the Unicode database of the interpreter says of the code points
    from 256 on; below 256 the classes are the tables above. *)
Record Unicode := {
  uni_word : N -> bool;         (* [\w]: [str.isalnum] *)
  uni_decimal : N -> option N;  (* the value of a decimal digit: [\d], [int] *)
  uni_lower : ustr -> ustr;     (* [str.lower] of a string holding such a code point *)
  uni_space : N -> bool         (* [str.isspace] *)
}.

(** A database without any character from 256 on. *)
Definition latin1_only : Unicode :=
  {| uni_word := fun _ => false; uni_decimal := fun _ => None;
     uni_lower := fun s => s; uni_space := fun _ => false |}.

Definition is_word_cp (U : Unicode) (c : N) : bool :=
  if (c <? 256)%N then latin1_word c else uni_word U c.

(** The value of a decimal digit, [None] for any other character. *)
Definition digit_of (U : Unicode) (c : N) : option N :=
  if (c <? 256)%N then (if in_range 48 57 c then Some (c - 48)%N else None)
  else uni_decimal U c.

(** [\d] *)
Definition is_digit_cp (U : Unicode) (c : N) : bool :=
  match digit_of U c with Some _ => true | None => false end.

Definition is_space_cp (U : Unicode) (c : N) : bool :=
  if (c <? 256)%N then latin1_space c else uni_space U c.

(** [s.lower()] *)
Definition u_lower (U : Unicode) (s : ustr) : ustr :=
  if forallb (fun c => (c <? 256)%N) s then List.map latin1_lower s
  else uni_lower U s.

(** [int(s)] for a string of decimal digits (the groups of
    [FILENAME_RE]). *)
Fixpoint int_acc (U : Unicode) (acc : Z) (s : ustr) : Z :=
  match s with
  | [] => acc
  | c :: s' => int_acc U (10 * acc + Z.of_N (default 0%N (digit_of U c))) s'
  end.

Definition int (U : Unicode) (s : ustr) : Z := int_acc U 0 s.

(** Longest prefix of [s] whose characters satisfy [p], and the rest. *)
Fixpoint u_span (p : N -> bool) (s : ustr) : ustr * ustr :=
  match s with
  | [] => ([], [])
  | c :: s' =>
      if p c then let '(a, b) := u_span p s' in (c :: a, b)
      else ([], s)
  end.

(** [s[len(pre):]] when [s.startswith(pre)]. *)
Fixpoint u_strip_prefix (pre s : ustr) : option ustr :=
  match pre, s with
  | [], _ => Some s
  | a :: pre', b :: s' => if (a =? b)%N then u_strip_prefix pre' s' else None
  | _ :: _, [] => None
  end.

(** [$] without [re.MULTILINE]. *)
Definition u_at_dollar (rest : ustr) : bool :=
  match rest with
  | [] => true
  | [c] => (c =? 10)%N
  | _ => false
  end.

(** ** Configuration and requests *)

Record Config := {
  IMAGES_ROOT : string;
  BASE_URL_ENV : option string;
  MAX_SIZE_MB : Z;
  UNICODE : Unicode
}.

(** The part of a Starlette [Request] that [get_base_url] reads: the
    headers (keys in lower case, as ASGI delivers them), the scheme of
    [request.url] and [str(request.base_url)]. *)
Record Request := {
  headers : list (string * string);
  url_scheme : string;
  base_url : string
}.

(** [request.headers.get(key)]: the first header with that name. *)
Fixpoint headers_get (h : list (string * string)) (key : string) : option string :=
  match h with
  | [] => None
  | (k, v) :: h' => if String.eqb k key then Some v else headers_get h' key
  end.

(** ** BaseURLResolver: [get_base_url] *)

Definition get_base_url (cfg : Config) (request : Request) : string :=
  if truthy (BASE_URL_ENV cfg) then
    rstrip "/" (default ""%string (BASE_URL_ENV cfg))
  else
    let f_proto := headers_get (headers request) "x-forwarded-proto" in
    let f_host := headers_get (headers request) "x-forwarded-host" in
    let f_port := headers_get (headers request) "x-forwarded-port" in
    if truthy f_host then
      let scheme := if truthy f_proto then default ""%string f_proto
                    else url_scheme request in
      let host := default ""%string f_host in
      let port := default ""%string f_port in
      let host :=
        if truthy f_port && negb (str_in ":" host)
           && negb (String.eqb port "80" || String.eqb port "443")
        then
          if negb ((String.eqb scheme "http" && String.eqb port "80")
                   || (String.eqb scheme "https" && String.eqb port "443"))
          then host +:+ ":" +:+ port
          else host
        else host in
      scheme +:+ "://" +:+ host
    else
      rstrip "/" (base_url request).

(** The origin as the specification words it: with a forwarded host, the
    port is appended exactly when it is present, not embedded in the host
    and not the implicit default port of the scheme. *)
Definition is_default_port (scheme port : string) : bool :=
  (String.eqb scheme "http" && String.eqb port "80")
  || (String.eqb scheme "https" && String.eqb port "443").

Definition forwarded_origin_spec (scheme host : string) (f_port : option string) : string :=
  if truthy f_port && negb (str_in ":" host)
     && negb (is_default_port scheme (default ""%string f_port))
  then scheme +:+ "://" +:+ host +:+ ":" +:+ default ""%string f_port
  else scheme +:+ "://" +:+ host.

(** What the code appends: any port other than "80" and "443". *)
Definition forwarded_origin (scheme host : string) (f_port : option string) : string :=
  if truthy f_port && negb (str_in ":" host)
     && negb (String.eqb (default ""%string f_port) "80"
              || String.eqb (default ""%string f_port) "443")
  then scheme +:+ "://" +:+ host +:+ ":" +:+ default ""%string f_port
  else scheme +:+ "://" +:+ host.

Definition forwarded_scheme (request : Request) : string :=
  match headers_get (headers request) "x-forwarded-proto" with
  | Some p => if nonempty p then p else url_scheme request
  | None => url_scheme request
  end.

(** ** PayloadCodec: [DATA_URL_RE], [ALLOWED_MIMES], [parse_data_url] *)

(** Longest prefix of [s] whose characters satisfy [p], and the rest: how
    a greedy character class [[...]+] consumes its input. *)
Fixpoint span (p : ascii -> bool) (s : string) : string * string :=
  match s with
  | EmptyString => (EmptyString, EmptyString)
  | String c s' =>
      if p c then let '(a, b) := span p s' in (String c a, b)
      else (EmptyString, s)
  end.

(** [s[len(pre):]] when [s.startswith(pre)]: a literal of a pattern. *)
Fixpoint strip_prefix (pre s : string) : option string :=
  match pre, s with
  | EmptyString, _ => Some s
  | String a pre', String b s' =>
      if Ascii.eqb a b then strip_prefix pre' s' else None
  | String _ _, EmptyString => None
  end.

Definition newline : ascii := "010"%char.

(** [$] without [re.MULTILINE]: at the end of the string, or just before
    a newline that ends the string. *)
Definition at_dollar (rest : string) : bool :=
  match rest with
  | EmptyString => true
  | String c EmptyString => Ascii.eqb c newline
  | _ => false
  end.

(** The class [[\w\-\.+/]] of the [mime] group. *)
Definition is_mime_char (c : ascii) : bool :=
  is_word c || Ascii.eqb c "-" || Ascii.eqb c "." || Ascii.eqb c "+"
  || Ascii.eqb c "/".

(** [DATA_URL_RE.match(s)]: the groups [(mime, b64)] of
    [^data:(?P<mime>[\w\-\.+/]+);base64,(?P<b64>.+)$]. Neither class
    contains the character that must follow it, so the greedy run is the
    only way to match. *)
Definition DATA_URL_RE_match (s : string) : option (string * string) :=
  match strip_prefix "data:" s with
  | None => None
  | Some r =>
      let '(mime, r1) := span is_mime_char r in
      if nonempty mime then
        match strip_prefix ";base64," r1 with
        | None => None
        | Some r2 =>
            let '(b64, r3) := span (fun c => negb (Ascii.eqb c newline)) r2 in
            if nonempty b64 && at_dollar r3 then Some (mime, b64) else None
        end
      else None
  end.

Definition ALLOWED_MIMES : list (string * string) :=
  [("image/jpeg", "jpg"); ("image/png", "png"); ("image/webp", "webp")]%string.

(** [d[key]] / [key in d] for a dict kept as its item list. *)
Fixpoint dict_get (d : list (string * string)) (key : string) : option string :=
  match d with
  | [] => None
  | (k, v) :: d' => if String.eqb k key then Some v else dict_get d' key
  end.

Module Base64.

Definition alphabet : string :=
  "ABCDEFGHIJKLMNOPQRSTUVWXYZabcdefghijklmnopqrstuvwxyz0123456789+/".

(** The character of a 6-bit value. *)
Definition char_of (i : N) : ascii :=
  match String.get (N.to_nat i) alphabet with
  | Some c => c
  | None => "="%char
  end.

(** The 6-bit value of a character of the alphabet. *)
Definition index_of (c : ascii) : option N :=
  let n := N_of_ascii c in
  if is_upper c then Some (n - 65)%N
  else if is_lower c then Some (n - 97 + 26)%N
  else if is_digit c then Some (n - 48 + 52)%N
  else if Ascii.eqb c "+" then Some 62%N
  else if Ascii.eqb c "/" then Some 63%N
  else None.

Definition byte_of (n : N) : byte :=
  match Byte.of_N (n mod 256) with
  | Some b => b
  | None => x00
  end.

(** [base64.b64encode]: three bytes become four characters; one or two
    trailing bytes are padded with [=]. *)
Fixpoint b64encode (data : list byte) : string :=
  match data with
  | [] => EmptyString
  | [a] =>
      let a := Byte.to_N a in
      String (char_of (a / 4)) (String (char_of ((a mod 4) * 16)) "==")
  | [a; b] =>
      let a := Byte.to_N a in
      let b := Byte.to_N b in
      String (char_of (a / 4))
        (String (char_of ((a mod 4) * 16 + b / 16))
           (String (char_of ((b mod 16) * 4)) "="))
  | a :: b :: c :: rest =>
      let a := Byte.to_N a in
      let b := Byte.to_N b in
      let c := Byte.to_N c in
      String (char_of (a / 4))
        (String (char_of ((a mod 4) * 16 + b / 16))
           (String (char_of ((b mod 16) * 4 + c / 64))
              (String (char_of (c mod 64)) (b64encode rest))))
  end%N.

(** The bytes of one group of four characters; [=] may only close the
    group, once or twice. *)
Definition decode_quad (full : bool) (c1 c2 c3 c4 : ascii) : option (list byte) :=
  match index_of c1, index_of c2 with
  | Some i1, Some i2 =>
      let b1 := byte_of (i1 * 4 + i2 / 16) in
      match index_of c3, index_of c4 with
      | Some i3, Some i4 =>
          Some [b1; byte_of (i2 * 16 + i3 / 4); byte_of (i3 * 64 + i4)]
      | Some i3, None =>
          if negb full && Ascii.eqb c4 "=" then
            Some [b1; byte_of (i2 * 16 + i3 / 4)]
          else None
      | None, _ =>
          if negb full && Ascii.eqb c3 "=" && Ascii.eqb c4 "=" then Some [b1]
          else None
      end
  | _, _ => None
  end%N.

Fixpoint all_pad (s : string) : bool :=
  match s with
  | EmptyString => true
  | String c s' => Ascii.eqb c "=" && all_pad s'
  end.

(** [base64.b64decode(s, validate=True)], which is
    [binascii.a2b_base64(s, strict_mode=True)]; [None] stands for
    [binascii.Error] (and for the [ValueError] of a text that is not
    ASCII). The input is a sequence of groups of four characters of the
    alphabet. The last group may be padded with [=] to four characters,
    and then nothing may follow; after a last group that is complete,
    any number of [=] is let through. A [=] in first position is
    refused. *)
Fixpoint b64decode (s : string) : option (list byte) :=
  match s with
  | EmptyString => Some []
  | String c1 (String c2 (String c3 (String c4 rest))) =>
      match rest with
      | EmptyString => decode_quad false c1 c2 c3 c4
      | _ =>
          match decode_quad true c1 c2 c3 c4 with
          | Some q =>
              if all_pad rest then Some q
              else
                match b64decode rest with
                | Some r => Some (q ++ r)
                | None => None
                end
          | None => None
          end
      end
  | _ => None
  end.

End Base64.

(** [len(binary)] *)
Definition blen (b : list byte) : Z := Z.of_nat (List.length b).

Definition parse_data_url (cfg : Config) (data_url : string)
  : result (string * list byte) :=
  if len data_url >? 50 * 1024 * 1024 then
    HTTPException 400 "data_url inválido ou muito grande"
  else
    match DATA_URL_RE_match data_url with
    | None => HTTPException 400 "data_url inválido"
    | Some (m_mime, b64) =>
        let mime := lower m_mime in
        match dict_get ALLOWED_MIMES mime with
        | None => HTTPException 400 ("MIME não permitido: " +:+ mime)
        | Some _ =>
            match Base64.b64decode b64 with
            | None => HTTPException 400 "base64 inválido"
            | Some binary =>
                if blen binary >? MAX_SIZE_MB cfg * 1024 * 1024 then
                  HTTPException 413
                    ("Arquivo > " +:+ str (MAX_SIZE_MB cfg) +:+ "MB")
                else Ok (mime, binary)
            end
        end
    end.

(** The data URL of a payload, as a client builds it. *)
Definition make_data_url (mime : string) (data : list byte) : string :=
  "data:" +:+ mime +:+ ";base64," +:+ Base64.b64encode data.

(** ** FilenameResolver *)

(** [os.path.basename(p)]: what follows the last [/]. *)
Fixpoint os_path_basename (p : ustr) : ustr :=
  match p with
  | [] => []
  | _ :: p' => if bool_decide (47%N ∈ p) then os_path_basename p' else p
  end.

(** [os.path.join(a, b)] *)
Definition os_path_join (a b : string) : string :=
  if String.prefix "/" b then b
  else if negb (nonempty a) || endswith "/" a then a +:+ b
  else a +:+ "/" +:+ b.

(** [re.sub(r'[^\w\-_\.]', '', filename)] keeps the characters of the
    class [[\w\-_\.]]. *)
Definition is_safe_cp (U : Unicode) (c : N) : bool :=
  (is_word_cp U c || (c =? 45) || (c =? 95) || (c =? 46))%N.

Definition sanitize (U : Unicode) (filename : ustr) : ustr :=
  List.filter (is_safe_cp U) filename.

(** ASCII letters, digits, [_], [-] and [.]. *)
Definition is_plain_char (c : ascii) : bool :=
  is_digit c || is_upper c || is_lower c || Ascii.eqb c "_" || Ascii.eqb c "-"
  || Ascii.eqb c ".".

Definition FILENAME_EXTS : list string := ["jpg"; "jpeg"; "png"; "webp"]%string.

(** The alternation [jpg|jpeg|png|webp] under [re.IGNORECASE]: a
    character matches a letter of these when it is the letter or its
    lower-case form is; no character from 256 on does. *)
Definition ext_matches (g_ext : ustr) : bool :=
  bool_decide (List.map latin1_lower g_ext ∈ List.map ustr_of_string FILENAME_EXTS).

(** [FILENAME_RE.match(s)]: the groups [(registro, ponto, ext)] of
    [^(?P<registro>\d+)-(?P<ponto>\d+)\.(?P<ext>jpg|jpeg|png|webp)$]
    under [re.IGNORECASE]. *)
Definition FILENAME_RE_match (U : Unicode) (s : ustr) : option (ustr * ustr * ustr) :=
  let '(g_registro, r1) := u_span (is_digit_cp U) s in
  if nonempty g_registro then
    match u_strip_prefix "-" r1 with
    | None => None
    | Some r2 =>
        let '(g_ponto, r3) := u_span (is_digit_cp U) r2 in
        if nonempty g_ponto then
          match u_strip_prefix "." r3 with
          | None => None
          | Some r4 =>
              let '(g_ext, r5) := u_span (fun c => negb (c =? 10)%N) r4 in
              if ext_matches g_ext && u_at_dollar r5
              then Some (g_registro, g_ponto, g_ext)
              else None
          end
        else None
    end
  else None.

(** ** The storage tree *)

(** Regular files with their contents, and directories, by full path.
    Paths are compared as they are written: the tree holds each file
    and directory under one spelling, without [.], [..], doubled or
    trailing slashes and without symbolic links. *)
Record FS := {
  files : gmap string (list byte);
  dirs : gset string
}.

(** Limits of the file system (Linux): a component of a path has at
    most [NAME_MAX] bytes, a path fewer than [PATH_MAX]. *)
Definition NAME_MAX : Z := 255.
Definition PATH_MAX : Z := 4096.

(** A path the kernel does not refuse with [ENAMETOOLONG]. *)
Definition path_fits (p : string) : bool :=
  (len p <? PATH_MAX) && forallb (fun c => len c <=? NAME_MAX) (split "/" p).

(** [p[:p.rfind('/') + 1]] *)
Fixpoint path_head (p : string) : string :=
  match p with
  | EmptyString => EmptyString
  | String c p' => if str_in "/" p then String c (path_head p') else EmptyString
  end.

(** [os.path.dirname(p)] *)
Definition os_path_dirname (p : string) : string :=
  let head := path_head p in
  if str_forallb (Ascii.eqb "/") head then head else rstrip "/" head.

(** The directories above [p], nearest first, up to the root or the
    current directory. *)
Fixpoint ancestors (fuel : nat) (p : string) : list string :=
  match fuel with
  | O => []
  | S fuel' =>
      let d := os_path_dirname p in
      if str_forallb (Ascii.eqb "/") d || String.eqb d p then []
      else d :: ancestors fuel' d
  end.

Definition parents (p : string) : list string := ancestors (String.length p) p.

Definition is_file (fs : FS) (p : string) : bool :=
  bool_decide (is_Some (files fs !! p)).

(** The root always exists. *)
Definition is_root (p : string) : bool :=
  nonempty p && str_forallb (Ascii.eqb "/") p.

Definition is_dir (fs : FS) (p : string) : bool :=
  is_root p || bool_decide (p ∈ dirs fs).

(** [os.path.exists(p)] *)
Definition os_path_exists (fs : FS) (p : string) : bool :=
  is_file fs p || is_dir fs p.

(** Whether a file can be created at the free path [p]: the path is not
    too long, it names a file, and the directory it lies in exists (the
    current directory, for a bare name). *)
Definition can_create (fs : FS) (p : string) : bool :=
  path_fits p && nonempty p && negb (endswith "/" p)
  && (negb (nonempty (os_path_dirname p)) || is_dir fs (os_path_dirname p)).

(** [os.makedirs(p, exist_ok=True)] creates [p] and the directories
    above it that are missing; [None] is the [OSError] raised when [p]
    or a path above it is a regular file ([FileExistsError],
    [NotADirectoryError]) or when the path is too long or empty. *)
Definition os_makedirs (fs : FS) (p : string) : option FS :=
  if is_dir fs p then Some fs
  else if is_file fs p || existsb (is_file fs) (parents p)
          || negb (path_fits p) || negb (nonempty p)
  then None
  else Some {| files := files fs;
               dirs := {[p]} ∪ list_to_set (parents p) ∪ dirs fs |}.

(** [with open(p, "x"): pass] *)
Inductive open_outcome :=
| Opened (fs : FS)   (* the file was created, empty *)
| FileExists         (* [FileExistsError] *)
| OpenError.         (* another [OSError]: [FileNotFoundError],
                        [NotADirectoryError], [ENAMETOOLONG] *)

Definition open_x (fs : FS) (p : string) : open_outcome :=
  if os_path_exists fs p then FileExists
  else if can_create fs p
  then Opened {| files := <[p := []]> (files fs); dirs := dirs fs |}
  else OpenError.

(** [os.unlink(p)]; [None] is [FileNotFoundError]. *)
Definition os_unlink (fs : FS) (p : string) : option FS :=
  if is_file fs p then Some {| files := delete p (files fs); dirs := dirs fs |}
  else None.

(** How the environment lets the final write go where the storage tree
    allows it: it succeeds, [open] raises [OSError] (permissions, a full
    disk), or [write] raises [OSError] after [written] bytes reached the
    file. *)
Inductive write_fault :=
| NoFault
| OpenFails
| WriteFails (written : nat).

(** [with open(p, "wb") as f: f.write(data)]; the boolean is [false] when
    [OSError] was raised. Opening creates or truncates the file; it
    fails on a directory and on a path where no file can be created. *)
Definition write_wb (fault : write_fault) (fs : FS) (p : string) (data : list byte)
  : bool * FS :=
  if is_dir fs p then (false, fs)
  else if negb (is_file fs p) && negb (can_create fs p) then (false, fs)
  else
    match fault with
    | NoFault => (true, {| files := <[p := data]> (files fs); dirs := dirs fs |})
    | OpenFails => (false, fs)
    | WriteFails k =>
        (false, {| files := <[p := take k data]> (files fs); dirs := dirs fs |})
    end.

(** ** SequentialNamer: [next_sequential_name] *)

Definition max_attempts : Z := 10000.

(** [f"{base_prefix}-{n}.{ext}"] *)
Definition candidate_name (base_prefix : string) (n : Z) (ext : string) : string :=
  base_prefix +:+ "-" +:+ str n +:+ "." +:+ ext.

(** The [while attempts < max_attempts] loop; [left] is
    [max_attempts - attempts]. *)
Fixpoint probe_loop (left : nat) (fs : FS) (dir_path base_prefix ext : string) (n : Z)
  : result string * FS :=
  match left with
  | O => (HTTPException 500 "Não foi possível gerar nome único", fs)
  | S left' =>
      let candidate := candidate_name base_prefix n ext in
      let full := os_path_join dir_path candidate in
      if negb (os_path_exists fs full) then
        match open_x fs full with
        | Opened fs1 =>
            match os_unlink fs1 full with
            | Some fs2 => (Ok candidate, fs2)
            | None => (Exception "FileNotFoundError", fs1)
            end
        | FileExists => probe_loop left' fs dir_path base_prefix ext (n + 1)
        | OpenError => (Exception "OSError", fs)
        end
      else probe_loop left' fs dir_path base_prefix ext (n + 1)
  end.

Definition next_sequential_name (fs : FS) (dir_path base_prefix ext : string) (start : Z)
  : result string * FS :=
  match
    if negb (os_path_exists fs dir_path) then os_makedirs fs dir_path else Some fs
  with
  | None => (Exception "OSError", fs)
  | Some fs =>
      let n := Z.max 1 start in
      probe_loop (Z.to_nat max_attempts) fs dir_path base_prefix ext n
  end.

(** ** UploadOrchestrator: [upload] *)

Record UploadIn := {
  filename : ustr;
  data_url : string;
  registro : option Z;
  ponto : option Z
}.

(** The JSON object returned by a successful upload. *)
Record UploadOut := {
  r_link : string;
  r_mime : string;
  r_size : Z;
  r_registro : option Z;
  r_ponto : option Z;
  r_path : string;
  r_filename : string
}.

(** What the request draws from outside the program: the value of
    [uuid.uuid4().hex[:8]] and the outcome of the final write. *)
Record Env := {
  uuid_hex8 : string;
  fault : write_fault
}.

(** Lines 206-210: the sanitised filename. [payload.filename] is not
    empty here, so [payload.filename or ...] is [payload.filename]. *)
Definition sanitized_filename (U : Unicode) (payload : UploadIn) (ext_by_mime : string)
  : ustr :=
  let filename := os_path_basename (filename payload) in
  let filename := sanitize U filename in
  if nonempty filename then filename else "upload." +:+ ext_by_mime.

(** Lines 212-221: explicit identifiers, completed from the filename. *)
Definition resolve_identifiers (U : Unicode) (payload : UploadIn) (filename : ustr)
  : option Z * option Z :=
  let registro := registro payload in
  let ponto := ponto payload in
  match FILENAME_RE_match U (u_lower U filename) with
  | Some (g_registro, g_ponto, _) =>
      (match registro with None => Some (int U g_registro) | Some _ => registro end,
       match ponto with None => Some (int U g_ponto) | Some _ => ponto end)
  | None => (registro, ponto)
  end.

(** Lines 224-231: the directory and the base prefix. *)
Definition storage_target (cfg : Config) (env : Env) (registro : option Z)
  : result (string * string) :=
  match registro with
  | None => Ok (os_path_join (IMAGES_ROOT cfg) "misc", uuid_hex8 env)
  | Some r =>
      if r <? 0 then HTTPException 400 "registro inválido"
      else Ok (os_path_join (IMAGES_ROOT cfg) (str r), str r)
  end.

(** Lines 240-248: the final name. *)
Definition final_name_for (fs : FS) (dir_path base_prefix ext_by_mime : string)
  (ponto : option Z) : result string * FS :=
  match ponto with
  | Some p =>
      let tentative_name := candidate_name base_prefix p ext_by_mime in
      let full_path := os_path_join dir_path tentative_name in
      if os_path_exists fs full_path then
        next_sequential_name fs dir_path base_prefix ext_by_mime (p + 1)
      else (Ok tentative_name, fs)
  | None => next_sequential_name fs dir_path base_prefix ext_by_mime 1
  end.

(** Lines 240-258: the final name, then the write. *)
Definition store_file (fault : write_fault) (fs : FS)
  (dir_path base_prefix ext_by_mime : string) (ponto : option Z)
  (binary : list byte) : result string * FS :=
  match final_name_for fs dir_path base_prefix ext_by_mime ponto with
  | (Ok final_name, fs) =>
      let full_path := os_path_join dir_path final_name in
      match write_wb fault fs full_path binary with
      | (true, fs) => (Ok final_name, fs)
      | (false, fs) => (HTTPException 500 "Erro ao salvar arquivo", fs)
      end
  | r => r
  end.

(** Lines 261-279: the response. *)
Definition build_response (cfg : Config) (request : Request) (mime : string)
  (binary : list byte) (registro ponto : option Z) (final_name : string) : UploadOut :=
  let rel_url :=
    match registro with
    | None => "/imagens/misc/" +:+ final_name
    | Some r => "/imagens/" +:+ str r +:+ "/" +:+ final_name
    end in
  let base := get_base_url cfg request in
  {| r_link := base +:+ rel_url;
     r_mime := mime;
     r_size := blen binary;
     r_registro := registro;
     r_ponto := ponto;
     r_path := rel_url;
     r_filename := final_name |}.

(** What lines 198-237 establish: the decoded payload, the identifiers
    and the storage target. *)
Record Located := {
  l_mime : string;
  l_binary : list byte;
  l_ext : string;
  l_registro : option Z;
  l_ponto : option Z;
  l_dir : string;
  l_prefix : string
}.

(** Lines 198-237: validation, decoding, identifiers, target directory
    (created on the way) and the check of ponto. *)
Definition locate (cfg : Config) (env : Env) (payload : UploadIn) (fs : FS)
  : result Located * FS :=
  if negb (nonempty (filename payload)) || negb (nonempty (data_url payload)) then
    (HTTPException 400 "filename e data_url são obrigatórios", fs)
  else
    match parse_data_url cfg (data_url payload) with
    | HTTPException c d => (HTTPException c d, fs)
    | Exception e => (Exception e, fs)
    | Ok (mime, binary) =>
        match dict_get ALLOWED_MIMES mime with
        | None => (Exception "KeyError", fs)
        | Some ext_by_mime =>
            let filename := sanitized_filename (UNICODE cfg) payload ext_by_mime in
            let '(registro, ponto) :=
              resolve_identifiers (UNICODE cfg) payload filename in
            match storage_target cfg env registro with
            | HTTPException c d => (HTTPException c d, fs)
            | Exception e => (Exception e, fs)
            | Ok (dir_path, base_prefix) =>
                match os_makedirs fs dir_path with
                | None => (Exception "OSError", fs)
                | Some fs =>
                    if match ponto with Some p => p <? 0 | None => false end then
                      (HTTPException 400 "ponto inválido", fs)
                    else
                      (Ok {| l_mime := mime; l_binary := binary;
                             l_ext := ext_by_mime; l_registro := registro;
                             l_ponto := ponto; l_dir := dir_path;
                             l_prefix := base_prefix |}, fs)
                end
            end
        end
    end.

(** The body of the [try] block of [upload]: lines 198-237, then lines
    240-258, then the response. *)
Definition upload_try (cfg : Config) (env : Env) (payload : UploadIn)
  (request : Request) (fs : FS) : result UploadOut * FS :=
  match locate cfg env payload fs with
  | (HTTPException c d, fs) => (HTTPException c d, fs)
  | (Exception e, fs) => (Exception e, fs)
  | (Ok loc, fs) =>
      match store_file (fault env) fs (l_dir loc) (l_prefix loc) (l_ext loc)
              (l_ponto loc) (l_binary loc) with
      | (HTTPException c d, fs) => (HTTPException c d, fs)
      | (Exception e, fs) => (Exception e, fs)
      | (Ok final_name, fs) =>
          (Ok (build_response cfg request (l_mime loc) (l_binary loc)
                 (l_registro loc) (l_ponto loc) final_name), fs)
      end
  end.

(** [upload]: an [HTTPException] is re-raised, anything else becomes a
    500. *)
Definition upload (cfg : Config) (env : Env) (payload : UploadIn)
  (request : Request) (fs : FS) : result UploadOut * FS :=
  match upload_try cfg env payload request fs with
  | (Exception _, fs) => (HTTPException 500 "Erro interno do servidor", fs)
  | r => r
  end.

(** ** Example inputs *)

Definition default_config : Config :=
  {| IMAGES_ROOT := "/srv/imagens"; BASE_URL_ENV := None; MAX_SIZE_MB := 25;
     UNICODE := latin1_only |}.

Definition plain_request : Request :=
  {| headers := []; url_scheme := "http"; base_url := "http://127.0.0.1:8002/" |}.

Definition quiet_env : Env := {| uuid_hex8 := "0a1b2c3d"; fault := NoFault |}.

Definition empty_fs : FS := {| files := ∅; dirs := ∅ |}.

(** The three bytes "ABC" as a PNG data URL. *)
Definition abc_png : string := "data:image/png;base64,QUJD".
Definition abc : list byte := [x41; x42; x43].

(** ** Concurrent uploads

    Requests are served by several threads or processes that share only
    the storage tree. Each system call of lines 240-258 is one atomic
    step of a request; a schedule interleaves the steps of two requests
    over one [FS]. *)

(** What a request has computed before line 240. *)
Record Job := {
  j_dir : string;
  j_prefix : string;
  j_ext : string;
  j_ponto : option Z;
  j_binary : list byte;
  j_fault : write_fault
}.

(** Where a request stands. [left] counts the attempts that remain once
    the current one is over. *)
Inductive pc :=
| AtFinalName                     (* line 240, [os.path.exists] of line 243 *)
| AtNamerEntry (start : Z)        (* line 134 *)
| AtNamerMakedirs (start : Z)     (* line 135 *)
| AtProbe (left : nat) (n : Z)    (* lines 141-145 *)
| AtCreate (left : nat) (n : Z)   (* line 148 *)
| AtUnlink (n : Z)                (* line 151 *)
| AtWrite (final_name : string)   (* lines 254-255 *)
| Finished (r : result string).

Definition proc_step (j : Job) (st : pc) (fs : FS) : pc * FS :=
  let full n := os_path_join (j_dir j) (candidate_name (j_prefix j) n (j_ext j)) in
  match st with
  | AtFinalName =>
      match j_ponto j with
      | Some p =>
          if os_path_exists fs (full p) then (AtNamerEntry (p + 1), fs)
          else (AtWrite (candidate_name (j_prefix j) p (j_ext j)), fs)
      | None => (AtNamerEntry 1, fs)
      end
  | AtNamerEntry start =>
      if negb (os_path_exists fs (j_dir j)) then (AtNamerMakedirs start, fs)
      else (AtProbe (Z.to_nat max_attempts) (Z.max 1 start), fs)
  | AtNamerMakedirs start =>
      match os_makedirs fs (j_dir j) with
      | Some fs' => (AtProbe (Z.to_nat max_attempts) (Z.max 1 start), fs')
      | None => (Finished (Exception "OSError"), fs)
      end
  | AtProbe O n =>
      (Finished (HTTPException 500 "Não foi possível gerar nome único"), fs)
  | AtProbe (S left') n =>
      if negb (os_path_exists fs (full n)) then (AtCreate left' n, fs)
      else (AtProbe left' (n + 1), fs)
  | AtCreate left' n =>
      match open_x fs (full n) with
      | Opened fs1 => (AtUnlink n, fs1)
      | FileExists => (AtProbe left' (n + 1), fs)
      | OpenError => (Finished (Exception "OSError"), fs)
      end
  | AtUnlink n =>
      match os_unlink fs (full n) with
      | Some fs2 => (AtWrite (candidate_name (j_prefix j) n (j_ext j)), fs2)
      | None => (Finished (Exception "FileNotFoundError"), fs)
      end
  | AtWrite final_name =>
      match write_wb (j_fault j) fs (os_path_join (j_dir j) final_name) (j_binary j) with
      | (true, fs') => (Finished (Ok final_name), fs')
      | (false, fs') => (Finished (HTTPException 500 "Erro ao salvar arquivo"), fs')
      end
  | Finished r => (Finished r, fs)
  end.

(** One request running alone for at most [fuel] steps. *)
Fixpoint proc_run (fuel : nat) (j : Job) (st : pc) (fs : FS) : pc * FS :=
  match fuel with
  | O => (st, fs)
  | S fuel' =>
      match st with
      | Finished _ => (st, fs)
      | _ => let '(st', fs') := proc_step j st fs in proc_run fuel' j st' fs'
      end
  end.

(** Two requests over one storage tree. *)
Record System := {
  first : pc;
  second : pc;
  disk : FS
}.

Inductive turn := First | Second.

Definition sys_step (j1 j2 : Job) (t : turn) (s : System) : System :=
  match t with
  | First =>
      let '(st, fs) := proc_step j1 (first s) (disk s) in
      {| first := st; second := second s; disk := fs |}
  | Second =>
      let '(st, fs) := proc_step j2 (second s) (disk s) in
      {| first := first s; second := st; disk := fs |}
  end.

Definition run_schedule (j1 j2 : Job) (sched : list turn) (s : System) : System :=
  fold_left (fun s t => sys_step j1 j2 t s) sched s.

(** Two uploads for registro 5 without a ponto, as they reach line 240. *)
Definition job_a : Job :=
  {| j_dir := "/srv/imagens/5"; j_prefix := "5"; j_ext := "png"; j_ponto := None;
     j_binary := [x41]; j_fault := NoFault |}.

Definition job_b : Job :=
  {| j_dir := "/srv/imagens/5"; j_prefix := "5"; j_ext := "png"; j_ponto := None;
     j_binary := [x42]; j_fault := NoFault |}.

Definition dir5_fs : FS :=
  {| files := ∅;
     dirs := {["/srv/imagens/5"; "/srv/imagens"; "/srv"]}%string |}.

(** Each request allocates its name before either writes. *)
Definition racy_schedule : list turn :=
  [First; First; First; First; First;
   Second; Second; Second; Second; Second;
   First; Second].

(** [s * n] for a [str] and for [bytes]. *)
Definition repeat_str (n : N) (s : string) : string :=
  N.iter n (String.append s) EmptyString.

Definition repeat_bytes (n : N) (b : list byte) : list byte :=
  N.iter n (app b) [].

(** The MIME type and the bytes a data URL carries, whatever their size:
    the pattern, the lower-cased MIME type and the strict base64
    decoding, without the two length checks of [parse_data_url]. *)
Definition decoded_payload (data_url : string) : option (string * list byte) :=
  match DATA_URL_RE_match data_url with
  | Some (m, b64) =>
      match Base64.b64decode b64 with
      | Some binary => Some (lower m, binary)
      | None => None
      end
  | None => None
  end.

(** A PNG data URL of 37.5 MiB of zero bytes: 50 MiB of base64 text
    after the 22 characters of the header. *)
Definition oversized_url : string :=
  "data:image/png;base64," +:+ repeat_str 13107200 "AAAA".


(** How a request ends once its name is chosen: line 250 onwards. *)
Definition finish (j : Job) (r : result string * FS) : pc * FS :=
  match r with
  | (Ok name, fs) =>
      match write_wb (j_fault j) fs (os_path_join (j_dir j) name) (j_binary j) with
      | (true, fs') => (Finished (Ok name), fs')
      | (false, fs') => (Finished (HTTPException 500 "Erro ao salvar arquivo"), fs')
      end
  | (e, fs) => (Finished e, fs)
  end.

(** The job of an upload that passed [locate]. *)
Definition job_of (env : Env) (loc : Located) : Job :=
  {| j_dir := l_dir loc; j_prefix := l_prefix loc; j_ext := l_ext loc;
     j_ponto := l_ponto loc; j_binary := l_binary loc; j_fault := fault env |}.

(** ** CORS configuration: [CORS_ORIGINS] (lines 19-34) *)

Fixpoint lstrip_ws (U : Unicode) (s : ustr) : ustr :=
  match s with
  | [] => []
  | c :: s' => if is_space_cp U c then lstrip_ws U s' else s
  end.

Fixpoint rstrip_ws (U : Unicode) (s : ustr) : ustr :=
  match s with
  | [] => []
  | a :: s' =>
      match rstrip_ws U s' with
      | [] => if is_space_cp U a then [] else [a]
      | r => a :: r
      end
  end.

(** [s.strip()] *)
Definition strip (U : Unicode) (s : ustr) : ustr := rstrip_ws U (lstrip_ws U s).

(** [s.split(sep)] for a one-character separator. *)
Fixpoint u_split (sep : N) (s : ustr) : list ustr :=
  match s with
  | [] => [[]]
  | c :: s' =>
      if (c =? sep)%N then [] :: u_split sep s'
      else
        match u_split sep s' with
        | x :: xs => (c :: x) :: xs
        | [] => [[c]]
        end
  end.

Definition DEFAULT_CORS_ORIGINS : list string :=
  ["http://localhost:8000"; "http://127.0.0.1:8000";
   "http://localhost:80"; "http://127.0.0.1:80";
   "http://localhost:8002"; "http://127.0.0.1:8002";
   "http://localhost:8006"; "http://127.0.0.1:8006"]%string.

(** [CORS_ORIGINS] as computed at import time from
    [os.getenv("CORS_ORIGINS", "")], given as [None] when unset. *)
Definition CORS_ORIGINS (U : Unicode) (env_value : option ustr) : list ustr :=
  let _raw_origins := strip U (default [] env_value) in
  let origins :=
    List.map (strip U)
      (List.filter (fun o => nonempty (strip U o)) (u_split 44 _raw_origins)) in
  match origins with
  | [] => List.map ustr_of_string DEFAULT_CORS_ORIGINS
  | _ => origins
  end.

(** Where on disk the file of a response lies: the directory of its
    registro (or [misc]) under [IMAGES_ROOT], then its filename. *)
Definition stored_path (cfg : Config) (resp : UploadOut) : string :=
  os_path_join
    (os_path_join (IMAGES_ROOT cfg) (from_option str "misc"%string (r_registro resp)))
    (r_filename resp).

(** * Properties *)

(** ** Strings *)

Lemma append_cons (a : ascii) (s t : string) :
  String a s +:+ t = String a (s +:+ t).
Proof. reflexivity. Qed.

Lemma append_nil_l (t : string) : "" +:+ t = t.
Proof. reflexivity. Qed.

Lemma append_assoc (s t u : string) : (s +:+ t) +:+ u = s +:+ (t +:+ u).
Proof.
  induction s as [|a s IH]; [reflexivity|].
  rewrite !append_cons. by rewrite IH.
Qed.

Lemma length_append (s t : string) :
  String.length (s +:+ t) = (String.length s + String.length t)%nat.
Proof.
  induction s as [|a s IH]; [reflexivity|].
  rewrite append_cons. simpl. by rewrite IH.
Qed.

Lemma len_append (s t : string) : len (s +:+ t) = len s + len t.
Proof. unfold len. rewrite length_append. lia. Qed.

Lemma len_nonneg (s : string) : 0 <= len s.
Proof. unfold len. lia. Qed.

(** ** BaseURLResolver *)

Lemma truthy_Some (s : string) : truthy (Some s) = nonempty s.
Proof. reflexivity. Qed.

Lemma forwarded_scheme_eq (request : Request) :
  forwarded_scheme request =
  if truthy (headers_get (headers request) "x-forwarded-proto")
  then default ""%string (headers_get (headers request) "x-forwarded-proto")
  else url_scheme request.
Proof.
  unfold forwarded_scheme.
  destruct (headers_get (headers request) "x-forwarded-proto") as [p|]; simpl;
    [destruct (nonempty p)|]; reflexivity.
Qed.

(** A statically configured base URL wins over every header. *)
Lemma get_base_url_static (cfg : Config) (request : Request) (b : string) :
  BASE_URL_ENV cfg = Some b -> nonempty b = true ->
  get_base_url cfg request = rstrip "/" b.
Proof.
  intros Hb Hn. unfold get_base_url. rewrite Hb. simpl. by rewrite Hn.
Qed.

(** Without configuration and without a forwarded host, the request's own
    base URL is used. *)
Lemma get_base_url_fallback (cfg : Config) (request : Request) :
  truthy (BASE_URL_ENV cfg) = false ->
  truthy (headers_get (headers request) "x-forwarded-host") = false ->
  get_base_url cfg request = rstrip "/" (base_url request).
Proof.
  intros Hb Hh. unfold get_base_url. by rewrite Hb, Hh.
Qed.

(** C4, as amended. With no static base URL and a forwarded host, the
    origin is the forwarded proto (or the connection's scheme), "://"
    and the forwarded host; the forwarded port is appended exactly when
    the header is present and not empty, the host contains no ':' and the
    port is neither "80" nor "443", whatever the scheme. *)
Theorem get_base_url_forwarded (cfg : Config) (request : Request) (host : string) :
  truthy (BASE_URL_ENV cfg) = false ->
  headers_get (headers request) "x-forwarded-host" = Some host ->
  nonempty host = true ->
  get_base_url cfg request =
  forwarded_origin (forwarded_scheme request) host
    (headers_get (headers request) "x-forwarded-port").
Proof.
  intros Hb Hh Hn. unfold get_base_url. rewrite Hb, Hh, truthy_Some, Hn.
  rewrite <- forwarded_scheme_eq. cbn [default from_option id].
  unfold forwarded_origin.
  set (scheme := forwarded_scheme request).
  set (f_port := headers_get (headers request) "x-forwarded-port").
  set (port := default ""%string f_port).
  destruct (truthy f_port && negb (str_in ":" host)) eqn:Hpre; cbn [andb];
    [|reflexivity].
  destruct (String.eqb port "80") eqn:H80; cbn [orb negb]; [reflexivity|].
  destruct (String.eqb port "443") eqn:H443; cbn [orb negb andb]; [reflexivity|].
  rewrite !andb_false_r. reflexivity.
Qed.

Lemma get_base_url_forwarded_witness :
  get_base_url default_config
    {| headers := [("x-forwarded-proto", "https"); ("x-forwarded-host", "example.com");
                   ("x-forwarded-port", "8443")]%string;
       url_scheme := "http"; base_url := "http://10.0.0.7:8002/" |}
  = "https://example.com:8443"%string.
Proof.
  rewrite (get_base_url_forwarded _ _ "example.com"); reflexivity.
Defined.

(** The code and the specification's wording agree unless the port is
    the default port of the other scheme. *)
Lemma forwarded_origin_agrees (scheme host : string) (f_port : option string) :
  is_default_port scheme (default ""%string f_port)
  || negb (String.eqb (default ""%string f_port) "80"
           || String.eqb (default ""%string f_port) "443") = true ->
  forwarded_origin scheme host f_port = forwarded_origin_spec scheme host f_port.
Proof.
  unfold forwarded_origin, forwarded_origin_spec, is_default_port.
  destruct (String.eqb scheme "http"), (String.eqb scheme "https"),
    (String.eqb (default ""%string f_port) "80"),
    (String.eqb (default ""%string f_port) "443");
    cbn; intros; try reflexivity; try discriminate;
    by rewrite ?andb_false_r, ?andb_true_r.
Qed.

(** [X-Forwarded-Proto: https], [X-Forwarded-Host: example.com],
    [X-Forwarded-Port: 443] resolve to [https://example.com]. *)
Example get_base_url_https_443 :
  get_base_url default_config
    {| headers := [("x-forwarded-proto", "https"); ("x-forwarded-host", "example.com");
                   ("x-forwarded-port", "443")]%string;
       url_scheme := "http"; base_url := "http://10.0.0.7:8002/" |}
  = "https://example.com"%string.
Proof. reflexivity. Qed.

(** C4 as stated fails: port 80 is not the default port of https, the
    host carries no port and the header is present, yet no suffix is
    appended. *)
Lemma get_base_url_https_80_counterexample :
  let request :=
    {| headers := [("x-forwarded-proto", "https"); ("x-forwarded-host", "example.com");
                   ("x-forwarded-port", "80")]%string;
       url_scheme := "http"; base_url := "http://10.0.0.7:8002/" |} in
  is_default_port "https" "80" = false
  /\ forwarded_origin_spec (forwarded_scheme request) "example.com" (Some "80"%string)
     = "https://example.com:80"%string
  /\ get_base_url default_config request = "https://example.com"%string
  /\ get_base_url default_config request
     <> forwarded_origin_spec (forwarded_scheme request) "example.com" (Some "80"%string).
Proof. repeat split; try reflexivity. discriminate. Qed.

(** ** PayloadCodec *)

Lemma nonempty_append_l (s t : string) : nonempty s = true -> nonempty (s +:+ t) = true.
Proof. by destruct s. Qed.

Lemma str_forallb_append (p : ascii -> bool) (s t : string) :
  str_forallb p (s +:+ t) = str_forallb p s && str_forallb p t.
Proof.
  induction s as [|a s IH]; [reflexivity|].
  rewrite append_cons. simpl. rewrite IH. by rewrite andb_assoc.
Qed.

(** A greedy class stops at the first character outside it. *)
Lemma span_stop (p : ascii -> bool) (s t : string) :
  str_forallb p s = true ->
  match t with EmptyString => true | String c _ => negb (p c) end = true ->
  span p (s +:+ t) = (s, t).
Proof.
  intros Hs Ht. induction s as [|a s IH].
  - rewrite append_nil_l. destruct t as [|c t]; [reflexivity|].
    simpl. apply negb_true_iff in Ht. by rewrite Ht.
  - rewrite append_cons. simpl in *. apply andb_true_iff in Hs as [Ha Hs].
    rewrite Ha, (IH Hs). reflexivity.
Qed.

Lemma span_all (p : ascii -> bool) (s : string) :
  str_forallb p s = true -> span p s = (s, EmptyString).
Proof.
  intros Hs. induction s as [|a s IH]; [reflexivity|].
  simpl in *. apply andb_true_iff in Hs as [Ha Hs]. by rewrite Ha, (IH Hs).
Qed.

(** What [span] returns: the two parts of the input, the first inside
    the class. *)
Lemma span_spec (p : ascii -> bool) (s a b : string) :
  span p s = (a, b) -> s = a +:+ b /\ str_forallb p a = true.
Proof.
  revert a b. induction s as [|c s IH]; intros a b; simpl.
  - intros [= <- <-]. done.
  - destruct (p c) eqn:Hc.
    + destruct (span p s) as [a' b'] eqn:Hsp. intros [= <- <-].
      destruct (IH a' b' eq_refl) as [-> Ha]. rewrite append_cons.
      simpl. by rewrite Hc, Ha.
    + intros [= <- <-]. done.
Qed.

Lemma strip_prefix_append (pre s : string) : strip_prefix pre (pre +:+ s) = Some s.
Proof.
  induction pre as [|a pre IH]; [by destruct s|].
  rewrite append_cons. simpl. by rewrite Ascii.eqb_refl.
Qed.

Lemma strip_prefix_spec (pre s r : string) :
  strip_prefix pre s = Some r -> s = pre +:+ r.
Proof.
  revert s. induction pre as [|a pre IH]; intros s; simpl.
  - by intros [= ->].
  - destruct s as [|b s]; [done|]. destruct (Ascii.eqb a b) eqn:Hab; [|done].
    apply Ascii.eqb_eq in Hab as ->. intros H%IH. by rewrite H.
Qed.

(** The pattern accepts [data:<mime>;base64,<b64>] and returns its two
    groups. *)
Lemma DATA_URL_RE_match_build (m b64 : string) :
  nonempty m = true -> str_forallb is_mime_char m = true ->
  nonempty b64 = true ->
  str_forallb (fun c => negb (Ascii.eqb c newline)) b64 = true ->
  DATA_URL_RE_match ("data:" +:+ m +:+ ";base64," +:+ b64) = Some (m, b64).
Proof.
  intros Hm Hmc Hb Hbc. unfold DATA_URL_RE_match.
  rewrite strip_prefix_append.
  rewrite (span_stop is_mime_char m (";base64," +:+ b64) Hmc eq_refl).
  rewrite Hm, strip_prefix_append, (span_all _ b64 Hbc), Hb. reflexivity.
Qed.

(** What a match says about the input. *)
Lemma DATA_URL_RE_match_spec (s m b64 : string) :
  DATA_URL_RE_match s = Some (m, b64) ->
  exists tail, s = "data:" +:+ m +:+ ";base64," +:+ b64 +:+ tail
    /\ at_dollar tail = true
    /\ nonempty m = true /\ str_forallb is_mime_char m = true
    /\ nonempty b64 = true.
Proof.
  unfold DATA_URL_RE_match.
  destruct (strip_prefix "data:" s) as [r|] eqn:H1; [|done].
  destruct (span is_mime_char r) as [m' r1] eqn:H2.
  destruct (nonempty m') eqn:Hm; [|done].
  destruct (strip_prefix ";base64," r1) as [r2|] eqn:H3; [|done].
  destruct (span _ r2) as [b' r3] eqn:H4.
  destruct (nonempty b') eqn:Hb; [|done].
  destruct (at_dollar r3) eqn:Hd; [|done].
  intros [= <- <-]. exists r3.
  apply strip_prefix_spec in H1 as ->. apply span_spec in H2 as [-> Hmc].
  apply strip_prefix_spec in H3 as ->. apply span_spec in H4 as [-> _].
  done.
Qed.

Lemma lower_char_mime (c : ascii) :
  is_mime_char (lower_char c) = true -> is_mime_char c = true.
Proof. destruct c as [[] [] [] [] [] [] [] []]; vm_compute; congruence. Qed.

Lemma lower_forall_mime (m : string) :
  str_forallb is_mime_char (lower m) = true -> str_forallb is_mime_char m = true.
Proof.
  induction m as [|c m IH]; [done|]. simpl.
  intros [Hc Hm]%andb_true_iff. by rewrite (lower_char_mime c Hc), (IH Hm).
Qed.

Lemma dict_get_ALLOWED_MIMES (mime ext : string) :
  dict_get ALLOWED_MIMES mime = Some ext ->
  (mime = "image/jpeg" /\ ext = "jpg") \/ (mime = "image/png" /\ ext = "png")
  \/ (mime = "image/webp" /\ ext = "webp").
Proof.
  unfold ALLOWED_MIMES, dict_get.
  repeat match goal with
         | |- context [String.eqb ?a ?b] =>
             destruct (String.eqb_spec a b); [subst; intros [= <-]; tauto|]
         end.
  done.
Qed.

Lemma allowed_mime_chars (m ext : string) :
  dict_get ALLOWED_MIMES (lower m) = Some ext ->
  nonempty m = true /\ str_forallb is_mime_char m = true.
Proof.
  intros H. split.
  - destruct m; [|done]. by vm_compute in H.
  - apply lower_forall_mime.
    destruct (dict_get_ALLOWED_MIMES _ _ H) as [[-> _]|[[-> _]|[-> _]]];
      reflexivity.
Qed.

(** *** Base64 *)

Lemma index_of_char_of (i : N) :
  (i < 64)%N -> Base64.index_of (Base64.char_of i) = Some i.
Proof.
  intros Hi. destruct i as [|p]; [reflexivity|].
  do 6 (destruct p as [p|p|]; try reflexivity); lia.
Qed.

Lemma char_of_not_newline (i : N) :
  (i < 64)%N -> negb (Ascii.eqb (Base64.char_of i) newline) = true.
Proof.
  intros Hi. destruct i as [|p]; [reflexivity|].
  do 6 (destruct p as [p|p|]; try reflexivity); lia.
Qed.

Lemma char_of_not_pad (i : N) :
  (i < 64)%N -> Ascii.eqb (Base64.char_of i) "=" = false.
Proof.
  intros Hi. destruct i as [|p]; [reflexivity|].
  do 6 (destruct p as [p|p|]; try reflexivity); lia.
Qed.

Lemma byte_of_to_N (x : byte) : Base64.byte_of (Byte.to_N x) = x.
Proof.
  unfold Base64.byte_of. pose proof (Byte.to_N_bounded x) as Hb.
  rewrite N.mod_small by lia. by rewrite Byte.of_to_N.
Qed.

Ltac euclid := zify; Z.to_euclidean_division_equations; lia.

(** The four 6-bit values of three bytes, and the bytes back. *)
Lemma sextets_bounds (a b c : N) :
  (a < 256 -> b < 256 -> c < 256 ->
   a / 4 < 64 /\ (a mod 4) * 16 + b / 16 < 64
   /\ (b mod 16) * 4 + c / 64 < 64 /\ c mod 64 < 64)%N.
Proof. intros. repeat split; euclid. Qed.

Lemma sextets_bytes (a b c : N) :
  (a < 256 -> b < 256 -> c < 256 ->
   (a / 4 * 4 + ((a mod 4) * 16 + b / 16) / 16) mod 256 = a
   /\ (((a mod 4) * 16 + b / 16) * 16 + ((b mod 16) * 4 + c / 64) / 4) mod 256 = b
   /\ (((b mod 16) * 4 + c / 64) * 64 + c mod 64) mod 256 = c)%N.
Proof. intros. repeat split; euclid. Qed.

Lemma to_N_lt (x : byte) : (Byte.to_N x < 256)%N.
Proof. pose proof (Byte.to_N_bounded x). lia. Qed.

Lemma byte_of_mod (n : N) (x : byte) :
  (n mod 256 = Byte.to_N x)%N -> Base64.byte_of n = x.
Proof.
  intros H. unfold Base64.byte_of. rewrite H. by rewrite Byte.of_to_N.
Qed.

Lemma decode_quad_three (full : bool) (x y z : byte) :
  let a := Byte.to_N x in
  let b := Byte.to_N y in
  let c := Byte.to_N z in
  Base64.decode_quad full
    (Base64.char_of (a / 4)) (Base64.char_of ((a mod 4) * 16 + b / 16))
    (Base64.char_of ((b mod 16) * 4 + c / 64)) (Base64.char_of (c mod 64))
  = Some [x; y; z].
Proof.
  intros a b c.
  destruct (sextets_bounds a b c) as (H1 & H2 & H3 & H4); try apply to_N_lt.
  destruct (sextets_bytes a b c) as (E1 & E2 & E3); try apply to_N_lt.
  unfold Base64.decode_quad.
  rewrite !index_of_char_of by assumption.
  by rewrite (byte_of_mod _ x E1), (byte_of_mod _ y E2), (byte_of_mod _ z E3).
Qed.

Lemma decode_quad_two (x y : byte) :
  let a := Byte.to_N x in
  let b := Byte.to_N y in
  Base64.decode_quad false
    (Base64.char_of (a / 4)) (Base64.char_of ((a mod 4) * 16 + b / 16))
    (Base64.char_of ((b mod 16) * 4)) "="
  = Some [x; y].
Proof.
  intros a b.
  destruct (sextets_bounds a b 0) as (H1 & H2 & H3 & _); try apply to_N_lt; [lia|].
  destruct (sextets_bytes a b 0) as (E1 & E2 & _); try apply to_N_lt; [lia|].
  change (0 / 64)%N with 0%N in *. rewrite N.add_0_r in *.
  unfold Base64.decode_quad.
  rewrite !index_of_char_of by assumption.
  change (Base64.index_of "=") with (@None N). cbn [negb andb Ascii.eqb].
  change (Ascii.eqb "=" "=") with true. cbn [andb].
  by rewrite (byte_of_mod _ x E1), (byte_of_mod _ y E2).
Qed.

Lemma decode_quad_one (x : byte) :
  let a := Byte.to_N x in
  Base64.decode_quad false
    (Base64.char_of (a / 4)) (Base64.char_of ((a mod 4) * 16)) "=" "="
  = Some [x].
Proof.
  intros a.
  destruct (sextets_bounds a 0 0) as (H1 & H2 & _); try apply to_N_lt; try lia.
  destruct (sextets_bytes a 0 0) as (E1 & _); try apply to_N_lt; try lia.
  change (0 / 16)%N with 0%N in *. rewrite N.add_0_r in *.
  unfold Base64.decode_quad.
  rewrite !index_of_char_of by assumption.
  change (Base64.index_of "=") with (@None N).
  change (Ascii.eqb "=" "=") with true. cbn [negb andb].
  by rewrite (byte_of_mod _ x E1).
Qed.

Lemma b64encode_nonempty (data : list byte) :
  data <> [] -> nonempty (Base64.b64encode data) = true.
Proof. destruct data as [|a [|b [|c rest]]]; done. Qed.

(** Induction on byte strings three bytes at a time. *)
Lemma triples_ind (P : list byte -> Prop) :
  P [] -> (forall a, P [a]) -> (forall a b, P [a; b]) ->
  (forall a b c rest, P rest -> P (a :: b :: c :: rest)) ->
  forall data, P data.
Proof.
  intros H0 H1 H2 H3.
  fix IH 1. intros [|a [|b [|c rest]]].
  - exact H0.
  - exact (H1 a).
  - exact (H2 a b).
  - exact (H3 a b c rest (IH rest)).
Qed.

(** Encoded text starts with a character of the alphabet. *)
Lemma b64encode_not_all_pad (data : list byte) :
  data <> [] -> Base64.all_pad (Base64.b64encode data) = false.
Proof.
  destruct data as [|a [|b [|c rest]]]; [done|..]; intros _;
    cbn [Base64.b64encode Base64.all_pad];
    (rewrite char_of_not_pad; [done|]); pose proof (to_N_lt a); euclid.
Qed.

(** Strict decoding inverts encoding. *)
Lemma b64decode_b64encode (data : list byte) :
  Base64.b64decode (Base64.b64encode data) = Some data.
Proof.
  induction data as [|a|a b|a b c rest IH] using triples_ind.
  - reflexivity.
  - apply decode_quad_one.
  - apply decode_quad_two.
  - change (Base64.b64encode (a :: b :: c :: rest)) with
      (String (Base64.char_of (Byte.to_N a / 4))
         (String (Base64.char_of ((Byte.to_N a mod 4) * 16 + Byte.to_N b / 16))
            (String (Base64.char_of ((Byte.to_N b mod 16) * 4 + Byte.to_N c / 64))
               (String (Base64.char_of (Byte.to_N c mod 64))
                  (Base64.b64encode rest))))).
    cbn [Base64.b64decode]. fold Base64.b64decode.
    destruct (Base64.b64encode rest) as [|r1 r2] eqn:Hr.
    + destruct rest; [|by apply (f_equal nonempty) in Hr;
                        rewrite b64encode_nonempty in Hr].
      apply decode_quad_three.
    + rewrite decode_quad_three.
      pose proof (b64encode_not_all_pad rest) as Hp. rewrite Hr in Hp.
      rewrite Hp by (intros ->; discriminate Hr). by rewrite IH.
Qed.

(** Encoded text has no line breaks. *)
Lemma b64encode_no_newline (data : list byte) :
  str_forallb (fun c => negb (Ascii.eqb c newline)) (Base64.b64encode data) = true.
Proof.
  induction data as [|a|a b|a b c rest IH] using triples_ind.
  - reflexivity.
  - destruct (sextets_bounds (Byte.to_N a) 0 0) as (H1 & H2 & _);
      try apply to_N_lt; try lia.
    change (0 / 16)%N with 0%N in *. rewrite N.add_0_r in *.
    cbn [Base64.b64encode str_forallb].
    by rewrite !char_of_not_newline.
  - destruct (sextets_bounds (Byte.to_N a) (Byte.to_N b) 0) as (H1 & H2 & H3 & _);
      try apply to_N_lt; try lia.
    change (0 / 64)%N with 0%N in *. rewrite N.add_0_r in *.
    cbn [Base64.b64encode str_forallb].
    by rewrite !char_of_not_newline.
  - destruct (sextets_bounds (Byte.to_N a) (Byte.to_N b) (Byte.to_N c))
      as (H1 & H2 & H3 & H4); try apply to_N_lt.
    cbn [Base64.b64encode str_forallb].
    by rewrite !char_of_not_newline, IH.
Qed.

Lemma blen_cons (x : byte) (data : list byte) : blen (x :: data) = 1 + blen data.
Proof. unfold blen. cbn [List.length]. lia. Qed.

Lemma blen_app (a b : list byte) : blen (a ++ b) = blen a + blen b.
Proof. unfold blen. rewrite List.length_app. lia. Qed.

Lemma len_cons (c : ascii) (s : string) : len (String c s) = 1 + len s.
Proof. unfold len. cbn [String.length]. lia. Qed.

(** Four characters for every three bytes, the last group padded. *)
Lemma len_b64encode (data : list byte) :
  len (Base64.b64encode data) = 4 * ((blen data + 2) / 3).
Proof.
  induction data as [|a|a b|a b c rest IH] using triples_ind; try reflexivity.
  cbn [Base64.b64encode]. rewrite !len_cons, IH, !blen_cons.
  pose proof (Zle_0_nat (List.length rest)). fold (blen rest) in *.
  Z.to_euclidean_division_equations; lia.
Qed.

Lemma len_lower (s : string) : len (lower s) = len s.
Proof.
  induction s as [|c s IH]; [reflexivity|]. cbn [lower]. by rewrite !len_cons, IH.
Qed.

Lemma parse_data_url_too_long (cfg : Config) (data_url : string) :
  len data_url > 50 * 1024 * 1024 ->
  parse_data_url cfg data_url = HTTPException 400 "data_url inválido ou muito grande".
Proof.
  intros H. unfold parse_data_url.
  destruct (Z.gtb_spec (len data_url) (50 * 1024 * 1024)); [reflexivity|lia].
Qed.

(** How [parse_data_url] goes once the pattern, the MIME type and the
    base64 text are accepted. *)
Lemma parse_data_url_decoded (cfg : Config) (data_url m b64 ext : string)
  (binary : list byte) :
  len data_url <= 50 * 1024 * 1024 ->
  DATA_URL_RE_match data_url = Some (m, b64) ->
  dict_get ALLOWED_MIMES (lower m) = Some ext ->
  Base64.b64decode b64 = Some binary ->
  parse_data_url cfg data_url =
  if blen binary >? MAX_SIZE_MB cfg * 1024 * 1024
  then HTTPException 413 ("Arquivo > " +:+ str (MAX_SIZE_MB cfg) +:+ "MB")
  else Ok (lower m, binary).
Proof.
  intros Hlen Hm Hd Hb. unfold parse_data_url.
  destruct (Z.gtb_spec (len data_url) (50 * 1024 * 1024)); [lia|].
  by rewrite Hm, Hd, Hb.
Qed.

(** The data URL of a non-empty payload matches the pattern, with the
    given MIME type and the base64 text as its groups. *)
Lemma DATA_URL_RE_match_make (m ext : string) (data : list byte) :
  dict_get ALLOWED_MIMES (lower m) = Some ext ->
  data <> [] ->
  DATA_URL_RE_match (make_data_url m data) = Some (m, Base64.b64encode data).
Proof.
  intros Hm Hne. destruct (allowed_mime_chars m ext Hm) as [Hm1 Hm2].
  apply DATA_URL_RE_match_build; try done.
  - by apply b64encode_nonempty.
  - apply b64encode_no_newline.
Qed.

(** C9, as amended. For every non-empty byte sequence within the
    configured limit and every MIME type whose lower-case form is
    allow-listed, if the data URL built from them is at most 50 MiB
    characters long then decoding it succeeds and returns the lower-cased
    MIME type and exactly the original bytes. *)
Theorem parse_data_url_roundtrip (cfg : Config) (m ext : string) (data : list byte) :
  dict_get ALLOWED_MIMES (lower m) = Some ext ->
  data <> [] ->
  blen data <= MAX_SIZE_MB cfg * 1024 * 1024 ->
  len (make_data_url m data) <= 50 * 1024 * 1024 ->
  parse_data_url cfg (make_data_url m data) = Ok (lower m, data).
Proof.
  intros Hm Hne Hsize Hlen.
  rewrite (parse_data_url_decoded cfg _ m (Base64.b64encode data) ext data);
    try done.
  - destruct (Z.gtb_spec (blen data) (MAX_SIZE_MB cfg * 1024 * 1024)); [lia|done].
  - by apply (DATA_URL_RE_match_make m ext).
  - apply b64decode_b64encode.
Qed.

Lemma parse_data_url_roundtrip_witness :
  parse_data_url default_config (make_data_url "IMAGE/PNG" abc)
  = Ok ("image/png"%string, abc).
Proof.
  apply (parse_data_url_roundtrip default_config "IMAGE/PNG" "png" abc);
    [reflexivity | discriminate | vm_compute; discriminate | vm_compute; discriminate].
Defined.

(** With a limit of at most 37 MiB, as the default of 25, the bound on
    the length of the data URL follows from the bound on the bytes. *)
Lemma parse_data_url_roundtrip_small_limit
  (cfg : Config) (m ext : string) (data : list byte) :
  MAX_SIZE_MB cfg <= 37 ->
  dict_get ALLOWED_MIMES (lower m) = Some ext ->
  data <> [] ->
  blen data <= MAX_SIZE_MB cfg * 1024 * 1024 ->
  parse_data_url cfg (make_data_url m data) = Ok (lower m, data).
Proof.
  intros Hmax Hm Hne Hsize.
  rewrite (parse_data_url_decoded cfg _ m (Base64.b64encode data) ext data);
    try done.
  - destruct (Z.gtb_spec (blen data) (MAX_SIZE_MB cfg * 1024 * 1024)); [lia|done].
  - unfold make_data_url. rewrite !len_append, len_b64encode, <- (len_lower m).
    assert (len (lower m) <= 10) as Hl.
    { destruct (dict_get_ALLOWED_MIMES _ _ Hm) as [[-> _]|[[-> _]|[-> _]]];
        vm_compute; discriminate. }
    change (len "data:") with 5. change (len ";base64,") with 8.
    Z.to_euclidean_division_equations; lia.
  - by apply (DATA_URL_RE_match_make m ext).
  - apply b64decode_b64encode.
Qed.

(** C9 as stated fails for the empty byte sequence: its data URL has an
    empty base64 part, which the pattern of [DATA_URL_RE] refuses. *)
Lemma parse_data_url_empty_counterexample :
  dict_get ALLOWED_MIMES (lower "image/png") = Some "png"%string
  /\ blen [] <= MAX_SIZE_MB default_config * 1024 * 1024
  /\ make_data_url "image/png" [] = "data:image/png;base64,"%string
  /\ parse_data_url default_config (make_data_url "image/png" [])
     = HTTPException 400 "data_url inválido"
  /\ parse_data_url default_config (make_data_url "image/png" [])
     <> Ok (lower "image/png", []).
Proof. repeat split; try reflexivity; vm_compute; discriminate. Qed.

(** *** Oversized payloads *)

Lemma upload_parse_failure (cfg : Config) (env : Env) (payload : UploadIn)
  (request : Request) (fs : FS) (c : Z) (d : string) :
  nonempty (filename payload) = true ->
  nonempty (data_url payload) = true ->
  parse_data_url cfg (data_url payload) = HTTPException c d ->
  upload cfg env payload request fs = (HTTPException c d, fs).
Proof.
  intros Hf Hd Hp. unfold upload, upload_try, locate. by rewrite Hf, Hd, Hp.
Qed.

Lemma DATA_URL_RE_match_nonempty (s m b64 : string) :
  DATA_URL_RE_match s = Some (m, b64) -> nonempty s = true.
Proof. by destruct s. Qed.

(** C8, as amended. A data URL of at most 50 MiB characters that matches
    the pattern, names an allow-listed MIME type and decodes to more
    bytes than the configured maximum is refused with status 413, and an
    upload that carries it (with a filename) fails with 413 and leaves
    the storage tree as it was. *)
Theorem oversized_payload_rejected (cfg : Config) (env : Env) (payload : UploadIn)
  (request : Request) (fs : FS) (m b64 ext : string) (binary : list byte) :
  nonempty (filename payload) = true ->
  len (data_url payload) <= 50 * 1024 * 1024 ->
  DATA_URL_RE_match (data_url payload) = Some (m, b64) ->
  dict_get ALLOWED_MIMES (lower m) = Some ext ->
  Base64.b64decode b64 = Some binary ->
  blen binary > MAX_SIZE_MB cfg * 1024 * 1024 ->
  parse_data_url cfg (data_url payload)
  = HTTPException 413 ("Arquivo > " +:+ str (MAX_SIZE_MB cfg) +:+ "MB")
  /\ upload cfg env payload request fs
     = (HTTPException 413 ("Arquivo > " +:+ str (MAX_SIZE_MB cfg) +:+ "MB"), fs).
Proof.
  intros Hf Hlen Hm Hd Hb Hsize.
  assert (parse_data_url cfg (data_url payload)
          = HTTPException 413 ("Arquivo > " +:+ str (MAX_SIZE_MB cfg) +:+ "MB")) as Hp.
  { rewrite (parse_data_url_decoded cfg _ m b64 ext binary); try done.
    destruct (Z.gtb_spec (blen binary) (MAX_SIZE_MB cfg * 1024 * 1024)); [done|lia]. }
  split; [exact Hp|].
  apply upload_parse_failure; try done.
  by apply (DATA_URL_RE_match_nonempty _ m b64).
Qed.

Lemma oversized_payload_rejected_witness :
  let cfg := {| IMAGES_ROOT := "/srv/imagens"; BASE_URL_ENV := None; MAX_SIZE_MB := 0;
       UNICODE := latin1_only |} in
  let payload :=
    {| filename := "a.png"; data_url := abc_png; registro := None; ponto := None |} in
  parse_data_url cfg abc_png = HTTPException 413 "Arquivo > 0MB"
  /\ upload cfg quiet_env payload plain_request empty_fs
     = (HTTPException 413 "Arquivo > 0MB", empty_fs).
Proof.
  intros cfg payload.
  apply (oversized_payload_rejected cfg quiet_env payload plain_request empty_fs
           "image/png" "QUJD" "png" abc); reflexivity || (vm_compute; discriminate).
Defined.

(** **** A data URL longer than 50 MiB *)

Lemma repeat_str_succ (n : N) (s : string) :
  repeat_str (N.succ n) s = s +:+ repeat_str n s.
Proof. unfold repeat_str. by rewrite N.iter_succ. Qed.

Lemma repeat_bytes_succ (n : N) (b : list byte) :
  repeat_bytes (N.succ n) b = b ++ repeat_bytes n b.
Proof. unfold repeat_bytes. by rewrite N.iter_succ. Qed.

Lemma len_repeat_str (n : N) (s : string) :
  len (repeat_str n s) = Z.of_N n * len s.
Proof.
  induction n as [|n IH] using N.peano_ind; [reflexivity|].
  rewrite repeat_str_succ, len_append, IH. lia.
Qed.

Lemma blen_repeat_bytes (n : N) (b : list byte) :
  blen (repeat_bytes n b) = Z.of_N n * blen b.
Proof.
  induction n as [|n IH] using N.peano_ind; [reflexivity|].
  rewrite repeat_bytes_succ, blen_app, IH. lia.
Qed.

Lemma str_forallb_repeat_str (p : ascii -> bool) (n : N) (s : string) :
  str_forallb p s = true -> str_forallb p (repeat_str n s) = true.
Proof.
  intros Hs. induction n as [|n IH] using N.peano_ind; [reflexivity|].
  by rewrite repeat_str_succ, str_forallb_append, Hs, IH.
Qed.

Lemma nonempty_repeat_str (n : N) (s : string) :
  (0 < n)%N -> nonempty s = true -> nonempty (repeat_str n s) = true.
Proof.
  intros Hn Hs. destruct n as [|p] using N.peano_ind; [lia|].
  rewrite repeat_str_succ. by apply nonempty_append_l.
Qed.

Lemma repeat_str_zeros_head (n : N) (c : ascii) (rest : string) :
  repeat_str n "AAAA" = String c rest -> c = "A"%char.
Proof.
  destruct n as [|n] using N.peano_ind; [done|].
  rewrite repeat_str_succ. by intros [= <- _].
Qed.

Lemma b64decode_zeros (n : N) :
  Base64.b64decode (repeat_str n "AAAA") = Some (repeat_bytes n [x00; x00; x00]).
Proof.
  induction n as [|n IH] using N.peano_ind; [reflexivity|].
  rewrite repeat_str_succ, repeat_bytes_succ.
  change ("AAAA" +:+ repeat_str n "AAAA")
    with (String "A" (String "A" (String "A" (String "A" (repeat_str n "AAAA"))))).
  cbn [Base64.b64decode]. fold Base64.b64decode.
  destruct (repeat_str n "AAAA") as [|c rest] eqn:Hr.
  - injection IH as <-. reflexivity.
  - apply repeat_str_zeros_head in Hr as ->.
    cbn [Base64.all_pad andb]. change (Ascii.eqb "A" "=") with false.
    cbn [andb]. rewrite IH. reflexivity.
Qed.

Lemma decoded_payload_zeros (n : N) :
  (0 < n)%N ->
  decoded_payload ("data:image/png;base64," +:+ repeat_str n "AAAA")
  = Some ("image/png"%string, repeat_bytes n [x00; x00; x00]).
Proof.
  intros Hn. unfold decoded_payload.
  change ("data:image/png;base64," +:+ repeat_str n "AAAA")
    with ("data:" +:+ "image/png" +:+ ";base64," +:+ repeat_str n "AAAA").
  rewrite DATA_URL_RE_match_build.
  - by rewrite b64decode_zeros.
  - reflexivity.
  - reflexivity.
  - by apply nonempty_repeat_str.
  - by apply str_forallb_repeat_str.
Qed.

Lemma len_zeros_url (n : N) :
  len ("data:image/png;base64," +:+ repeat_str n "AAAA") = 22 + 4 * Z.of_N n.
Proof.
  rewrite len_append, len_repeat_str.
  change (len "data:image/png;base64,") with 22. change (len "AAAA") with 4. lia.
Qed.

(** C8 as stated fails: this data URL is well formed, its MIME type is
    allow-listed and its 39,321,600 decoded bytes exceed the default
    maximum of 25 MiB, yet the upload fails with status 400, not 413: the
    text is longer than 50 MiB and is refused before it is decoded. *)
Lemma oversized_url_counterexample :
  let payload :=
    {| filename := "a.png"; data_url := oversized_url; registro := None; ponto := None |} in
  (exists binary,
      decoded_payload oversized_url = Some ("image/png"%string, binary)
      /\ blen binary = 39321600
      /\ blen binary > MAX_SIZE_MB default_config * 1024 * 1024)
  /\ upload default_config quiet_env payload plain_request empty_fs
     = (HTTPException 400 "data_url inválido ou muito grande", empty_fs)
  /\ status_of (upload default_config quiet_env payload plain_request empty_fs).1
     <> Some 413.
Proof.
  intros payload.
  assert (upload default_config quiet_env payload plain_request empty_fs
          = (HTTPException 400 "data_url inválido ou muito grande", empty_fs)) as Hu.
  { apply upload_parse_failure; [reflexivity|reflexivity|].
    apply parse_data_url_too_long. cbn [data_url payload].
    unfold oversized_url. rewrite len_zeros_url. reflexivity. }
  split; [|split; [exact Hu|by rewrite Hu]].
  exists (repeat_bytes 13107200 [x00; x00; x00]).
  split; [by apply decoded_payload_zeros|].
  rewrite blen_repeat_bytes. split; reflexivity.
Qed.

(** ** The storage tree *)

Lemma FS_eq (fs1 fs2 : FS) :
  files fs1 = files fs2 -> dirs fs1 = dirs fs2 -> fs1 = fs2.
Proof. destruct fs1, fs2; simpl; by intros -> ->. Qed.

Lemma is_file_false (fs : FS) (p : string) :
  is_file fs p = false <-> files fs !! p = None.
Proof.
  unfold is_file. rewrite bool_decide_eq_false, <- eq_None_not_Some. done.
Qed.

Lemma is_file_true (fs : FS) (p : string) :
  is_file fs p = true <-> is_Some (files fs !! p).
Proof. unfold is_file. by rewrite bool_decide_eq_true. Qed.

Lemma os_path_exists_false (fs : FS) (p : string) :
  os_path_exists fs p = false <-> files fs !! p = None /\ is_dir fs p = false.
Proof. unfold os_path_exists. by rewrite orb_false_iff, is_file_false. Qed.

Lemma is_dir_same (fs fs' : FS) (p : string) :
  dirs fs' = dirs fs -> is_dir fs' p = is_dir fs p.
Proof. unfold is_dir. by intros ->. Qed.

Lemma is_dir_mono (fs fs' : FS) (p : string) :
  dirs fs ⊆ dirs fs' -> is_dir fs p = true -> is_dir fs' p = true.
Proof.
  unfold is_dir. intros Hsub [->|Hp%bool_decide_eq_true]%orb_true_iff; [done|].
  rewrite (bool_decide_eq_true_2 (p ∈ dirs fs')) by (by apply Hsub).
  apply orb_true_r.
Qed.

Lemma can_create_same (fs fs' : FS) (p : string) :
  dirs fs' = dirs fs -> can_create fs' p = can_create fs p.
Proof. unfold can_create. intros H. by rewrite (is_dir_same _ _ _ H). Qed.

(** A probe on a free path where a file can be created creates the file
    and removes it again: the storage tree is as before. *)
Lemma probe_restores (fs : FS) (p : string) :
  os_path_exists fs p = false -> can_create fs p = true ->
  exists fs1, open_x fs p = Opened fs1 /\ os_unlink fs1 p = Some fs.
Proof.
  intros Hfree Hcan. unfold open_x. rewrite Hfree, Hcan. eexists.
  split; [reflexivity|].
  apply os_path_exists_false in Hfree as [Hnone _].
  unfold os_unlink, is_file. cbn [files dirs].
  rewrite bool_decide_eq_true_2 by (rewrite lookup_insert_eq; eauto).
  f_equal. apply FS_eq; cbn [files dirs]; [|done].
  rewrite delete_insert_eq. by apply delete_id.
Qed.

Lemma open_x_occupied (fs : FS) (p : string) :
  os_path_exists fs p = true -> open_x fs p = FileExists.
Proof. intros H. unfold open_x. by rewrite H. Qed.

Lemma open_x_refused (fs : FS) (p : string) :
  os_path_exists fs p = false -> can_create fs p = false -> open_x fs p = OpenError.
Proof. intros H1 H2. unfold open_x. by rewrite H1, H2. Qed.

Lemma os_makedirs_spec (fs fs1 : FS) (p : string) :
  os_makedirs fs p = Some fs1 ->
  files fs1 = files fs /\ dirs fs ⊆ dirs fs1 /\ is_dir fs1 p = true
  /\ os_path_exists fs1 p = true.
Proof.
  unfold os_makedirs. destruct (is_dir fs p) eqn:Hd.
  - intros [= <-]. split_and!; try done. unfold os_path_exists.
    rewrite Hd. apply orb_true_r.
  - destruct (_ || _); [done|]. intros [= <-]. cbn [files dirs].
    assert (is_dir {| files := files fs;
                      dirs := {[p]} ∪ list_to_set (parents p) ∪ dirs fs |} p = true)
      as Hp.
    { unfold is_dir. cbn [dirs].
      rewrite (bool_decide_eq_true_2 (p ∈ _)); [apply orb_true_r|].
      apply elem_of_union; left. apply elem_of_union; left.
      by apply elem_of_singleton. }
    split_and!; try done.
    + intros q Hq. apply elem_of_union. by right.
    + unfold os_path_exists. rewrite Hp. apply orb_true_r.
Qed.

(** A directory that exists is left as it is. *)
Lemma os_makedirs_present (fs : FS) (p : string) :
  is_dir fs p = true -> os_makedirs fs p = Some fs.
Proof. intros H. unfold os_makedirs. by rewrite H. Qed.

(** The final write changes nothing but the file at its path. *)
Lemma write_wb_spec (flt : write_fault) (fs fs' : FS) (p : string)
  (data : list byte) (ok : bool) :
  write_wb flt fs p data = (ok, fs') ->
  dirs fs' = dirs fs
  /\ (forall q, q <> p -> files fs' !! q = files fs !! q)
  /\ (ok = true -> flt = NoFault /\ files fs' !! p = Some data)
  /\ (ok = false -> files fs' = files fs \/ exists k, flt = WriteFails k).
Proof.
  unfold write_wb. destruct (is_dir fs p).
  { intros [= <- <-]. repeat split; try done. by left. }
  destruct (negb (is_file fs p) && negb (can_create fs p)).
  { intros [= <- <-]. repeat split; try done. by left. }
  destruct flt; intros [= <- <-]; cbn [files dirs]; repeat split; try done.
  - intros q Hq. by rewrite lookup_insert_ne.
  - by rewrite lookup_insert_eq.
  - by left.
  - intros q Hq. by rewrite lookup_insert_ne.
  - right. eauto.
Qed.

Lemma write_wb_NoFault (fs : FS) (p : string) (data : list byte) :
  os_path_exists fs p = false -> can_create fs p = true ->
  write_wb NoFault fs p data
  = (true, {| files := <[p := data]> (files fs); dirs := dirs fs |}).
Proof.
  intros [_ Hd]%os_path_exists_false Hcan. unfold write_wb.
  by rewrite Hd, Hcan, andb_false_r.
Qed.

(** Where no file can be created the write fails and leaves the tree as
    it is, whatever the environment. *)
Lemma write_wb_refused (flt : write_fault) (fs : FS) (p : string) (data : list byte) :
  os_path_exists fs p = false -> can_create fs p = false ->
  write_wb flt fs p data = (false, fs).
Proof.
  intros [Hf Hd]%os_path_exists_false Hcan. unfold write_wb.
  apply is_file_false in Hf. by rewrite Hd, Hf, Hcan.
Qed.

(** ** SequentialNamer *)

Section Namer.
Variables (dir_path base_prefix ext : string).

(** The loop stops at the first free candidate from [n] on among the
    [left] it may try: it returns that candidate when a file can be
    created there and raises the [OSError] of [open] otherwise. The
    storage tree is left as it was found. *)
Lemma probe_loop_spec (left : nat) (fs : FS) (n : Z) :
  let full k := os_path_join dir_path (candidate_name base_prefix k ext) in
  (exists k, n <= k < n + Z.of_nat left
     /\ os_path_exists fs (full k) = false
     /\ (forall i, n <= i < k -> os_path_exists fs (full i) = true)
     /\ probe_loop left fs dir_path base_prefix ext n
        = (if can_create fs (full k) then Ok (candidate_name base_prefix k ext)
           else Exception "OSError", fs))
  \/ ((forall i, n <= i < n + Z.of_nat left -> os_path_exists fs (full i) = true)
      /\ probe_loop left fs dir_path base_prefix ext n
         = (HTTPException 500 "Não foi possível gerar nome único", fs)).
Proof.
  intros full. revert n. induction left as [|left IH]; intros n.
  - right. split; [lia|reflexivity].
  - cbn [probe_loop]. fold (full n).
    destruct (os_path_exists fs (full n)) eqn:Hn; cbn [negb].
    + destruct (IH (n + 1)) as [(k & Hk & Hfree & Hocc & Hr)|[Hocc Hr]].
      * left. exists k. repeat split; try lia; try done.
        intros i Hi. destruct (decide (i = n)) as [->|]; [done|].
        apply Hocc. lia.
      * right. split; [|done].
        intros i Hi. destruct (decide (i = n)) as [->|]; [done|].
        apply Hocc. lia.
    + left. exists n. destruct (can_create fs (full n)) eqn:Hcan.
      * destruct (probe_restores fs (full n) Hn Hcan) as (fs1 & -> & ->).
        repeat split; try lia; try done.
      * rewrite (open_x_refused fs (full n) Hn Hcan).
        repeat split; try lia; try done.
Qed.

End Namer.


(** ** UploadOrchestrator *)

(** What a successful [locate] has established. *)
Lemma locate_spec (cfg : Config) (env : Env) (payload : UploadIn) (fs fs1 : FS)
  (loc : Located) :
  locate cfg env payload fs = (Ok loc, fs1) ->
  nonempty (filename payload) = true
  /\ parse_data_url cfg (data_url payload) = Ok (l_mime loc, l_binary loc)
  /\ dict_get ALLOWED_MIMES (l_mime loc) = Some (l_ext loc)
  /\ resolve_identifiers (UNICODE cfg) payload
       (sanitized_filename (UNICODE cfg) payload (l_ext loc))
     = (l_registro loc, l_ponto loc)
  /\ storage_target cfg env (l_registro loc) = Ok (l_dir loc, l_prefix loc)
  /\ os_makedirs fs (l_dir loc) = Some fs1
  /\ (forall p, l_ponto loc = Some p -> 0 <= p).
Proof.
  unfold locate.
  destruct (nonempty (filename payload)); [|done].
  destruct (nonempty (data_url payload)); [|done]. cbn [negb orb].
  destruct (parse_data_url cfg (data_url payload)) as [[mime binary]| |] eqn:Hp;
    [|done..].
  destruct (dict_get ALLOWED_MIMES mime) as [ext|] eqn:Hext; [|done].
  destruct (resolve_identifiers _ payload (sanitized_filename _ payload ext))
    as [reg pon] eqn:Hid.
  destruct (storage_target cfg env reg) as [[dir prefix]| |] eqn:Ht; [|done..].
  destruct (os_makedirs fs dir) as [fs2|] eqn:Hmk; [|done].
  destruct pon as [p|].
  - destruct (Z.ltb_spec p 0); [done|]. intros [= <- <-].
    cbn [l_mime l_binary l_ext l_registro l_ponto l_dir l_prefix].
    split_and!; try done. intros ? [= <-]. lia.
  - intros [= <- <-].
    cbn [l_mime l_binary l_ext l_registro l_ponto l_dir l_prefix].
    split_and!; done.
Qed.

(** [locate] leaves the storage tree alone or creates directories. *)
Lemma locate_fs (cfg : Config) (env : Env) (payload : UploadIn) (fs fs1 : FS)
  (r : result Located) :
  locate cfg env payload fs = (r, fs1) ->
  fs1 = fs \/ exists d, os_makedirs fs d = Some fs1.
Proof.
  unfold locate.
  destruct (negb _ || negb _); [intros [= <- <-]; by left|].
  destruct (parse_data_url cfg (data_url payload)) as [[mime binary]| |];
    [|intros [= <- <-]; by left..].
  destruct (dict_get ALLOWED_MIMES mime) as [ext|]; [|intros [= <- <-]; by left].
  destruct (resolve_identifiers _ payload (sanitized_filename _ payload ext))
    as [reg pon].
  destruct (storage_target cfg env reg) as [[dir prefix]| |];
    [|intros [= <- <-]; by left..].
  destruct (os_makedirs fs dir) as [fs2|] eqn:Hmk; [|intros [= <- <-]; by left].
  destruct (match pon with Some p => p <? 0 | None => false end);
    intros [= <- <-]; right; by exists dir.
Qed.

(** [locate] creates at most directories: the regular files are as they
    were. *)
Lemma locate_files (cfg : Config) (env : Env) (payload : UploadIn) (fs fs1 : FS)
  (r : result Located) :
  locate cfg env payload fs = (r, fs1) -> files fs1 = files fs.
Proof.
  intros [->|[d Hd]]%locate_fs; [done|].
  by apply os_makedirs_spec in Hd as (Hf & _).
Qed.

Section FinalName.
Variables (fs : FS) (dir_path base_prefix ext : string).
Hypothesis dir_exists : os_path_exists fs dir_path = true.

Lemma next_sequential_name_in_dir (start : Z) :
  next_sequential_name fs dir_path base_prefix ext start
  = probe_loop (Z.to_nat max_attempts) fs dir_path base_prefix ext (Z.max 1 start).
Proof. unfold next_sequential_name. by rewrite dir_exists. Qed.

(** The namer inside an existing directory: it stops at the least free
    number from [max(1, start)] on, or fails with a 500 when 10,000
    numbers in a row are taken. *)
Lemma next_sequential_name_least (start : Z) :
  let full n := os_path_join dir_path (candidate_name base_prefix n ext) in
  (exists n, Z.max 1 start <= n < Z.max 1 start + 10000
     /\ os_path_exists fs (full n) = false
     /\ (forall k, Z.max 1 start <= k < n -> os_path_exists fs (full k) = true)
     /\ next_sequential_name fs dir_path base_prefix ext start
        = (if can_create fs (full n) then Ok (candidate_name base_prefix n ext)
           else Exception "OSError", fs))
  \/ ((forall k, Z.max 1 start <= k < Z.max 1 start + 10000 ->
         os_path_exists fs (full k) = true)
      /\ next_sequential_name fs dir_path base_prefix ext start
         = (HTTPException 500 "Não foi possível gerar nome único", fs)).
Proof.
  intros full. rewrite next_sequential_name_in_dir.
  pose proof (probe_loop_spec dir_path base_prefix ext (Z.to_nat max_attempts) fs
                (Z.max 1 start)) as H.
  replace (Z.of_nat (Z.to_nat max_attempts)) with 10000 in H by reflexivity.
  exact H.
Qed.

(** The namer leaves the storage tree as it is. *)
Lemma next_sequential_name_fs (start : Z) (r : result string) (fs1 : FS) :
  next_sequential_name fs dir_path base_prefix ext start = (r, fs1) -> fs1 = fs.
Proof.
  destruct (next_sequential_name_least start) as [(n & _ & _ & _ & ->)|[_ ->]];
    by intros [= <- <-].
Qed.

(** A name the namer returns is free, and a file can be created there. *)
Lemma next_sequential_name_ok (start : Z) (name : string) (fs1 : FS) :
  next_sequential_name fs dir_path base_prefix ext start = (Ok name, fs1) ->
  os_path_exists fs (os_path_join dir_path name) = false
  /\ can_create fs (os_path_join dir_path name) = true.
Proof.
  destruct (next_sequential_name_least start) as [(n & _ & Hfree & _ & ->)|[_ ->]];
    [|done].
  destruct (can_create fs _) eqn:Hcan; [|done]. by intros [= <- <-].
Qed.

(** Lines 240-248 choose a name whose path is free, and leave the storage
    tree as it is. *)
Lemma final_name_for_free (ponto : option Z) (name : string) (fs1 : FS) :
  final_name_for fs dir_path base_prefix ext ponto = (Ok name, fs1) ->
  fs1 = fs /\ os_path_exists fs (os_path_join dir_path name) = false.
Proof.
  unfold final_name_for. destruct ponto as [p|].
  - destruct (os_path_exists fs (os_path_join _ (candidate_name _ p _))) eqn:Hp.
    + intros Hn. split; [by apply next_sequential_name_fs in Hn|].
      by apply next_sequential_name_ok in Hn as [? _].
    + by intros [= <- <-].
  - intros Hn. split; [by apply next_sequential_name_fs in Hn|].
    by apply next_sequential_name_ok in Hn as [? _].
Qed.

Lemma final_name_for_fs (ponto : option Z) (r : result string) (fs1 : FS) :
  final_name_for fs dir_path base_prefix ext ponto = (r, fs1) -> fs1 = fs.
Proof.
  unfold final_name_for. destruct ponto as [p|].
  - destruct (os_path_exists fs (os_path_join _ _)).
    + apply next_sequential_name_fs.
    + by intros [= <- <-].
  - apply next_sequential_name_fs.
Qed.

End FinalName.

(** How [upload] ends once [locate] has succeeded, by the outcome of
    lines 240-258. *)
Lemma upload_located (cfg : Config) (env : Env) (payload : UploadIn)
  (request : Request) (fs fs1 : FS) (loc : Located) :
  locate cfg env payload fs = (Ok loc, fs1) ->
  upload cfg env payload request fs =
  match store_file (fault env) fs1 (l_dir loc) (l_prefix loc) (l_ext loc)
          (l_ponto loc) (l_binary loc) with
  | (Ok final_name, fs') =>
      (Ok (build_response cfg request (l_mime loc) (l_binary loc)
             (l_registro loc) (l_ponto loc) final_name), fs')
  | (HTTPException c d, fs') => (HTTPException c d, fs')
  | (Exception _, fs') => (HTTPException 500 "Erro interno do servidor", fs')
  end.
Proof.
  intros Hl. unfold upload, upload_try. rewrite Hl.
  by destruct (store_file _ _ _ _ _ _ _) as [[name|c d|e] fs'].
Qed.

(** The directory of a located upload exists. *)
Lemma locate_dir (cfg : Config) (env : Env) (payload : UploadIn) (fs fs1 : FS)
  (loc : Located) :
  locate cfg env payload fs = (Ok loc, fs1) ->
  os_path_exists fs1 (l_dir loc) = true.
Proof.
  intros (_ & _ & _ & _ & _ & Hmk & _)%locate_spec.
  by apply os_makedirs_spec in Hmk as (_ & _ & _ & Hdir).
Qed.

(** A successful upload went through [locate], chose a name whose path
    was free, and wrote the bytes there. *)
Lemma upload_ok_inv (cfg : Config) (env : Env) (payload : UploadIn)
  (request : Request) (fs fs' : FS) (resp : UploadOut) :
  upload cfg env payload request fs = (Ok resp, fs') ->
  exists loc fs1 name,
    locate cfg env payload fs = (Ok loc, fs1)
    /\ final_name_for fs1 (l_dir loc) (l_prefix loc) (l_ext loc) (l_ponto loc)
       = (Ok name, fs1)
    /\ os_path_exists fs1 (os_path_join (l_dir loc) name) = false
    /\ write_wb (fault env) fs1 (os_path_join (l_dir loc) name) (l_binary loc)
       = (true, fs')
    /\ resp = build_response cfg request (l_mime loc) (l_binary loc)
                (l_registro loc) (l_ponto loc) name.
Proof.
  intros Hu.
  destruct (locate cfg env payload fs) as [[loc|c d|e] fs1] eqn:Hl;
    [|unfold upload, upload_try in Hu; rewrite Hl in Hu; done..].
  rewrite (upload_located _ _ _ _ _ _ _ Hl) in Hu. unfold store_file in Hu.
  pose proof (locate_dir _ _ _ _ _ _ Hl) as Hdir.
  destruct (final_name_for fs1 _ _ _ _) as [[name|c d|e] fs2] eqn:Hn;
    [|done..].
  destruct (final_name_for_free _ _ _ _ Hdir _ _ _ Hn) as [-> Hfree].
  destruct (write_wb _ _ _ _) as [[] fs3] eqn:Hw; [|done].
  injection Hu as <- <-. by exists loc, fs1, name.
Qed.

(** The identifiers of a successful response are those of
    [resolve_identifiers] on the sanitised filename. *)
Lemma upload_reports_identifiers (cfg : Config) (env : Env) (payload : UploadIn)
  (request : Request) (fs fs' : FS) (resp : UploadOut) :
  upload cfg env payload request fs = (Ok resp, fs') ->
  exists ext,
    dict_get ALLOWED_MIMES (r_mime resp) = Some ext
    /\ resolve_identifiers (UNICODE cfg) payload
         (sanitized_filename (UNICODE cfg) payload ext)
       = (r_registro resp, r_ponto resp).
Proof.
  intros Hu.
  destruct (upload_ok_inv _ _ _ _ _ _ _ Hu) as (loc & fs1 & name & Hl & _ & _ & _ & ->).
  destruct (locate_spec _ _ _ _ _ _ Hl) as (_ & _ & Hext & Hid & _).
  exists (l_ext loc). by cbn [build_response r_mime r_registro r_ponto].
Qed.

(** The first number [next_sequential_name] would return in a directory
    that exists. *)
Lemma final_name_for_cases (fs : FS) (dir_path base_prefix ext : string)
  (ponto : option Z) (name : string) :
  os_path_exists fs dir_path = true ->
  (forall p, ponto = Some p -> 0 <= p) ->
  final_name_for fs dir_path base_prefix ext ponto = (Ok name, fs) ->
  let full n := os_path_join dir_path (candidate_name base_prefix n ext) in
  exists n, name = candidate_name base_prefix n ext
    /\ os_path_exists fs (full n) = false
    /\ match ponto with
       | Some p =>
           (os_path_exists fs (full p) = false /\ n = p)
           \/ (os_path_exists fs (full p) = true /\ p + 1 <= n < p + 10001
               /\ forall k, p + 1 <= k < n -> os_path_exists fs (full k) = true)
       | None =>
           1 <= n < 10001 /\ forall k, 1 <= k < n -> os_path_exists fs (full k) = true
       end.
Proof.
  intros Hdir Hp Hn full. unfold final_name_for in Hn.
  destruct ponto as [p|].
  - pose proof (next_sequential_name_least fs dir_path base_prefix ext Hdir (p + 1))
      as Hl.
    specialize (Hp p eq_refl). rewrite Z.max_r in Hl by lia.
    fold (full p) in Hn. destruct (os_path_exists fs (full p)) eqn:Hex.
    + destruct Hl as [(n & Hr & Hfree & Hocc & Heq)|[_ Heq]];
        rewrite Heq in Hn; [|done].
      destruct (can_create fs _); [|done].
      injection Hn as <-. exists n. split_and!; try done.
      right. split_and!; try done; lia.
    + injection Hn as <-. exists p. split_and!; try done. by left.
  - pose proof (next_sequential_name_least fs dir_path base_prefix ext Hdir 1) as Hl.
    rewrite Z.max_id in Hl.
    destruct Hl as [(n & Hr & Hfree & Hocc & Heq)|[_ Heq]];
      rewrite Heq in Hn; [|done].
    destruct (can_create fs _); [|done].
    injection Hn as <-. exists n. split_and!; try done; lia.
Qed.

(** A failed or successful store never touches a path that existed
    before line 240. *)
Lemma store_file_keeps_existing (flt : write_fault) (fs fs' : FS)
  (dir_path base_prefix ext : string) (ponto : option Z) (binary : list byte)
  (r : result string) (q : string) :
  os_path_exists fs dir_path = true ->
  store_file flt fs dir_path base_prefix ext ponto binary = (r, fs') ->
  os_path_exists fs q = true ->
  files fs' !! q = files fs !! q.
Proof.
  intros Hdir Hs Hq. unfold store_file in Hs.
  destruct (final_name_for fs _ _ _ _) as [[name|c d|e] fs1] eqn:Hn.
  - destruct (final_name_for_free _ _ _ _ Hdir _ _ _ Hn) as [-> Hfree].
    destruct (write_wb _ _ _ _) as [ok fs2] eqn:Hw.
    apply write_wb_spec in Hw as (_ & Hother & _).
    assert (files fs2 !! q = files fs !! q) as Hq'.
    { apply Hother. intros ->. by rewrite Hfree in Hq. }
    by destruct ok; injection Hs as <- <-.
  - injection Hs as <- <-. by rewrite (final_name_for_fs _ _ _ _ Hdir _ _ _ Hn).
  - injection Hs as <- <-. by rewrite (final_name_for_fs _ _ _ _ Hdir _ _ _ Hn).
Qed.

(** A store whose name is found and whose write is not disturbed. *)
Lemma store_file_ok (fs : FS) (dir_path base_prefix ext : string)
  (ponto : option Z) (binary : list byte) (name : string) :
  os_path_exists fs dir_path = true ->
  final_name_for fs dir_path base_prefix ext ponto = (Ok name, fs) ->
  can_create fs (os_path_join dir_path name) = true ->
  store_file NoFault fs dir_path base_prefix ext ponto binary
  = (Ok name,
     {| files := <[os_path_join dir_path name := binary]> (files fs);
        dirs := dirs fs |}).
Proof.
  intros Hdir Hn Hcan. unfold store_file. rewrite Hn.
  destruct (final_name_for_free _ _ _ _ Hdir _ _ _ Hn) as [_ Hfree].
  by rewrite write_wb_NoFault.
Qed.

(** A store whose name is found and whose write fails. *)
Lemma store_file_write_fails (flt : write_fault) (fs : FS)
  (dir_path base_prefix ext : string) (ponto : option Z) (binary : list byte)
  (name : string) :
  os_path_exists fs dir_path = true ->
  final_name_for fs dir_path base_prefix ext ponto = (Ok name, fs) ->
  can_create fs (os_path_join dir_path name) = false \/ flt <> NoFault ->
  (store_file flt fs dir_path base_prefix ext ponto binary).1
  = HTTPException 500 "Erro ao salvar arquivo".
Proof.
  intros Hdir Hn Hbad. unfold store_file. rewrite Hn.
  destruct (final_name_for_free _ _ _ _ Hdir _ _ _ Hn) as [_ Hfree].
  destruct (can_create fs (os_path_join dir_path name)) eqn:Hcan.
  - destruct Hbad as [?|Hflt]; [done|].
    destruct (write_wb _ _ _ _) as [[] fs2] eqn:Hw; [|done].
    apply write_wb_spec in Hw as (_ & _ & Hok & _).
    by destruct (Hok eq_refl) as [? _].
  - by rewrite write_wb_refused.
Qed.

(** Lines 240-258 when the name comes from [next_sequential_name]: the
    outcome at the least free number, and when no number is free. *)
Lemma store_file_via_namer (flt : write_fault) (fs : FS)
  (dir_path base_prefix ext : string) (ponto : option Z) (binary : list byte)
  (start : Z) :
  os_path_exists fs dir_path = true ->
  1 <= start ->
  final_name_for fs dir_path base_prefix ext ponto
  = next_sequential_name fs dir_path base_prefix ext start ->
  let name n := candidate_name base_prefix n ext in
  let full n := os_path_join dir_path (name n) in
  let stored := store_file flt fs dir_path base_prefix ext ponto binary in
  (forall n, start <= n < start + 10000 ->
     os_path_exists fs (full n) = false ->
     (forall k, start <= k < n -> os_path_exists fs (full k) = true) ->
     (can_create fs (full n) = true -> flt = NoFault ->
      stored = (Ok (name n),
                {| files := <[full n := binary]> (files fs); dirs := dirs fs |}))
     /\ (can_create fs (full n) = true -> flt <> NoFault ->
         stored.1 = HTTPException 500 "Erro ao salvar arquivo")
     /\ (can_create fs (full n) = false -> stored = (Exception "OSError", fs)))
  /\ ((forall k, start <= k < start + 10000 -> os_path_exists fs (full k) = true) ->
      stored = (HTTPException 500 "Não foi possível gerar nome único", fs)).
Proof.
  intros Hdir Hstart Hfinal name full stored. subst name full stored. cbn beta.
  pose proof (next_sequential_name_least fs dir_path base_prefix ext Hdir start) as Hl.
  rewrite Z.max_r in Hl by lia. cbn zeta in Hl.
  split.
  - intros n Hn Hfree Hocc.
    assert (next_sequential_name fs dir_path base_prefix ext start
            = (if can_create fs (os_path_join dir_path (candidate_name base_prefix n ext))
               then Ok (candidate_name base_prefix n ext)
               else Exception "OSError", fs))
      as Heq.
    { destruct Hl as [(m & Hm & Hmfree & Hmocc & ->)|[Hall _]].
      - destruct (Z.lt_trichotomy m n) as [Hlt|[->|Hgt]]; [|done|].
        + rewrite Hocc in Hmfree by lia. done.
        + rewrite Hmocc in Hfree by lia. done.
      - rewrite Hall in Hfree by lia. done. }
    rewrite <- Hfinal in Heq. split_and!.
    + intros Hcan ->. rewrite Hcan in Heq. by apply store_file_ok.
    + intros Hcan Hflt. rewrite Hcan in Heq.
      apply (store_file_write_fails _ _ _ _ _ _ _ _ Hdir Heq). by right.
    + intros Hcan. rewrite Hcan in Heq. unfold store_file. by rewrite Heq.
  - intros Hall. destruct Hl as [(m & Hm & Hmfree & _)|[_ Heq]].
    + rewrite Hall in Hmfree by lia. done.
    + rewrite <- Hfinal in Heq. unfold store_file. by rewrite Heq.
Qed.




(** C10. When the upload succeeds although the name of its ponto was
    occupied, the response still carries that ponto, while the filename
    carries a larger number. *)
Theorem upload_conflict_reports_ponto (cfg : Config) (env : Env)
  (payload : UploadIn) (request : Request) (fs fs1 fs' : FS) (loc : Located)
  (p : Z) (resp : UploadOut) :
  locate cfg env payload fs = (Ok loc, fs1) ->
  l_ponto loc = Some p ->
  os_path_exists fs1
    (os_path_join (l_dir loc) (candidate_name (l_prefix loc) p (l_ext loc))) = true ->
  upload cfg env payload request fs = (Ok resp, fs') ->
  r_ponto resp = Some p
  /\ exists n, p < n
       /\ r_filename resp = candidate_name (l_prefix loc) n (l_ext loc)
       /\ r_filename resp <> candidate_name (l_prefix loc) p (l_ext loc).
Proof.
  intros Hl Hp Hocc Hu.
  destruct (upload_ok_inv _ _ _ _ _ _ _ Hu)
    as (loc' & fs1' & name & Hl' & Hn & Hfree & _ & ->).
  rewrite Hl in Hl'. injection Hl' as <- <-.
  pose proof (locate_dir _ _ _ _ _ _ Hl) as Hdir.
  destruct (locate_spec _ _ _ _ _ _ Hl) as (_ & _ & _ & _ & _ & _ & Hpos).
  destruct (final_name_for_cases _ _ _ _ _ _ Hdir Hpos Hn) as (n & -> & _ & Hcase).
  rewrite Hp in Hcase. cbn [build_response r_ponto r_filename].
  split; [exact Hp|].
  destruct Hcase as [[Hfree' _]|(_ & Hr & _)]; [by rewrite Hocc in Hfree'|].
  exists n. split_and!; [lia|done|].
  intros Heq. rewrite Heq in Hfree. by rewrite Hocc in Hfree.
Qed.

Lemma upload_conflict_reports_ponto_witness :
  let payload :=
    {| filename := "foto.jpg"; data_url := "data:image/jpeg;base64,QUJD";
       registro := Some 5; ponto := Some 2 |} in
  let fs :=
    {| files := {["/srv/imagens/5/5-2.jpg"%string := [x58]]};
       dirs := {["/srv/imagens/5"%string]} |} in
  exists resp fs',
    upload default_config quiet_env payload plain_request fs = (Ok resp, fs')
    /\ r_filename resp = "5-3.jpg"%string
    /\ r_ponto resp = Some 2
    /\ exists n, 2 < n /\ r_filename resp = candidate_name "5" n "jpg"
         /\ r_filename resp <> candidate_name "5" 2 "jpg".
Proof.
  intros payload fs.
  destruct (upload default_config quiet_env payload plain_request fs)
    as [r fs'] eqn:Hu.
  assert (exists resp, r = Ok resp /\ r_filename resp = "5-3.jpg"%string)
    as (resp & -> & Hname).
  { apply (f_equal fst) in Hu. cbn [fst] in Hu. rewrite <- Hu.
    eexists. split; vm_compute; reflexivity. }
  exists resp, fs'. split_and!; [done|done|..];
    apply (upload_conflict_reports_ponto default_config quiet_env payload
             plain_request fs fs fs'
             {| l_mime := "image/jpeg"; l_binary := abc; l_ext := "jpg";
                l_registro := Some 5; l_ponto := Some 2;
                l_dir := "/srv/imagens/5"; l_prefix := "5" |} 2 resp);
    try exact Hu; vm_compute; reflexivity.
Defined.

(** *** Names of stored files *)

Lemma str_inj (a b : Z) : str a = str b -> a = b.
Proof.
  unfold str. intros H. apply DecimalZ.to_int_inj.
  assert (forall z, Z.to_int z <> Pos Nil /\ Z.to_int z <> Neg Nil) as Hnn.
  { intros [|q|q]; cbn; split; try discriminate;
      intros [= Hq]; by apply (DecimalPos.Unsigned.to_uint_nonnil q). }
  apply (f_equal NilZero.int_of_string) in H.
  rewrite !NilZero.isi in H by apply Hnn. by injection H.
Qed.

Lemma append_nil_inv (s t : string) : s +:+ t = t -> s = ""%string.
Proof.
  intros H. apply (f_equal String.length) in H. rewrite length_append in H.
  destruct s; [done|]. cbn in H. lia.
Qed.

Lemma append_inj_r (s1 s2 t : string) : s1 +:+ t = s2 +:+ t -> s1 = s2.
Proof.
  revert s2. induction s1 as [|a s1 IH]; intros s2 H.
  - symmetry. rewrite append_nil_l in H. by apply (append_nil_inv s2 t).
  - destruct s2 as [|b s2].
    + rewrite append_nil_l in H. by apply append_nil_inv in H.
    + rewrite !append_cons in H. injection H as -> H. by rewrite (IH _ H).
Qed.

(** The number of a candidate name can be read back from it. *)
Lemma candidate_name_inj (base_prefix ext : string) (n m : Z) :
  candidate_name base_prefix n ext = candidate_name base_prefix m ext -> n = m.
Proof.
  unfold candidate_name. intros H.
  apply (inj (String.append base_prefix)) in H.
  rewrite !append_cons, !append_nil_l in H. injection H as H.
  apply append_inj_r in H. by apply str_inj.
Qed.

Lemma storage_target_prefix (cfg : Config) (env : Env) (reg : option Z)
  (dir_path base_prefix : string) :
  storage_target cfg env reg = Ok (dir_path, base_prefix) ->
  base_prefix = from_option str (uuid_hex8 env) reg
  /\ dir_path = os_path_join (IMAGES_ROOT cfg) (from_option str "misc"%string reg)
  /\ (forall r, reg = Some r -> 0 <= r).
Proof.
  unfold storage_target. destruct reg as [r|].
  - destruct (Z.ltb_spec r 0); [done|]. intros [= <- <-].
    split_and!; try done. intros ? [= <-]. lia.
  - intros [= <- <-]. split_and!; done.
Qed.

(** C6, as amended. Every file an upload persists, whether the upload
    ends well or with a failed write, lies in the directory of its
    registro (or [misc]) under the name [{base_prefix}-{n}.{ext}], at a
    path that was free, where [base_prefix] is the registro in decimal
    (or the random hex prefix), [ext] the extension of the MIME type and
    [n] a non-negative integer: [n] is the ponto itself, possibly 0, when
    the name of the ponto was free, and otherwise the number at least 1
    that [next_sequential_name] allocated, from [ponto + 1] when the name
    of the ponto was occupied and from 1 without a ponto. A successful
    response names that file, and the upload persists no other. *)
Theorem stored_file_name (cfg : Config) (env : Env) (payload : UploadIn)
  (request : Request) (fs fs' : FS) (r : result UploadOut) :
  upload cfg env payload request fs = (r, fs') ->
  (forall q, files fs' !! q <> files fs !! q ->
     exists (loc : Located) (fs1 : FS) (n : Z),
       let name k := candidate_name (l_prefix loc) k (l_ext loc) in
       let full k := os_path_join (l_dir loc) (name k) in
       locate cfg env payload fs = (Ok loc, fs1)
       /\ q = full n
       /\ l_dir loc
          = os_path_join (IMAGES_ROOT cfg)
              (from_option str "misc"%string (l_registro loc))
       /\ l_prefix loc = from_option str (uuid_hex8 env) (l_registro loc)
       /\ dict_get ALLOWED_MIMES (l_mime loc) = Some (l_ext loc)
       /\ 0 <= n
       /\ os_path_exists fs1 q = false
       /\ files fs !! q = None
       /\ (l_ponto loc = Some n
           \/ (1 <= n
               /\ next_sequential_name fs1 (l_dir loc) (l_prefix loc) (l_ext loc)
                    (match l_ponto loc with Some p => p + 1 | None => 1 end)
                  = (Ok (name n), fs1)
               /\ forall p, l_ponto loc = Some p ->
                    p < n /\ os_path_exists fs1 (full p) = true))
       /\ (forall resp, r = Ok resp ->
             r_filename resp = name n
             /\ r_registro resp = l_registro loc
             /\ r_ponto resp = l_ponto loc
             /\ files fs' !! q = Some (l_binary loc)))
  /\ (forall resp, r = Ok resp ->
        files fs !! stored_path cfg resp = None
        /\ is_Some (files fs' !! stored_path cfg resp)).
Proof.
  intros Hu.
  destruct (locate cfg env payload fs) as [rl fs1] eqn:Hl.
  pose proof (locate_files _ _ _ _ _ _ Hl) as Hfiles.
  destruct rl as [loc|c d|e];
    [|unfold upload, upload_try in Hu; rewrite Hl in Hu; injection Hu as <- <-;
      (split; [intros q Hq; by rewrite Hfiles in Hq|done])..].
  pose proof (locate_dir _ _ _ _ _ _ Hl) as Hdir.
  destruct (locate_spec _ _ _ _ _ _ Hl) as (_ & _ & Hext & _ & Ht & _ & Hpos).
  destruct (storage_target_prefix _ _ _ _ _ Ht) as (Hpre & Hd & _).
  rewrite (upload_located _ _ _ _ _ _ _ Hl) in Hu. unfold store_file in Hu.
  destruct (final_name_for fs1 _ _ _ _) as [rn fs2] eqn:Hn.
  pose proof (final_name_for_fs _ _ _ _ Hdir _ _ _ Hn) as ->.
  destruct rn as [name|c d|e];
    [|injection Hu as <- <-; (split; [intros q Hq; by rewrite Hfiles in Hq|done])..].
  destruct (final_name_for_free _ _ _ _ Hdir _ _ _ Hn) as [_ Hfree].
  destruct (final_name_for_cases _ _ _ _ _ _ Hdir Hpos Hn) as (n & -> & _ & Hcase).
  destruct (write_wb _ _ _ _) as [ok fs3] eqn:Hw.
  apply write_wb_spec in Hw as (_ & Hother & Hdata & _).
  assert (fs' = fs3) as -> by (by destruct ok; injection Hu as _ <-).
  pose proof Hfree as [Hnone _]%os_path_exists_false. rewrite Hfiles in Hnone.
  split.
  - intros q Hq.
    assert (q = os_path_join (l_dir loc)
                  (candidate_name (l_prefix loc) n (l_ext loc))) as ->.
    { destruct (decide (q = os_path_join (l_dir loc)
                              (candidate_name (l_prefix loc) n (l_ext loc))))
        as [|Hne]; [done|].
      by rewrite (Hother q Hne), Hfiles in Hq. }
    exists loc, fs1, n. cbn zeta. split_and!; try done.
    + destruct (l_ponto loc) as [p|] eqn:Hp.
      * specialize (Hpos p eq_refl). destruct Hcase as [[_ ->]|(_ & ? & _)]; lia.
      * lia.
    + destruct (l_ponto loc) as [p|] eqn:Hp.
      * specialize (Hpos p eq_refl).
        destruct Hcase as [[_ ->]|(Hocc & Hrange & _)]; [by left|].
        right. split_and!; [lia| |].
        -- unfold final_name_for in Hn. by rewrite Hocc in Hn.
        -- intros ? [= <-]. split; [lia|done].
      * right. split_and!; [lia|done|done].
    + intros resp ->. destruct ok; [|done]. injection Hu as <-.
      cbn [build_response r_filename r_registro r_ponto].
      by destruct (Hdata eq_refl) as [_ ?].
  - intros resp ->. destruct ok; [|done]. injection Hu as <-.
    unfold stored_path. cbn [build_response r_filename r_registro].
    rewrite <- Hd. destruct (Hdata eq_refl) as [_ Hstored].
    split; [done|]. by rewrite Hstored.
Qed.

(** Filename "42-3.jpg" on an empty tree: the one file the upload
    persists is [42-3.png] in the directory of registro 42, and its
    number is the ponto read from the filename. *)
Lemma stored_file_name_witness :
  let payload :=
    {| filename := "42-3.jpg"; data_url := abc_png; registro := None; ponto := None |} in
  let outcome := upload default_config quiet_env payload plain_request empty_fs in
  let q := "/srv/imagens/42/42-3.png"%string in
  files outcome.2 !! q <> files empty_fs !! q
  /\ (exists loc fs1,
        locate default_config quiet_env payload empty_fs = (Ok loc, fs1)
        /\ q = os_path_join (l_dir loc) (candidate_name (l_prefix loc) 3 (l_ext loc))
        /\ l_ponto loc = Some 3
        /\ files outcome.2 !! q = Some (l_binary loc))
  /\ (forall q', files outcome.2 !! q' <> files empty_fs !! q' -> q' = q).
Proof.
  intros payload outcome q.
  assert (outcome.1 = Ok {| r_link := "http://127.0.0.1:8002/imagens/42/42-3.png";
                            r_mime := "image/png"; r_size := 3; r_registro := Some 42;
                            r_ponto := Some 3; r_path := "/imagens/42/42-3.png";
                            r_filename := "42-3.png" |}) as Hr
    by (vm_compute; reflexivity).
  assert (locate default_config quiet_env payload empty_fs
          = (Ok {| l_mime := "image/png"; l_binary := abc; l_ext := "png";
                   l_registro := Some 42; l_ponto := Some 3;
                   l_dir := "/srv/imagens/42"; l_prefix := "42" |},
             {| files := ∅;
                dirs := {["/srv/imagens/42"; "/srv/imagens"; "/srv"]}%string |}))
    as Hl' by (vm_compute; reflexivity).
  assert (files outcome.2 !! q <> files empty_fs !! q) as Hq
    by (vm_compute; discriminate).
  destruct (stored_file_name default_config quiet_env payload plain_request empty_fs
              outcome.2 outcome.1 (surjective_pairing _)) as [Hall _].
  assert (forall q', files outcome.2 !! q' <> files empty_fs !! q' ->
            q' = q /\ files outcome.2 !! q' = Some abc) as Hone.
  { intros q' Hq'.
    destruct (Hall q' Hq') as (loc & fs1 & n & Hl & -> & _ & _ & _ & _ & _ & _ & _ & Hok).
    destruct (Hok _ Hr) as (Hname & _ & _ & Hfile).
    rewrite Hl' in Hl. injection Hl as <- <-.
    cbn [l_dir l_prefix l_ext l_binary r_filename] in *.
    split; [|exact Hfile]. by rewrite <- Hname. }
  split; [exact Hq|]. split.
  - eexists _, _. split; [exact Hl'|].
    cbn [l_dir l_prefix l_ext l_ponto l_binary].
    split_and!; [reflexivity|reflexivity|]. by destruct (Hone q Hq).
  - intros q' Hq'. by destruct (Hone q' Hq').
Defined.

(** C6 as stated fails: ponto 0 is accepted, and with [5-0.png] free the
    file is stored under that name, whose number is not positive. *)
Lemma stored_file_name_zero_counterexample :
  let payload :=
    {| filename := "x.png"; data_url := abc_png; registro := Some 5; ponto := Some 0 |} in
  let outcome := upload default_config quiet_env payload plain_request empty_fs in
  (exists resp, outcome.1 = Ok resp /\ r_filename resp = "5-0.png"%string)
  /\ files outcome.2 !! "/srv/imagens/5/5-0.png"%string = Some abc
  /\ forall n, 1 <= n -> candidate_name "5" n "png" <> "5-0.png"%string.
Proof.
  intros payload outcome. split_and!.
  - eexists. split; vm_compute; reflexivity.
  - vm_compute. reflexivity.
  - intros n Hn Heq. change "5-0.png"%string with (candidate_name "5" 0 "png") in Heq.
    apply candidate_name_inj in Heq. lia.
Qed.

(** *** Failing uploads *)

(** X20. Once [locate] has passed and lines 240-248 have resolved a
    name, only the write can still fail: if a file can be created at the
    resolved path and the environment lets the write go through, the
    upload succeeds. *)
Lemma write_is_last_fallible_step (cfg : Config) (env : Env) (payload : UploadIn)
  (request : Request) (fs fs1 : FS) (loc : Located) (name : string) :
  locate cfg env payload fs = (Ok loc, fs1) ->
  final_name_for fs1 (l_dir loc) (l_prefix loc) (l_ext loc) (l_ponto loc)
  = (Ok name, fs1) ->
  can_create fs1 (os_path_join (l_dir loc) name) = true ->
  fault env = NoFault ->
  is_ok (upload cfg env payload request fs).1 = true.
Proof.
  intros Hl Hn Hcan Hflt.
  pose proof (locate_dir _ _ _ _ _ _ Hl) as Hdir.
  rewrite (upload_located _ _ _ _ _ _ _ Hl), Hflt.
  by rewrite (store_file_ok _ _ _ _ _ _ _ Hdir Hn Hcan).
Qed.

(** C7, as amended. A failing upload leaves every regular file of the
    storage tree as it was, unless the failure is the [OSError] that the
    write raises after the file was opened; that failure is reported as
    status 500. Nothing is written before the name is resolved. *)
Theorem failed_upload_leaves_files (cfg : Config) (env : Env) (payload : UploadIn)
  (request : Request) (fs fs' : FS) (r : result UploadOut) :
  upload cfg env payload request fs = (r, fs') ->
  is_ok r = false ->
  files fs' = files fs
  \/ exists k, fault env = WriteFails k
       /\ r = HTTPException 500 "Erro ao salvar arquivo".
Proof.
  intros Hu Hfail.
  destruct (locate cfg env payload fs) as [rl fs1] eqn:Hl.
  pose proof (locate_files _ _ _ _ _ _ Hl) as Hfiles.
  destruct rl as [loc|c d|e];
    [|unfold upload, upload_try in Hu; rewrite Hl in Hu;
      injection Hu as <- <-; by left..].
  destruct (locate_spec _ _ _ _ _ _ Hl) as (_ & _ & _ & _ & _ & Hmk & _).
  apply os_makedirs_spec in Hmk as (_ & _ & _ & Hdir).
  rewrite (upload_located _ _ _ _ _ _ _ Hl) in Hu. unfold store_file in Hu.
  destruct (final_name_for fs1 _ _ _ _) as [rn fs2] eqn:Hn.
  pose proof (final_name_for_fs _ _ _ _ Hdir _ _ _ Hn) as ->.
  destruct rn as [name|c d|e]; [|injection Hu as <- <-; by left..].
  destruct (write_wb _ _ _ _) as [ok fs3] eqn:Hw.
  apply write_wb_spec in Hw as (_ & _ & _ & Hbad).
  destruct ok; injection Hu as <- <-; [done|].
  destruct (Hbad eq_refl) as [->|[k Hk]]; [by left|].
  right. by exists k.
Qed.

Lemma failed_upload_leaves_files_witness :
  let payload :=
    {| filename := "x.png"; data_url := abc_png; registro := Some 5; ponto := Some (-1) |} in
  files (upload default_config quiet_env payload plain_request empty_fs).2
  = files empty_fs
  \/ exists k, fault quiet_env = WriteFails k
       /\ (upload default_config quiet_env payload plain_request empty_fs).1
          = HTTPException 500 "Erro ao salvar arquivo".
Proof.
  intros payload.
  apply (failed_upload_leaves_files default_config quiet_env payload plain_request
           empty_fs); [apply surjective_pairing | vm_compute; reflexivity].
Defined.

(** C7 as stated fails for a failure of the write itself: when [write]
    raises [OSError] after one of the three bytes, the upload fails with
    status 500 and the truncated file stays at the resolved path. *)
Lemma failed_write_leaves_partial_file_counterexample :
  let env := {| uuid_hex8 := "0a1b2c3d"; fault := WriteFails 1 |} in
  let payload :=
    {| filename := "x.png"; data_url := abc_png; registro := Some 5; ponto := None |} in
  let outcome := upload default_config env payload plain_request empty_fs in
  outcome.1 = HTTPException 500 "Erro ao salvar arquivo"
  /\ files empty_fs !! "/srv/imagens/5/5-1.png"%string = None
  /\ files outcome.2 !! "/srv/imagens/5/5-1.png"%string = Some [x41]
  /\ files outcome.2 <> files empty_fs.
Proof.
  intros env payload outcome. split_and!; try (vm_compute; reflexivity).
  intros H. apply (f_equal (fun m => m !! "/srv/imagens/5/5-1.png"%string)) in H.
  vm_compute in H. discriminate.
Qed.

(** ** Concurrent uploads *)

Lemma proc_run_S (fuel : nat) (j : Job) (st : pc) (fs : FS) :
  proc_run (S fuel) j st fs =
  match st with
  | Finished _ => (st, fs)
  | _ => proc_run fuel j (proc_step j st fs).1 (proc_step j st fs).2
  end.
Proof.
  cbn [proc_run]. destruct st; try reflexivity;
    by destruct (proc_step j _ fs).
Qed.

Lemma proc_run_Finished (fuel : nat) (j : Job) (r : result string) (fs : FS) :
  proc_run fuel j (Finished r) fs = (Finished r, fs).
Proof. by destruct fuel. Qed.

Lemma proc_run_write (fuel : nat) (j : Job) (name : string) (fs : FS) :
  proc_run (S fuel) j (AtWrite name) fs = finish j (Ok name, fs).
Proof.
  rewrite proc_run_S. cbn [proc_step finish].
  destruct (write_wb _ _ _ _) as [[] fs']; cbn [fst snd];
    apply proc_run_Finished.
Qed.

(** Running alone, the steps of the loop compute [probe_loop]. *)
Lemma proc_run_probe (j : Job) (left : nat) :
  forall (fuel : nat) (fs : FS) (n : Z),
    (left + 4 <= fuel)%nat ->
    proc_run fuel j (AtProbe left n) fs
    = finish j (probe_loop left fs (j_dir j) (j_prefix j) (j_ext j) n).
Proof.
  induction left as [|left IH]; intros fuel fs n Hfuel.
  - destruct fuel as [|fuel]; [lia|]. rewrite proc_run_S.
    cbn [proc_step probe_loop finish fst snd]. apply proc_run_Finished.
  - destruct fuel as [|fuel]; [lia|]. rewrite proc_run_S.
    cbn [proc_step probe_loop].
    destruct (os_path_exists fs _) eqn:Hex; cbn [negb fst snd].
    + apply IH. lia.
    + do 3 (destruct fuel as [|fuel]; [lia|]).
      destruct (can_create fs (os_path_join (j_dir j)
                                 (candidate_name (j_prefix j) n (j_ext j)))) eqn:Hcan.
      * destruct (probe_restores _ _ Hex Hcan) as (fs1 & Hopen & Hunlink).
        rewrite proc_run_S. cbn [proc_step]. rewrite Hopen. cbn [fst snd].
        rewrite proc_run_S. cbn [proc_step]. rewrite Hunlink. cbn [fst snd].
        apply proc_run_write.
      * rewrite proc_run_S. cbn [proc_step].
        rewrite (open_x_refused _ _ Hex Hcan). cbn [fst snd finish].
        apply proc_run_Finished.
Qed.

Lemma proc_run_namer (j : Job) (fuel : nat) (fs : FS) (start : Z) :
  (Z.to_nat max_attempts + 6 <= fuel)%nat ->
  proc_run fuel j (AtNamerEntry start) fs
  = finish j (next_sequential_name fs (j_dir j) (j_prefix j) (j_ext j) start).
Proof.
  intros Hfuel. unfold next_sequential_name.
  destruct fuel as [|fuel]; [lia|]. rewrite proc_run_S. cbn [proc_step].
  destruct (os_path_exists fs (j_dir j)) eqn:Hdir; cbn [negb fst snd].
  - apply proc_run_probe. lia.
  - destruct fuel as [|fuel]; [lia|]. rewrite proc_run_S. cbn [proc_step].
    destruct (os_makedirs fs (j_dir j)) as [fs1|]; cbn [fst snd finish].
    + apply proc_run_probe. lia.
    + apply proc_run_Finished.
Qed.

Lemma proc_run_final_name (j : Job) (fuel : nat) (fs : FS) :
  (Z.to_nat max_attempts + 7 <= fuel)%nat ->
  proc_run fuel j AtFinalName fs
  = finish j (final_name_for fs (j_dir j) (j_prefix j) (j_ext j) (j_ponto j)).
Proof.
  intros Hfuel. unfold final_name_for.
  destruct fuel as [|fuel]; [lia|]. rewrite proc_run_S. cbn [proc_step].
  destruct (j_ponto j) as [p|]; cbn [fst snd].
  - destruct (os_path_exists fs _); cbn [fst snd].
    + apply proc_run_namer. lia.
    + destruct fuel as [|fuel]; [lia|]. apply proc_run_write.
  - apply proc_run_namer. lia.
Qed.

(** X19. A request that runs alone, with enough steps to finish, ends
    with exactly the result and the storage tree that lines 240-258 give
    when run in one piece: the step-by-step reading of the naming and the
    write agrees with [store_file]. *)
Lemma proc_run_alone (j : Job) (fuel : nat) (fs : FS) :
  (Z.to_nat max_attempts + 7 <= fuel)%nat ->
  proc_run fuel j AtFinalName fs
  = (Finished (store_file (j_fault j) fs (j_dir j) (j_prefix j) (j_ext j)
                 (j_ponto j) (j_binary j)).1,
     (store_file (j_fault j) fs (j_dir j) (j_prefix j) (j_ext j)
        (j_ponto j) (j_binary j)).2).
Proof.
  intros Hfuel. rewrite proc_run_final_name by done. unfold store_file.
  destruct (final_name_for fs _ _ _ _) as [[name|c d|e] fs0]; cbn [finish];
    [|done..].
  by destruct (write_wb _ _ _ _) as [[] ?].
Qed.

(** One after the other, the two requests get different numbers. *)
Example sequential_uploads_differ :
  let s := run_schedule job_a job_b
             [First; First; First; First; First; First;
              Second; Second; Second; Second; Second; Second; Second]
             {| first := AtFinalName; second := AtFinalName; disk := dir5_fs |} in
  first s = Finished (Ok "5-1.png"%string)
  /\ second s = Finished (Ok "5-2.png"%string)
  /\ files (disk s) !! "/srv/imagens/5/5-1.png"%string = Some [x41]
  /\ files (disk s) !! "/srv/imagens/5/5-2.png"%string = Some [x42].
Proof. vm_compute. done. Qed.

(** C1, evaluated where it fails. Two uploads for registro 5 without a
    ponto share the empty directory; each probes [5-1.png] and removes
    its probe before the other looks, so both allocate number 1, both
    writes succeed, and the bytes of the first upload are overwritten by
    the second. *)
Theorem concurrent_uploads_share_name :
  let s := run_schedule job_a job_b racy_schedule
             {| first := AtFinalName; second := AtFinalName; disk := dir5_fs |} in
  first s = Finished (Ok (candidate_name "5" 1 "png"))
  /\ second s = Finished (Ok (candidate_name "5" 1 "png"))
  /\ files (disk s) !! "/srv/imagens/5/5-1.png"%string = Some (j_binary job_b)
  /\ size (files (disk s)) = 1%nat.
Proof. vm_compute. done. Qed.

(** [job_a] and [job_b] are the uploads of one byte each for registro 5,
    located on an empty storage tree. *)
Example job_a_located :
  let payload :=
    {| filename := "a.png"; data_url := "data:image/png;base64,QQ==";
       registro := Some 5; ponto := None |} in
  exists loc,
    locate default_config quiet_env payload empty_fs = (Ok loc, dir5_fs)
    /\ job_of quiet_env loc = job_a.
Proof. eexists. split; vm_compute; reflexivity. Qed.

Example job_b_located :
  let payload :=
    {| filename := "b.png"; data_url := "data:image/png;base64,Qg==";
       registro := Some 5; ponto := None |} in
  exists loc,
    locate default_config quiet_env payload dir5_fs = (Ok loc, dir5_fs)
    /\ job_of quiet_env loc = job_b.
Proof. eexists. split; vm_compute; reflexivity. Qed.

(** * Further properties *)

(** ** PayloadCodec *)

Lemma at_dollar_cases (tail : string) :
  at_dollar tail = true ->
  tail = ""%string \/ tail = String newline "".
Proof.
  destruct tail as [|c [|c' t]]; cbn; try done; [by left|].
  intros ->%Ascii.eqb_eq. by right.
Qed.

Lemma span_until_dollar (s tail : string) :
  str_forallb (fun c => negb (Ascii.eqb c newline)) s = true ->
  at_dollar tail = true ->
  span (fun c => negb (Ascii.eqb c newline)) (s +:+ tail) = (s, tail).
Proof.
  intros Hs [->| ->]%at_dollar_cases; by apply span_stop.
Qed.

(** What [span] leaves behind does not start inside the class. *)
Lemma span_rest (p : ascii -> bool) (s a b : string) :
  span p s = (a, b) ->
  match b with EmptyString => true | String c _ => negb (p c) end = true.
Proof.
  revert a b. induction s as [|c s IH]; intros a b; simpl.
  - by intros [= <- <-].
  - destruct (p c) eqn:Hc.
    + destruct (span p s) as [a' b'] eqn:Hsp. intros [= <- <-]. by eapply IH.
    + intros [= <- <-]. by rewrite Hc.
Qed.

(** X1. [DATA_URL_RE] matches exactly the strings
    [data:<mime>;base64,<b64>], optionally followed by one final newline,
    where [<mime>] is a non-empty run of word characters, [-], [.], [+]
    and [/], and [<b64>] is non-empty and free of newlines; the groups
    are [<mime>] and [<b64>]. *)
Theorem DATA_URL_RE_match_iff (s m b64 : string) :
  DATA_URL_RE_match s = Some (m, b64) <->
  exists tail,
    s = "data:" +:+ m +:+ ";base64," +:+ b64 +:+ tail
    /\ at_dollar tail = true
    /\ nonempty m = true /\ str_forallb is_mime_char m = true
    /\ nonempty b64 = true
    /\ str_forallb (fun c => negb (Ascii.eqb c newline)) b64 = true.
Proof.
  split.
  - unfold DATA_URL_RE_match.
    destruct (strip_prefix "data:" s) as [r|] eqn:H1; [|done].
    destruct (span is_mime_char r) as [m' r1] eqn:H2.
    destruct (nonempty m') eqn:Hm; [|done].
    destruct (strip_prefix ";base64," r1) as [r2|] eqn:H3; [|done].
    destruct (span _ r2) as [b' r3] eqn:H4.
    destruct (nonempty b') eqn:Hb; [|done].
    destruct (at_dollar r3) eqn:Hd; [|done].
    intros [= <- <-]. exists r3.
    apply strip_prefix_spec in H1 as ->. apply span_spec in H2 as [-> Hmc].
    apply strip_prefix_spec in H3 as ->. apply span_spec in H4 as [-> Hbc].
    done.
  - intros (tail & -> & Hd & Hm & Hmc & Hb & Hbc). unfold DATA_URL_RE_match.
    rewrite strip_prefix_append.
    rewrite (span_stop is_mime_char m (";base64," +:+ b64 +:+ tail) Hmc eq_refl).
    rewrite Hm, strip_prefix_append, (span_until_dollar b64 tail Hbc Hd), Hb, Hd.
    reflexivity.
Qed.

(** *** What [parse_data_url] accepts and how it fails *)

Lemma parse_data_url_ok_inv (cfg : Config) (u mime : string) (binary : list byte) :
  parse_data_url cfg u = Ok (mime, binary) ->
  len u <= 50 * 1024 * 1024
  /\ (exists m b64, DATA_URL_RE_match u = Some (m, b64) /\ mime = lower m
        /\ Base64.b64decode b64 = Some binary)
  /\ is_Some (dict_get ALLOWED_MIMES mime)
  /\ blen binary <= MAX_SIZE_MB cfg * 1024 * 1024.
Proof.
  unfold parse_data_url.
  destruct (Z.gtb_spec (len u) (50 * 1024 * 1024)) as [|Hlen]; [done|].
  destruct (DATA_URL_RE_match u) as [[m b64]|]; [|done].
  destruct (dict_get ALLOWED_MIMES (lower m)) as [ext|] eqn:Hext; [|done].
  destruct (Base64.b64decode b64) as [bin|] eqn:Hdec; [|done].
  destruct (Z.gtb_spec (blen bin) (MAX_SIZE_MB cfg * 1024 * 1024)) as [|Hsz];
    [done|].
  intros [= <- <-]. split_and!; try done. by exists m, b64.
Qed.

(** X2. A data URL that [parse_data_url] accepts is at most 50 MiB
    characters long and matches the pattern; the MIME type returned is
    the lower-cased group and one of the three allow-listed types, and
    the bytes returned are the strict base64 decoding of the payload
    group and within the configured limit. *)
Theorem parse_data_url_accepts (cfg : Config) (u mime : string) (binary : list byte) :
  parse_data_url cfg u = Ok (mime, binary) ->
  len u <= 50 * 1024 * 1024
  /\ (exists m b64, DATA_URL_RE_match u = Some (m, b64) /\ mime = lower m
        /\ Base64.b64decode b64 = Some binary)
  /\ (mime = "image/jpeg" \/ mime = "image/png" \/ mime = "image/webp")%string
  /\ blen binary <= MAX_SIZE_MB cfg * 1024 * 1024.
Proof.
  intros (Hlen & Hm & [ext Hext] & Hsz)%parse_data_url_ok_inv.
  split_and!; try done.
  destruct (dict_get_ALLOWED_MIMES _ _ Hext) as [[-> _]|[[-> _]|[-> _]]]; tauto.
Qed.

Lemma parse_data_url_accepts_witness :
  len abc_png <= 50 * 1024 * 1024
  /\ (exists m b64, DATA_URL_RE_match abc_png = Some (m, b64)
        /\ "image/png"%string = lower m /\ Base64.b64decode b64 = Some abc)
  /\ ("image/png" = "image/jpeg" \/ "image/png" = "image/png"
      \/ "image/png" = "image/webp")%string
  /\ blen abc <= MAX_SIZE_MB default_config * 1024 * 1024.
Proof.
  apply (parse_data_url_accepts default_config abc_png "image/png" abc).
  reflexivity.
Defined.

(** A failure of [parse_data_url] is an [HTTPException] with status 400
    or 413. *)
Lemma parse_data_url_status (cfg : Config) (u : string) :
  match parse_data_url cfg u with
  | Ok _ => True
  | HTTPException c _ => c = 400 \/ c = 413
  | Exception _ => False
  end.
Proof.
  unfold parse_data_url.
  destruct (len u >? 50 * 1024 * 1024); [by left|].
  destruct (DATA_URL_RE_match u) as [[m b64]|]; [|by left].
  destruct (dict_get ALLOWED_MIMES (lower m)); [|by left].
  destruct (Base64.b64decode b64); [|by left].
  destruct (_ >? _); [by right|done].
Qed.

(** X3. [parse_data_url] raises nothing but [HTTPException]: status 413
    exactly when the text is within 50 MiB, well formed, of an
    allow-listed type and decodes to more bytes than the configured
    maximum, and status 400 for every other refusal. *)
Theorem parse_data_url_failure (cfg : Config) (u : string) :
  match parse_data_url cfg u with
  | Ok _ => True
  | HTTPException c _ =>
      (c = 413 /\ len u <= 50 * 1024 * 1024
       /\ exists mime binary,
           decoded_payload u = Some (mime, binary)
           /\ is_Some (dict_get ALLOWED_MIMES mime)
           /\ blen binary > MAX_SIZE_MB cfg * 1024 * 1024)
      \/ (c = 400
          /\ (len u > 50 * 1024 * 1024
              \/ match decoded_payload u with
                 | None => True
                 | Some (mime, _) => dict_get ALLOWED_MIMES mime = None
                 end))
  | Exception _ => False
  end.
Proof.
  unfold parse_data_url, decoded_payload.
  destruct (Z.gtb_spec (len u) (50 * 1024 * 1024)) as [Hlen|Hlen].
  { right. split; [done|]. left. lia. }
  destruct (DATA_URL_RE_match u) as [[m b64]|]; [|right; by eauto].
  destruct (dict_get ALLOWED_MIMES (lower m)) as [ext|] eqn:Hext.
  - destruct (Base64.b64decode b64) as [bin|]; [|right; by eauto].
    destruct (Z.gtb_spec (blen bin) (MAX_SIZE_MB cfg * 1024 * 1024)); [|done].
    left. split_and!; try done. exists (lower m), bin.
    rewrite Hext. split_and!; try done. lia.
  - right. split; [done|]. right. by destruct (Base64.b64decode b64).
Qed.

(** *** The 50 MiB cap on the text bounds the bytes *)

Lemma decode_quad_length (full : bool) (c1 c2 c3 c4 : ascii) (q : list byte) :
  Base64.decode_quad full c1 c2 c3 c4 = Some q -> blen q <= 3.
Proof.
  unfold Base64.decode_quad.
  destruct (Base64.index_of c1), (Base64.index_of c2); try done.
  destruct (Base64.index_of c3), (Base64.index_of c4);
    repeat match goal with
           | |- context [if ?b then _ else _] => destruct b
           end; try done; intros [= <-]; vm_compute; discriminate.
Qed.

(** Induction on text four characters at a time. *)
Lemma quads_ind (P : string -> Prop) :
  P EmptyString ->
  (forall c1, P (String c1 EmptyString)) ->
  (forall c1 c2, P (String c1 (String c2 EmptyString))) ->
  (forall c1 c2 c3, P (String c1 (String c2 (String c3 EmptyString)))) ->
  (forall c1 c2 c3 c4 rest,
      P rest -> P (String c1 (String c2 (String c3 (String c4 rest))))) ->
  forall s, P s.
Proof.
  intros H0 H1 H2 H3 H4.
  fix IH 1. intros [|c1 [|c2 [|c3 [|c4 rest]]]].
  - exact H0.
  - exact (H1 c1).
  - exact (H2 c1 c2).
  - exact (H3 c1 c2 c3).
  - exact (H4 c1 c2 c3 c4 rest (IH rest)).
Qed.

(** Decoded bytes are at most three quarters of the text. *)
Lemma b64decode_length (s : string) :
  forall data, Base64.b64decode s = Some data -> 4 * blen data <= 3 * len s.
Proof.
  induction s as [|c1|c1 c2|c1 c2 c3|c1 c2 c3 c4 rest IH] using quads_ind;
    intros data; try done.
  - by intros [= <-].
  - cbn [Base64.b64decode]. fold Base64.b64decode. rewrite !len_cons.
    destruct rest as [|r rest'].
    + intros Hq%decode_quad_length. change (len "") with 0. lia.
    + destruct (Base64.decode_quad true c1 c2 c3 c4) as [q|] eqn:Hq; [|done].
      apply decode_quad_length in Hq.
      destruct (Base64.all_pad (String r rest')).
      * intros [= <-]. pose proof (len_nonneg (String r rest')). lia.
      * destruct (Base64.b64decode (String r rest')) as [d|]; [|done].
        intros [= <-]. rewrite blen_app. specialize (IH d eq_refl). lia.
Qed.

(** X4. Whatever [MAX_SIZE_MB] is set to, no payload of 37.5 MiB
    (39,321,600 bytes) or more is ever accepted: the limit of 50 MiB on
    the length of the data URL is checked first, and base64 text carries
    three bytes in four characters. *)
Theorem accepted_payload_below_cap (cfg : Config) (u mime : string)
  (binary : list byte) :
  parse_data_url cfg u = Ok (mime, binary) ->
  blen binary < 39321600.
Proof.
  intros (Hlen & (m & b64 & Hm & -> & Hdec) & _ & _)%parse_data_url_ok_inv.
  apply DATA_URL_RE_match_spec in Hm as (tail & -> & _ & _ & _ & _).
  apply b64decode_length in Hdec.
  rewrite !len_append in Hlen. change (len "data:") with 5 in Hlen.
  change (len ";base64,") with 8 in Hlen.
  pose proof (len_nonneg m). pose proof (len_nonneg tail). lia.
Qed.

Lemma accepted_payload_below_cap_witness : blen abc < 39321600.
Proof.
  apply (accepted_payload_below_cap default_config abc_png "image/png" abc).
  reflexivity.
Defined.

(** ** FilenameResolver *)

Lemma ustr_of_string_app (a b : string) :
  ustr_of_string (a +:+ b) = ustr_of_string a ++ ustr_of_string b.
Proof.
  induction a as [|c a IH]; [done|]. rewrite append_cons.
  cbn [ustr_of_string app]. by rewrite IH.
Qed.

Lemma forallb_ustr_of_string (p : N -> bool) (s : string) :
  forallb p (ustr_of_string s) = str_forallb (fun c => p (N_of_ascii c)) s.
Proof.
  induction s as [|c s IH]; [done|]. cbn [ustr_of_string forallb str_forallb].
  by rewrite IH.
Qed.

Lemma nonempty_ustr_of_string (s : string) :
  nonempty (ustr_of_string s) = nonempty s.
Proof. by destruct s. Qed.

(** A greedy class stops at the first character outside it. *)
Lemma u_span_stop (p : N -> bool) (s t : ustr) :
  forallb p s = true ->
  match t with [] => true | c :: _ => negb (p c) end = true ->
  u_span p (s ++ t) = (s, t).
Proof.
  intros Hs Ht. induction s as [|a s IH].
  - destruct t as [|c t]; [reflexivity|].
    cbn [app u_span]. apply negb_true_iff in Ht. by rewrite Ht.
  - cbn [app u_span forallb] in *. apply andb_true_iff in Hs as [Ha Hs].
    by rewrite Ha, (IH Hs).
Qed.

Lemma u_span_spec (p : N -> bool) (s a b : ustr) :
  u_span p s = (a, b) -> s = a ++ b /\ forallb p a = true.
Proof.
  revert a b. induction s as [|c s IH]; intros a b; cbn [u_span].
  - by intros [= <- <-].
  - destruct (p c) eqn:Hc.
    + destruct (u_span p s) as [a' b'] eqn:Hsp. intros [= <- <-].
      destruct (IH a' b' eq_refl) as [-> Ha]. cbn [app forallb].
      by rewrite Hc, Ha.
    + by intros [= <- <-].
Qed.

Lemma u_strip_prefix_app (pre s : ustr) : u_strip_prefix pre (pre ++ s) = Some s.
Proof.
  induction pre as [|a pre IH]; [by destruct s|].
  cbn [app u_strip_prefix]. by rewrite N.eqb_refl.
Qed.

Lemma u_strip_prefix_spec (pre s r : ustr) :
  u_strip_prefix pre s = Some r -> s = pre ++ r.
Proof.
  revert s. induction pre as [|a pre IH]; intros s; cbn [u_strip_prefix].
  - by intros [= ->].
  - destruct s as [|b s]; [done|]. destruct (N.eqb_spec a b) as [->|]; [|done].
    intros H%IH. by rewrite H.
Qed.

Lemma u_at_dollar_cases (tail : ustr) :
  u_at_dollar tail = true -> tail = [] \/ tail = [10%N].
Proof.
  destruct tail as [|c [|c' t]]; cbn [u_at_dollar]; try done; [by left|].
  intros ->%N.eqb_eq. by right.
Qed.

Lemma u_span_until_dollar (s tail : ustr) :
  forallb (fun c => negb (c =? 10)%N) s = true ->
  u_at_dollar tail = true ->
  u_span (fun c => negb (c =? 10)%N) (s ++ tail) = (s, tail).
Proof.
  intros Hs [->| ->]%u_at_dollar_cases; by apply u_span_stop.
Qed.

(** Lower-casing neither makes nor removes a newline. *)
Lemma latin1_lower_newline (c : N) : (latin1_lower c =? 10)%N = (c =? 10)%N.
Proof.
  unfold latin1_lower, in_range.
  destruct (N.eqb_spec c 10) as [->|Hne]; [reflexivity|].
  destruct (_ || _) eqn:Hup; [|by apply N.eqb_neq].
  apply N.eqb_neq. intros Heq.
  assert (c < 10)%N by lia.
  repeat (apply orb_true_iff in Hup as [Hup|Hup]);
    apply andb_true_iff in Hup as [Hlo%N.leb_le _]; lia.
Qed.

Lemma ext_matches_no_newline (e : ustr) :
  ext_matches e = true -> forallb (fun c => negb (c =? 10)%N) e = true.
Proof.
  unfold ext_matches. intros He%bool_decide_eq_true.
  assert (forallb (fun c => negb (c =? 10)%N) (List.map latin1_lower e) = true) as H.
  { unfold FILENAME_EXTS in He. cbn [List.map] in He.
    repeat (apply elem_of_cons in He as [->|He]; [reflexivity|]).
    by apply elem_of_nil in He. }
  clear He. induction e as [|c e IH]; [done|].
  cbn [List.map forallb] in *. apply andb_true_iff in H as [Hc He].
  by rewrite latin1_lower_newline in Hc; rewrite Hc, (IH He).
Qed.

(** What a match of [FILENAME_RE] says about the filename: digits, a
    hyphen, digits, a dot and one of the four extensions in any case. *)
Lemma FILENAME_RE_match_spec (U : Unicode) (s g_registro g_ponto g_ext : ustr) :
  FILENAME_RE_match U s = Some (g_registro, g_ponto, g_ext) ->
  exists tail,
    s = g_registro ++ "-" ++ g_ponto ++ "." ++ g_ext ++ tail
    /\ u_at_dollar tail = true
    /\ nonempty g_registro = true /\ forallb (is_digit_cp U) g_registro = true
    /\ nonempty g_ponto = true /\ forallb (is_digit_cp U) g_ponto = true
    /\ ext_matches g_ext = true.
Proof.
  unfold FILENAME_RE_match.
  destruct (u_span (is_digit_cp U) s) as [r r1] eqn:H1.
  destruct (nonempty r) eqn:Hr; [|done].
  destruct (u_strip_prefix "-" r1) as [r2|] eqn:H2; [|done].
  destruct (u_span (is_digit_cp U) r2) as [p r3] eqn:H3.
  destruct (nonempty p) eqn:Hp; [|done].
  destruct (u_strip_prefix "." r3) as [r4|] eqn:H4; [|done].
  destruct (u_span _ r4) as [e r5] eqn:H5.
  destruct (ext_matches e) eqn:He; [|done].
  destruct (u_at_dollar r5) eqn:Hd; [|done].
  intros [= <- <- <-]. exists r5.
  apply u_span_spec in H1 as [-> Hrd]. apply u_strip_prefix_spec in H2 as ->.
  apply u_span_spec in H3 as [-> Hpd]. apply u_strip_prefix_spec in H4 as ->.
  apply u_span_spec in H5 as [-> _].
  done.
Qed.

(** A name of the right shape matches, with its parts as groups. *)
Lemma FILENAME_RE_match_build (U : Unicode) (s g_registro g_ponto g_ext : ustr) :
  (exists tail,
      s = g_registro ++ "-" ++ g_ponto ++ "." ++ g_ext ++ tail
      /\ u_at_dollar tail = true
      /\ nonempty g_registro = true /\ forallb (is_digit_cp U) g_registro = true
      /\ nonempty g_ponto = true /\ forallb (is_digit_cp U) g_ponto = true
      /\ ext_matches g_ext = true) ->
  FILENAME_RE_match U s = Some (g_registro, g_ponto, g_ext).
Proof.
  intros (tail & -> & Hd & Hr & Hrd & Hp & Hpd & He).
  unfold FILENAME_RE_match.
  rewrite (u_span_stop (is_digit_cp U) g_registro
             ("-" ++ g_ponto ++ "." ++ g_ext ++ tail) Hrd eq_refl), Hr.
  rewrite u_strip_prefix_app.
  rewrite (u_span_stop (is_digit_cp U) g_ponto ("." ++ g_ext ++ tail) Hpd eq_refl), Hp.
  rewrite u_strip_prefix_app.
  rewrite (u_span_until_dollar g_ext tail (ext_matches_no_newline _ He) Hd).
  by rewrite He, Hd.
Qed.

(** X5. [FILENAME_RE] matches exactly the names
    [<digits>-<digits>.<ext>], optionally followed by one final newline,
    where both digit groups are non-empty runs of decimal digits (of any
    script) and [<ext>] is jpg, jpeg, png or webp in any letter case;
    the groups are the two digit strings and the extension as
    written. *)
Theorem FILENAME_RE_match_iff (U : Unicode) (s g_registro g_ponto g_ext : ustr) :
  FILENAME_RE_match U s = Some (g_registro, g_ponto, g_ext) <->
  exists tail,
    s = g_registro ++ "-" ++ g_ponto ++ "." ++ g_ext ++ tail
    /\ u_at_dollar tail = true
    /\ nonempty g_registro = true /\ forallb (is_digit_cp U) g_registro = true
    /\ nonempty g_ponto = true /\ forallb (is_digit_cp U) g_ponto = true
    /\ ext_matches g_ext = true.
Proof.
  split.
  - intros Hm. destruct (FILENAME_RE_match_spec _ _ _ _ _ Hm) as (tail & Htail).
    by exists tail.
  - intros Hshape. by apply FILENAME_RE_match_build.
Qed.

(** *** Decimal numbers in names *)

Lemma string_of_uint_digits (d : uint) :
  str_forallb is_digit (NilEmpty.string_of_uint d) = true.
Proof. induction d; cbn [NilEmpty.string_of_uint str_forallb]; by rewrite ?IHd. Qed.

Lemma str_nonneg_uint (n : Z) :
  0 <= n ->
  exists d, d <> Nil /\ str n = NilEmpty.string_of_uint d /\ Z.of_uint d = n.
Proof.
  intros Hn. destruct n as [|p|p]; [| |lia].
  - by exists (D0 Nil).
  - exists (Pos.to_uint p).
    pose proof (DecimalPos.Unsigned.to_uint_nonnil p) as Hnil.
    split_and!; [done| |].
    + unfold str. cbn [Z.to_int NilZero.string_of_int].
      unfold NilZero.string_of_uint. by destruct (Pos.to_uint p).
    + unfold Z.of_uint. by rewrite DecimalPos.Unsigned.of_to.
Qed.

(** [str] of a non-negative number is a non-empty string of digits. *)
Lemma str_digits (n : Z) :
  0 <= n -> nonempty (str n) = true /\ str_forallb is_digit (str n) = true.
Proof.
  intros (d & Hd & -> & _)%str_nonneg_uint. split.
  - by destruct d.
  - apply string_of_uint_digits.
Qed.

Ltac eval_digits U :=
  repeat match goal with
         | |- context [Z.of_N (default 0%N (digit_of U (N_of_ascii ?c)))] =>
             let v := eval vm_compute in (Z.of_N (default 0%N (digit_of U (N_of_ascii c)))) in
             change (Z.of_N (default 0%N (digit_of U (N_of_ascii c)))) with v
         end.

Lemma int_acc_uint_pos (U : Unicode) (d : uint) (acc : positive) :
  int_acc U (Z.pos acc) (ustr_of_string (NilEmpty.string_of_uint d))
  = Z.pos (Pos.of_uint_acc d acc).
Proof.
  revert acc. induction d; intros acc;
    cbn [NilEmpty.string_of_uint ustr_of_string int_acc Pos.of_uint_acc]; [done|..];
    rewrite <- IHd; f_equal; eval_digits U; lia.
Qed.

Lemma int_uint (U : Unicode) (d : uint) :
  int U (ustr_of_string (NilEmpty.string_of_uint d)) = Z.of_uint d.
Proof.
  unfold int, Z.of_uint.
  induction d; cbn [NilEmpty.string_of_uint ustr_of_string int_acc Pos.of_uint];
    [done|..]; eval_digits U; cbn [Z.mul Z.add];
    [apply IHd|apply int_acc_uint_pos..].
Qed.

(** [int] reads back what [str] writes. *)
Lemma int_str (U : Unicode) (n : Z) : 0 <= n -> int U (ustr_of_string (str n)) = n.
Proof.
  intros (d & _ & -> & <-)%str_nonneg_uint. apply int_uint.
Qed.

(** The value of a digit string is not negative. *)
Lemma int_acc_nonneg (U : Unicode) (s : ustr) :
  forall acc, 0 <= acc -> 0 <= int_acc U acc s.
Proof.
  induction s as [|c s IH]; intros acc Hacc; [done|].
  cbn [int_acc]. apply IH. lia.
Qed.

Lemma int_nonneg (U : Unicode) (s : ustr) : 0 <= int U s.
Proof. by apply int_acc_nonneg. Qed.

(** *** Sanitised filenames *)

Lemma str_forallb_impl (p q : ascii -> bool) (s : string) :
  (forall c, p c = true -> q c = true) ->
  str_forallb p s = true -> str_forallb q s = true.
Proof.
  intros Hpq. induction s as [|c s IH]; [done|]. cbn [str_forallb].
  intros [Hc Hs]%andb_true_iff. by rewrite (Hpq c Hc), (IH Hs).
Qed.

Lemma prefix_slash (s : string) :
  String.prefix "/" s = match s with
                        | String c _ => Ascii.eqb c "/"
                        | EmptyString => false
                        end.
Proof.
  destruct s as [|c s]; [done|]. cbn [String.prefix].
  destruct (ascii_dec "/" c) as [<-|Hne].
  - by destruct s.
  - symmetry. apply Ascii.eqb_neq. congruence.
Qed.

(** No character of the class, no separator. *)
Lemma no_slash (p : ascii -> bool) (s : string) :
  p "/"%char = false -> str_forallb p s = true -> str_in "/" s = false.
Proof.
  intros Hp. induction s as [|c s IH]; [done|]. cbn [str_forallb str_in].
  intros [Hc Hs]%andb_true_iff. rewrite prefix_slash, (IH Hs), orb_false_r.
  apply Ascii.eqb_neq. intros ->. congruence.
Qed.


Lemma filter_forallb_id (p : N -> bool) (s : ustr) :
  forallb p s = true -> List.filter p s = s.
Proof.
  induction s as [|c s IH]; [done|]. cbn [forallb List.filter].
  intros [Hc Hs]%andb_true_iff. by rewrite Hc, (IH Hs).
Qed.

Lemma forallb_weaken (p q : N -> bool) (s : ustr) :
  (forall c, p c = true -> q c = true) ->
  forallb p s = true -> forallb q s = true.
Proof.
  intros Hpq. induction s as [|c s IH]; [done|]. cbn [forallb].
  intros [Hc Hs]%andb_true_iff. by rewrite (Hpq c Hc), (IH Hs).
Qed.


Lemma os_path_basename_id (p : ustr) : 47%N ∉ p -> os_path_basename p = p.
Proof.
  destruct p as [|c p]; [done|]. cbn [os_path_basename].
  intros H. by rewrite bool_decide_eq_false_2.
Qed.

(** X6. [os.path.basename] returns a suffix of its argument that
    contains no [/]; an argument without [/] is returned as it is. *)
Theorem os_path_basename_spec (p : ustr) :
  (47%N ∉ os_path_basename p)
  /\ (exists parent, p = parent ++ os_path_basename p)
  /\ (47%N ∉ p -> os_path_basename p = p).
Proof.
  induction p as [|c p (IH1 & (parent & IH2) & IH3)].
  { split_and!; [apply not_elem_of_nil|by exists []|done]. }
  cbn [os_path_basename].
  destruct (bool_decide (47%N ∈ c :: p)) eqn:Hin.
  - split_and!; [done| |].
    + exists (c :: parent). cbn [app]. by rewrite <- IH2.
    + intros Hno. by apply bool_decide_eq_true in Hin.
  - apply bool_decide_eq_false in Hin. split_and!; [done| |done]. by exists [].
Qed.



(** *** Names the service generates *)

Lemma candidate_name_forallb (q : ascii -> bool) (base_prefix ext : string) (n : Z) :
  0 <= n ->
  (forall c, is_digit c = true -> q c = true) ->
  q "-"%char = true -> q "."%char = true ->
  str_forallb q base_prefix = true -> str_forallb q ext = true ->
  str_forallb q (candidate_name base_prefix n ext) = true.
Proof.
  intros Hn Hdig Hh Hd Hp He. unfold candidate_name.
  destruct (str_digits n Hn) as [_ Hnd].
  rewrite !str_forallb_append, Hp, He.
  rewrite (str_forallb_impl is_digit q (str n) Hdig Hnd).
  cbn [str_forallb]. by rewrite Hh, Hd.
Qed.

(** On a [string] the functions on code points act as their
    counterparts on characters. *)
Lemma lower_char_cp (c : ascii) : N_of_ascii (lower_char c) = latin1_lower (N_of_ascii c).
Proof. destruct c as [[] [] [] [] [] [] [] []]; vm_compute; reflexivity. Qed.

Lemma ascii_below_256 (c : ascii) : (N_of_ascii c <? 256)%N = true.
Proof. destruct c as [[] [] [] [] [] [] [] []]; vm_compute; reflexivity. Qed.

Lemma u_lower_string (U : Unicode) (s : string) :
  u_lower U (ustr_of_string s) = ustr_of_string (lower s).
Proof.
  unfold u_lower. rewrite forallb_ustr_of_string.
  rewrite (str_forallb_impl (fun _ => true) _ s (fun c _ => ascii_below_256 c))
    by (by induction s).
  induction s as [|c s IH]; [done|]. cbn [ustr_of_string lower List.map].
  by rewrite lower_char_cp, IH.
Qed.

Lemma plain_char_cp (U : Unicode) (c : ascii) :
  is_plain_char c = true ->
  is_safe_cp U (N_of_ascii c) = true /\ N_of_ascii c <> 47%N
  /\ (is_upper c = false -> lower_char c = c).
Proof. destruct c as [[] [] [] [] [] [] [] []]; vm_compute; intuition congruence. Qed.

Lemma digit_char_cp (U : Unicode) (c : ascii) :
  is_digit c = true ->
  is_digit_cp U (N_of_ascii c) = true /\ is_plain_char c = true /\ is_upper c = false.
Proof. destruct c as [[] [] [] [] [] [] [] []]; vm_compute; intuition congruence. Qed.

Lemma plain_string_safe (U : Unicode) (s : string) :
  str_forallb is_plain_char s = true ->
  forallb (is_safe_cp U) (ustr_of_string s) = true /\ (47%N ∉ ustr_of_string s).
Proof.
  induction s as [|c s IH]; [split; [done|apply not_elem_of_nil]|].
  cbn [str_forallb ustr_of_string forallb]. intros [Hc Hs]%andb_true_iff.
  destruct (plain_char_cp U c Hc) as (Hsafe & Hsep & _).
  destruct (IH Hs) as [IH1 IH2]. rewrite Hsafe, IH1. split; [done|].
  by intros [?|?]%elem_of_cons.
Qed.

Lemma plain_string_lower (s : string) :
  str_forallb (fun c => is_plain_char c && negb (is_upper c)) s = true -> lower s = s.
Proof.
  induction s as [|c s IH]; [done|]. cbn [str_forallb lower].
  intros [[Hc Hup%negb_true_iff]%andb_true_iff Hs]%andb_true_iff.
  destruct (plain_char_cp latin1_only c Hc) as (_ & _ & Hlow).
  by rewrite (Hlow Hup), (IH Hs).
Qed.

Lemma digit_string_cp (U : Unicode) (s : string) :
  str_forallb is_digit s = true -> forallb (is_digit_cp U) (ustr_of_string s) = true.
Proof.
  induction s as [|c s IH]; [done|]. cbn [str_forallb ustr_of_string forallb].
  intros [Hc Hs]%andb_true_iff. destruct (digit_char_cp U c Hc) as (-> & _).
  by rewrite (IH Hs).
Qed.

(** X8. A name the service generates is read back by the filename
    resolver: an upload whose filename is [{registro}-{n}.{ext}], with
    the numbers in decimal and an extension of [ALLOWED_MIMES], and
    without identifiers in the body, gets that registro and ponto [n]. *)
Theorem generated_name_reads_back (U : Unicode) (payload : UploadIn) (r n : Z)
  (mime ext ext_by_mime : string) :
  0 <= r -> 0 <= n ->
  dict_get ALLOWED_MIMES mime = Some ext ->
  filename payload = candidate_name (str r) n ext ->
  registro payload = None -> ponto payload = None ->
  sanitized_filename U payload ext_by_mime = candidate_name (str r) n ext
  /\ resolve_identifiers U payload (sanitized_filename U payload ext_by_mime)
     = (Some r, Some n).
Proof.
  intros Hr Hn Hext Hf Hreg Hpon.
  destruct (str_digits r Hr) as [Hrne Hrd]. destruct (str_digits n Hn) as [Hnne Hnd].
  set (q := fun c => is_plain_char c && negb (is_upper c)).
  assert (forall c, is_digit c = true -> q c = true) as Hdq.
  { intros c Hc. destruct (digit_char_cp U c Hc) as (_ & Hp & Hu).
    unfold q. by rewrite Hp, Hu. }
  assert (str_forallb q ext = true /\ ext_matches ext = true) as [Hqe Hle].
  { destruct (dict_get_ALLOWED_MIMES _ _ Hext) as [[_ ->]|[[_ ->]|[_ ->]]];
      by vm_compute. }
  assert (str_forallb q (candidate_name (str r) n ext) = true) as Hq.
  { apply candidate_name_forallb; try done.
    by apply (str_forallb_impl is_digit q). }
  assert (str_forallb is_plain_char (candidate_name (str r) n ext) = true) as Hplain.
  { apply (str_forallb_impl q); [|done]. by intros c [? _]%andb_true_iff. }
  destruct (plain_string_safe U _ Hplain) as [Hsafe Hsep].
  assert (sanitized_filename U payload ext_by_mime
          = ustr_of_string (candidate_name (str r) n ext)) as Hs.
  { unfold sanitized_filename, sanitize. rewrite Hf.
    rewrite (os_path_basename_id _ Hsep), (filter_forallb_id _ _ Hsafe).
    rewrite nonempty_ustr_of_string. unfold candidate_name.
    by rewrite nonempty_append_l. }
  split; [exact Hs|].
  unfold resolve_identifiers. rewrite Hs, u_lower_string, (plain_string_lower _ Hq).
  rewrite Hreg, Hpon.
  assert (FILENAME_RE_match U (ustr_of_string (candidate_name (str r) n ext))
          = Some (ustr_of_string (str r), ustr_of_string (str n), ustr_of_string ext))
    as ->.
  { apply FILENAME_RE_match_build. exists [].
    unfold candidate_name. rewrite !ustr_of_string_app, app_nil_r.
    split_and!; try done; rewrite ?nonempty_ustr_of_string; try done;
      by apply digit_string_cp. }
  by rewrite !int_str.
Qed.

Lemma generated_name_reads_back_witness :
  let payload :=
    {| filename := "5-3.png"; data_url := abc_png; registro := None; ponto := None |} in
  sanitized_filename latin1_only payload "jpg" = candidate_name (str 5) 3 "png"
  /\ resolve_identifiers latin1_only payload (sanitized_filename latin1_only payload "jpg")
     = (Some 5, Some 3).
Proof.
  intros payload.
  apply (generated_name_reads_back latin1_only payload 5 3 "image/png" "png" "jpg");
    reflexivity || lia.
Defined.

(** X9. Identifiers taken from the filename are never negative: when the
    body carries neither registro nor ponto and the payload decodes,
    [locate] raises no [HTTPException] (no "registro inválido", no
    "ponto inválido"). *)
Theorem inferred_identifiers_pass (cfg : Config) (env : Env) (payload : UploadIn)
  (fs : FS) (mime : string) (binary : list byte) :
  nonempty (filename payload) = true ->
  parse_data_url cfg (data_url payload) = Ok (mime, binary) ->
  registro payload = None -> ponto payload = None ->
  match (locate cfg env payload fs).1 with
  | Ok loc =>
      (forall r, l_registro loc = Some r -> 0 <= r)
      /\ (forall p, l_ponto loc = Some p -> 0 <= p)
      /\ (is_Some (l_registro loc) <-> is_Some (l_ponto loc))
  | HTTPException _ _ => False
  | Exception _ => True
  end.
Proof.
  intros Hf Hp Hreg Hpon.
  pose proof (parse_data_url_ok_inv _ _ _ _ Hp) as (_ & (m & b64 & Hm & _ & _) & [ext Hext] & _).
  unfold locate.
  rewrite Hf, (DATA_URL_RE_match_nonempty _ _ _ Hm), Hp, Hext. cbn [negb orb].
  unfold resolve_identifiers. rewrite Hreg, Hpon.
  destruct (FILENAME_RE_match _ _) as [[[gr gp] ge]|] eqn:Hmatch.
  - pose proof (int_nonneg (UNICODE cfg) gr) as Hr0.
    pose proof (int_nonneg (UNICODE cfg) gp) as Hp0.
    unfold storage_target. destruct (Z.ltb_spec (int (UNICODE cfg) gr) 0); [lia|].
    destruct (os_makedirs fs _); [|done].
    destruct (Z.ltb_spec (int (UNICODE cfg) gp) 0); [lia|].
    cbn [fst l_registro l_ponto]. split; [by intros ? [= <-]|].
    split; [by intros ? [= <-]|]. split; eauto.
  - cbn [storage_target]. destruct (os_makedirs fs _); [|done].
    cbn [fst l_registro l_ponto]. split; [done|]. split; [done|].
    split; by intros [? ?].
Qed.

Lemma inferred_identifiers_pass_witness :
  let payload :=
    {| filename := "42-3.jpg"; data_url := abc_png; registro := None; ponto := None |} in
  match (locate default_config quiet_env payload empty_fs).1 with
  | Ok loc =>
      (forall r, l_registro loc = Some r -> 0 <= r)
      /\ (forall p, l_ponto loc = Some p -> 0 <= p)
      /\ (is_Some (l_registro loc) <-> is_Some (l_ponto loc))
  | HTTPException _ _ => False
  | Exception _ => True
  end.
Proof.
  intros payload.
  apply (inferred_identifiers_pass default_config quiet_env payload empty_fs
           "image/png" abc); reflexivity.
Defined.

(** *** Identifiers from the filename *)

(** C5. For every upload whose sanitised filename matches [FILENAME_RE]
    and that passes validation: the registro and the ponto it works with
    are those of the request body where the body has them, and the
    integer values of the two digit groups of the filename where it has
    not. They name the directory and the prefix under which the file is
    stored, and a successful response reports them. *)
Theorem filename_identifiers_fill_missing (cfg : Config) (env : Env)
  (payload : UploadIn) (request : Request) (fs fs1 : FS) (loc : Located)
  (g_registro g_ponto g_ext : ustr) :
  locate cfg env payload fs = (Ok loc, fs1) ->
  FILENAME_RE_match (UNICODE cfg)
    (u_lower (UNICODE cfg) (sanitized_filename (UNICODE cfg) payload (l_ext loc)))
  = Some (g_registro, g_ponto, g_ext) ->
  let reg := default (int (UNICODE cfg) g_registro) (registro payload) in
  let pon := default (int (UNICODE cfg) g_ponto) (ponto payload) in
  l_registro loc = Some reg
  /\ l_ponto loc = Some pon
  /\ l_dir loc = os_path_join (IMAGES_ROOT cfg) (str reg)
  /\ l_prefix loc = str reg
  /\ forall resp fs',
       upload cfg env payload request fs = (Ok resp, fs') ->
       r_registro resp = Some reg
       /\ r_ponto resp = Some pon
       /\ r_path resp = "/imagens/" +:+ str reg +:+ "/" +:+ r_filename resp
       /\ (exists n, r_filename resp = candidate_name (str reg) n (l_ext loc))
       /\ files fs' !! os_path_join (os_path_join (IMAGES_ROOT cfg) (str reg))
                         (r_filename resp)
          = Some (l_binary loc).
Proof.
  intros Hl Hm reg pon.
  destruct (locate_spec _ _ _ _ _ _ Hl) as (_ & _ & _ & Hid & Ht & _ & Hpos).
  pose proof (locate_dir _ _ _ _ _ _ Hl) as Hdir.
  unfold resolve_identifiers in Hid. rewrite Hm in Hid.
  assert (l_registro loc = Some reg /\ l_ponto loc = Some pon) as [Hreg Hpon].
  { unfold reg, pon. destruct (registro payload), (ponto payload);
      by injection Hid as <- <-. }
  destruct (storage_target_prefix _ _ _ _ _ Ht) as (Hpre & Hd & _).
  rewrite Hreg in Hpre, Hd. cbn [from_option] in Hpre, Hd.
  split_and!; try done.
  intros resp fs' Hu.
  destruct (upload_ok_inv _ _ _ _ _ _ _ Hu)
    as (loc' & fs1' & name & Hl' & Hn & _ & Hw & ->).
  rewrite Hl in Hl'. injection Hl' as <- <-.
  destruct (final_name_for_cases _ _ _ _ _ _ Hdir Hpos Hn) as (n & -> & _).
  apply write_wb_spec in Hw as (_ & _ & Hdata & _).
  destruct (Hdata eq_refl) as [_ Hstored].
  cbn [build_response r_registro r_ponto r_path r_filename].
  rewrite Hd, Hpre in Hstored. rewrite Hreg, Hpre.
  split_and!; try done. by exists n.
Qed.

(** Filename "42-3.jpg" with no identifiers in the body yields registro
    42 and ponto 3. *)
Lemma filename_identifiers_fill_missing_witness :
  let payload :=
    {| filename := "42-3.jpg"; data_url := abc_png; registro := None; ponto := None |} in
  exists loc fs1,
    locate default_config quiet_env payload empty_fs = (Ok loc, fs1)
    /\ l_registro loc = Some 42 /\ l_ponto loc = Some 3
    /\ l_dir loc = "/srv/imagens/42"%string
    /\ forall resp fs',
         upload default_config quiet_env payload plain_request empty_fs = (Ok resp, fs') ->
         r_registro resp = Some 42 /\ r_ponto resp = Some 3.
Proof.
  intros payload.
  assert (locate default_config quiet_env payload empty_fs
          = (Ok {| l_mime := "image/png"; l_binary := abc; l_ext := "png";
                   l_registro := Some 42; l_ponto := Some 3;
                   l_dir := "/srv/imagens/42"; l_prefix := "42" |},
             {| files := ∅;
                dirs := {["/srv/imagens/42"; "/srv/imagens"; "/srv"]}%string |}))
    as Hl by (vm_compute; reflexivity).
  destruct (filename_identifiers_fill_missing default_config quiet_env payload
              plain_request empty_fs _ _ "42" "3" "jpg" Hl eq_refl)
    as (Hreg & Hpon & Hdir & _ & Hresp).
  eexists _, _. split; [exact Hl|].
  split_and!; [exact Hreg|exact Hpon|exact Hdir|].
  intros resp fs' Hu. by destruct (Hresp resp fs' Hu) as (? & ? & _).
Defined.

(** The same filename with a ponto in the body: the ponto of the body
    wins, the registro still comes from the filename. *)
Example explicit_ponto_wins :
  let payload :=
    {| filename := "42-3.jpg"; data_url := abc_png; registro := None; ponto := Some 7 |} in
  exists resp,
    (upload default_config quiet_env payload plain_request empty_fs).1 = Ok resp
    /\ r_registro resp = Some 42 /\ r_ponto resp = Some 7
    /\ r_filename resp = "42-7.png"%string.
Proof. eexists. split_and!; vm_compute; reflexivity. Qed.

(** Digits of another script count as well, where the Unicode database
    knows them: with the Arabic-Indic digits, the filename of code
    points 1636 1634 45 1635 46 106 112 103 gives registro 42 and
    ponto 3. *)
Example arabic_indic_digits :
  let U :=
    {| uni_word := fun c => in_range 1632 1641 c;
       uni_decimal := fun c => if in_range 1632 1641 c then Some (c - 1632)%N else None;
       uni_lower := fun s => s; uni_space := fun _ => false |} in
  let payload :=
    {| filename := [1636; 1634; 45; 1635; 46; 106; 112; 103]%N; data_url := abc_png;
       registro := None; ponto := None |} in
  resolve_identifiers U payload (sanitized_filename U payload "png") = (Some 42, Some 3).
Proof. reflexivity. Qed.

(** ** UploadOrchestrator *)

Lemma os_makedirs_exists (fs fs1 : FS) (d q : string) :
  os_makedirs fs d = Some fs1 ->
  os_path_exists fs q = true -> os_path_exists fs1 q = true.
Proof.
  intros (Hf & Hd & _)%os_makedirs_spec. unfold os_path_exists, is_file.
  rewrite Hf. intros [->|Hq]%orb_true_iff; [done|].
  rewrite (is_dir_mono fs fs1 q Hd Hq). apply orb_true_r.
Qed.

Lemma locate_exists (cfg : Config) (env : Env) (payload : UploadIn) (fs fs1 : FS)
  (r : result Located) (q : string) :
  locate cfg env payload fs = (r, fs1) ->
  os_path_exists fs q = true -> os_path_exists fs1 q = true.
Proof.
  intros [->|[d Hd]]%locate_fs; [done|]. by apply (os_makedirs_exists fs fs1 d).
Qed.

Lemma write_wb_exists (flt : write_fault) (fs fs' : FS) (p q : string)
  (data : list byte) (ok : bool) :
  write_wb flt fs p data = (ok, fs') ->
  os_path_exists fs q = true -> os_path_exists fs' q = true.
Proof.
  unfold write_wb. destruct (is_dir fs p); [by intros [= <- <-]|].
  destruct (negb (is_file fs p) && negb (can_create fs p)); [by intros [= <- <-]|].
  unfold os_path_exists, is_file, is_dir.
  destruct flt; intros [= <- <-]; cbn [files dirs]; try done;
    (intros [Hq%bool_decide_eq_true|Hq]%orb_true_iff; [|by rewrite Hq, orb_true_r]);
    (destruct (decide (q = p)) as [->|Hne];
     [rewrite lookup_insert_eq|rewrite lookup_insert_ne by done]);
    by rewrite bool_decide_eq_true_2.
Qed.

(** Whatever existed before an upload keeps its content. *)
Lemma upload_keeps_files (cfg : Config) (env : Env) (payload : UploadIn)
  (request : Request) (fs fs' : FS) (r : result UploadOut) (q : string) :
  upload cfg env payload request fs = (r, fs') ->
  os_path_exists fs q = true ->
  files fs' !! q = files fs !! q.
Proof.
  intros Hu Hq.
  destruct (locate cfg env payload fs) as [rl fs1] eqn:Hl.
  pose proof (locate_files _ _ _ _ _ _ Hl) as Hfiles.
  pose proof (locate_exists _ _ _ _ _ _ q Hl Hq) as Hq1.
  destruct rl as [loc|c d|e];
    [|unfold upload, upload_try in Hu; rewrite Hl in Hu;
      injection Hu as <- <-; by rewrite Hfiles..].
  destruct (locate_spec _ _ _ _ _ _ Hl) as (_ & _ & _ & _ & _ & Hmk & _).
  apply os_makedirs_spec in Hmk as (_ & _ & _ & Hdir).
  rewrite (upload_located _ _ _ _ _ _ _ Hl) in Hu.
  destruct (store_file _ _ _ _ _ _ _) as [rs fs2] eqn:Hs.
  pose proof (store_file_keeps_existing _ _ _ _ _ _ _ _ _ q Hdir Hs Hq1) as Hkeep.
  rewrite <- Hfiles, <- Hkeep. by destruct rs; injection Hu as <- <-.
Qed.

(** X10. An upload, successful or not, never removes or changes what was
    in the storage tree: every path that existed still exists, and every
    regular file that existed has the content it had. *)
Theorem upload_preserves_storage (cfg : Config) (env : Env) (payload : UploadIn)
  (request : Request) (fs fs' : FS) (r : result UploadOut) (q : string) :
  upload cfg env payload request fs = (r, fs') ->
  os_path_exists fs q = true ->
  os_path_exists fs' q = true /\ files fs' !! q = files fs !! q.
Proof.
  intros Hu Hq. split; [|by apply (upload_keeps_files _ _ _ _ _ _ _ _ Hu)].
  destruct (locate cfg env payload fs) as [rl fs1] eqn:Hl.
  pose proof (locate_exists _ _ _ _ _ _ q Hl Hq) as Hq1.
  destruct rl as [loc|c d|e];
    [|unfold upload, upload_try in Hu; rewrite Hl in Hu;
      by injection Hu as <- <-..].
  destruct (locate_spec _ _ _ _ _ _ Hl) as (_ & _ & _ & _ & _ & Hmk & _).
  apply os_makedirs_spec in Hmk as (_ & _ & _ & Hdir).
  rewrite (upload_located _ _ _ _ _ _ _ Hl) in Hu. unfold store_file in Hu.
  destruct (final_name_for fs1 _ _ _ _) as [rn fs2] eqn:Hn.
  pose proof (final_name_for_fs _ _ _ _ Hdir _ _ _ Hn) as ->.
  destruct rn as [name|c d|e]; [|by injection Hu as <- <-..].
  destruct (write_wb _ _ _ _) as [ok fs3] eqn:Hw.
  pose proof (write_wb_exists _ _ _ _ q _ _ Hw Hq1).
  by destruct ok; injection Hu as <- <-.
Qed.

Lemma upload_preserves_storage_witness :
  let payload :=
    {| filename := "foto.jpg"; data_url := "data:image/jpeg;base64,QUJD";
       registro := Some 5; ponto := Some 2 |} in
  let fs :=
    {| files := {["/srv/imagens/5/5-2.jpg"%string := [x58]]};
       dirs := {["/srv/imagens/5"%string]} |} in
  let outcome := upload default_config quiet_env payload plain_request fs in
  os_path_exists outcome.2 "/srv/imagens/5/5-2.jpg" = true
  /\ files outcome.2 !! "/srv/imagens/5/5-2.jpg"%string
     = files fs !! "/srv/imagens/5/5-2.jpg"%string.
Proof.
  intros payload fs outcome.
  apply (upload_preserves_storage default_config quiet_env payload plain_request
           fs outcome.2 outcome.1);
    [apply surjective_pairing | vm_compute; reflexivity].
Defined.

(** Where a successful upload put its file, and what is in it. *)
Lemma upload_ok_stored (cfg : Config) (env : Env) (payload : UploadIn)
  (request : Request) (fs fs' : FS) (resp : UploadOut) :
  upload cfg env payload request fs = (Ok resp, fs') ->
  os_path_exists fs (stored_path cfg resp) = false
  /\ exists binary,
       parse_data_url cfg (data_url payload) = Ok (r_mime resp, binary)
       /\ files fs' !! stored_path cfg resp = Some binary
       /\ r_size resp = blen binary.
Proof.
  intros Hu.
  destruct (upload_ok_inv _ _ _ _ _ _ _ Hu)
    as (loc & fs1 & name & Hl & Hn & Hfree & Hw & ->).
  destruct (locate_spec _ _ _ _ _ _ Hl) as (_ & Hp & _ & _ & Ht & _ & _).
  destruct (storage_target_prefix _ _ _ _ _ Ht) as (_ & Hd & _).
  apply write_wb_spec in Hw as (_ & _ & Hdata & _).
  destruct (Hdata eq_refl) as [_ Hstored].
  unfold stored_path. cbn [build_response r_registro r_filename r_mime r_size].
  rewrite <- Hd. split.
  - destruct (os_path_exists fs _) eqn:Hex; [|done].
    by rewrite (locate_exists _ _ _ _ _ _ _ Hl Hex) in Hfree.
  - by exists (l_binary loc).
Qed.

(** X11. The response describes the stored file: the link is the base
    URL followed by the path, the path is [/imagens/], the registro in
    decimal (or [misc]) and the filename, and the file at the
    corresponding place under [IMAGES_ROOT], which did not exist before,
    holds exactly the decoded bytes of the data URL, [size] of them. *)
Theorem upload_response_describes_file (cfg : Config) (env : Env)
  (payload : UploadIn) (request : Request) (fs fs' : FS) (resp : UploadOut) :
  upload cfg env payload request fs = (Ok resp, fs') ->
  r_link resp = get_base_url cfg request +:+ r_path resp
  /\ r_path resp
     = "/imagens/" +:+ from_option str "misc"%string (r_registro resp) +:+ "/"
       +:+ r_filename resp
  /\ os_path_exists fs (stored_path cfg resp) = false
  /\ exists binary,
       parse_data_url cfg (data_url payload) = Ok (r_mime resp, binary)
       /\ files fs' !! stored_path cfg resp = Some binary
       /\ r_size resp = blen binary.
Proof.
  intros Hu. destruct (upload_ok_stored _ _ _ _ _ _ _ Hu) as [Hfree Hb].
  destruct (upload_ok_inv _ _ _ _ _ _ _ Hu) as (loc & fs1 & name & _ & _ & _ & _ & Hr).
  split_and!; try done; rewrite Hr; cbn [build_response r_link r_path r_registro r_filename].
  - reflexivity.
  - by destruct (l_registro loc).
Qed.

Lemma upload_response_describes_file_witness :
  let payload :=
    {| filename := "42-3.jpg"; data_url := abc_png; registro := None; ponto := None |} in
  exists resp fs',
    upload default_config quiet_env payload plain_request empty_fs = (Ok resp, fs')
    /\ r_link resp = "http://127.0.0.1:8002/imagens/42/42-3.png"%string
    /\ r_link resp = get_base_url default_config plain_request +:+ r_path resp
    /\ files fs' !! stored_path default_config resp = Some abc.
Proof.
  intros payload.
  destruct (upload default_config quiet_env payload plain_request empty_fs)
    as [r fs'] eqn:Hu.
  assert (r = Ok {| r_link := "http://127.0.0.1:8002/imagens/42/42-3.png";
                    r_mime := "image/png"; r_size := 3; r_registro := Some 42;
                    r_ponto := Some 3; r_path := "/imagens/42/42-3.png";
                    r_filename := "42-3.png" |}) as ->.
  { apply (f_equal fst) in Hu. cbn [fst] in Hu. rewrite <- Hu.
    vm_compute. reflexivity. }
  destruct (upload_response_describes_file _ _ _ _ _ _ _ Hu)
    as (Hlink & _ & _ & binary & Hp & Hfile & _).
  eexists _, fs'. split_and!; [reflexivity|reflexivity|exact Hlink|].
  rewrite Hfile. f_equal.
  assert (parse_data_url default_config abc_png = Ok ("image/png"%string, abc))
    as Hp' by reflexivity.
  cbn [data_url payload r_mime] in Hp. rewrite Hp' in Hp. by injection Hp.
Defined.

(** X12. Two uploads served one after the other are stored in different
    places, and the second leaves the file of the first as it was. *)
Theorem successive_uploads_distinct (cfg : Config) (env1 env2 : Env)
  (payload1 payload2 : UploadIn) (request1 request2 : Request)
  (fs fs1 fs2 : FS) (resp1 resp2 : UploadOut) :
  upload cfg env1 payload1 request1 fs = (Ok resp1, fs1) ->
  upload cfg env2 payload2 request2 fs1 = (Ok resp2, fs2) ->
  stored_path cfg resp1 <> stored_path cfg resp2
  /\ exists b1 b2,
       files fs1 !! stored_path cfg resp1 = Some b1
       /\ files fs2 !! stored_path cfg resp1 = Some b1
       /\ files fs2 !! stored_path cfg resp2 = Some b2
       /\ r_size resp1 = blen b1 /\ r_size resp2 = blen b2.
Proof.
  intros Hu1 Hu2.
  destruct (upload_ok_stored _ _ _ _ _ _ _ Hu1) as (_ & b1 & _ & Hf1 & Hs1).
  destruct (upload_ok_stored _ _ _ _ _ _ _ Hu2) as (Hfree2 & b2 & _ & Hf2 & Hs2).
  assert (os_path_exists fs1 (stored_path cfg resp1) = true) as Hex1.
  { unfold os_path_exists, is_file. rewrite Hf1.
    by rewrite bool_decide_eq_true_2. }
  split.
  - intros Heq. rewrite Heq in Hex1. by rewrite Hex1 in Hfree2.
  - exists b1, b2. split_and!; try done.
    by rewrite (upload_keeps_files _ _ _ _ _ _ _ _ Hu2 Hex1).
Qed.

Lemma successive_uploads_distinct_witness :
  let payload :=
    {| filename := "x.png"; data_url := abc_png; registro := Some 5; ponto := None |} in
  let resp n :=
    {| r_link := "http://127.0.0.1:8002/imagens/5/" +:+ candidate_name "5" n "png";
       r_mime := "image/png"; r_size := 3; r_registro := Some 5; r_ponto := None;
       r_path := "/imagens/5/" +:+ candidate_name "5" n "png";
       r_filename := candidate_name "5" n "png" |} in
  let fs1 :=
    {| files := {["/srv/imagens/5/5-1.png"%string := abc]}; dirs := dirs dir5_fs |} in
  let fs2 :=
    {| files := <["/srv/imagens/5/5-2.png"%string := abc]> (files fs1);
       dirs := dirs dir5_fs |} in
  upload default_config quiet_env payload plain_request empty_fs = (Ok (resp 1), fs1)
  /\ upload default_config quiet_env payload plain_request fs1 = (Ok (resp 2), fs2)
  /\ stored_path default_config (resp 1) <> stored_path default_config (resp 2)
  /\ exists b1 b2,
       files fs1 !! stored_path default_config (resp 1) = Some b1
       /\ files fs2 !! stored_path default_config (resp 1) = Some b1
       /\ files fs2 !! stored_path default_config (resp 2) = Some b2
       /\ r_size (resp 1) = blen b1 /\ r_size (resp 2) = blen b2.
Proof.
  intros payload resp fs1 fs2.
  assert (upload default_config quiet_env payload plain_request empty_fs
          = (Ok (resp 1), fs1)) as Hu1 by (vm_compute; reflexivity).
  assert (upload default_config quiet_env payload plain_request fs1
          = (Ok (resp 2), fs2)) as Hu2 by (vm_compute; reflexivity).
  split; [exact Hu1|]. split; [exact Hu2|].
  exact (successive_uploads_distinct default_config quiet_env quiet_env payload
           payload plain_request plain_request empty_fs fs1 fs2 (resp 1) (resp 2)
           Hu1 Hu2).
Defined.
(** *** Identifier validation *)



(** A registro of 300 digits is acceptable, but its directory cannot be
    created: the name is longer than [NAME_MAX]. *)
Example long_registro_fails :
  let payload :=
    {| filename := "x.png"; data_url := abc_png; registro := Some (10 ^ 300);
       ponto := None |} in
  upload default_config quiet_env payload plain_request empty_fs
  = (HTTPException 500 "Erro interno do servidor", empty_fs).
Proof. vm_compute. reflexivity. Qed.

(** *** Statuses *)

Lemma locate_status (cfg : Config) (env : Env) (payload : UploadIn) (fs : FS) :
  match (locate cfg env payload fs).1 with
  | HTTPException c _ => c = 400 \/ c = 413
  | _ => True
  end.
Proof.
  unfold locate.
  destruct (negb _ || negb _); [by left|].
  pose proof (parse_data_url_status cfg (data_url payload)) as Hs.
  destruct (parse_data_url cfg (data_url payload)) as [[mime binary]| |]; [|done..].
  destruct (dict_get ALLOWED_MIMES mime) as [ext|]; [|done].
  destruct (resolve_identifiers _ payload (sanitized_filename _ payload ext))
    as [reg pon].
  unfold storage_target. destruct reg as [r|].
  - destruct (r <? 0); [by left|]. destruct (os_makedirs fs _); [|done].
    destruct (match pon with Some p => p <? 0 | None => false end); [by left|done].
  - destruct (os_makedirs fs _); [|done].
    destruct (match pon with Some p => p <? 0 | None => false end); [by left|done].
Qed.

Lemma store_file_status (flt : write_fault) (fs : FS)
  (dir_path base_prefix ext : string) (ponto : option Z) (binary : list byte) :
  match (store_file flt fs dir_path base_prefix ext ponto binary).1 with
  | HTTPException c _ => c = 500
  | _ => True
  end.
Proof.
  assert (forall start,
             match (next_sequential_name fs dir_path base_prefix ext start).1 with
             | HTTPException c _ => c = 500
             | _ => True
             end) as Hnamer.
  { intros start. unfold next_sequential_name.
    destruct (if negb (os_path_exists fs dir_path) then os_makedirs fs dir_path
              else Some fs) as [fs0|]; [|done].
    destruct (probe_loop_spec dir_path base_prefix ext (Z.to_nat max_attempts)
                fs0 (Z.max 1 start))
      as [(n & _ & _ & _ & ->)|[_ ->]]; [|done].
    by destruct (can_create fs0 _). }
  unfold store_file, final_name_for. destruct ponto as [p|].
  - destruct (os_path_exists fs _).
    + specialize (Hnamer (p + 1)).
      destruct (next_sequential_name _ _ _ _ _) as [[name|c d|e] fs1];
        cbn [fst] in *; try done.
      by destruct (write_wb _ _ _ _) as [[] ?].
    + by destruct (write_wb _ _ _ _) as [[] ?].
  - specialize (Hnamer 1).
    destruct (next_sequential_name _ _ _ _ _) as [[name|c d|e] fs1];
      cbn [fst] in *; try done.
    by destruct (write_wb _ _ _ _) as [[] ?].
Qed.

(** X14. An upload ends with a response or with an [HTTPException] of
    status 400, 413 or 500, never with another exception: 400 and 413
    come from validation and decoding, 500 from the namer, the write or
    an unexpected error. *)
Theorem upload_statuses (cfg : Config) (env : Env) (payload : UploadIn)
  (request : Request) (fs : FS) :
  match (upload cfg env payload request fs).1 with
  | Ok _ => True
  | HTTPException c _ => c = 400 \/ c = 413 \/ c = 500
  | Exception _ => False
  end.
Proof.
  unfold upload, upload_try.
  pose proof (locate_status cfg env payload fs) as Hl.
  destruct (locate cfg env payload fs) as [[loc|c d|e] fs1]; cbn [fst] in *.
  - pose proof (store_file_status (fault env) fs1 (l_dir loc) (l_prefix loc)
                  (l_ext loc) (l_ponto loc) (l_binary loc)) as Hs.
    destruct (store_file _ _ _ _ _ _ _) as [[name|c d|e] fs2]; cbn [fst] in *;
      try done; tauto.
  - tauto.
  - tauto.
Qed.

(** X15. The name under which a file is stored consists only of ASCII
    letters, digits, [_], [-] and [.], so it contains no path separator,
    provided the random prefix does (it is made of hexadecimal digits):
    nothing of the client's filename reaches the path. *)
Theorem stored_filename_safe (cfg : Config) (env : Env) (payload : UploadIn)
  (request : Request) (fs fs' : FS) (resp : UploadOut) :
  str_forallb is_plain_char (uuid_hex8 env) = true ->
  upload cfg env payload request fs = (Ok resp, fs') ->
  str_forallb is_plain_char (r_filename resp) = true
  /\ str_in "/" (r_filename resp) = false.
Proof.
  intros Hhex Hu.
  destruct (upload_ok_inv _ _ _ _ _ _ _ Hu)
    as (loc & fs1 & name & Hl & Hn & _ & _ & ->).
  destruct (locate_spec _ _ _ _ _ _ Hl) as (_ & _ & Hext & _ & Ht & _ & Hpos).
  pose proof (locate_dir _ _ _ _ _ _ Hl) as Hdir.
  destruct (storage_target_prefix _ _ _ _ _ Ht) as (Hpre & _ & Hreg).
  destruct (final_name_for_cases _ _ _ _ _ _ Hdir Hpos Hn) as (n & -> & _ & Hcase).
  cbn [build_response r_filename].
  assert (0 <= n) as Hn0.
  { destruct (l_ponto loc) as [p|] eqn:Hp.
    - specialize (Hpos p eq_refl). destruct Hcase as [[_ ->]|(_ & ? & _)]; lia.
    - lia. }
  assert (str_forallb is_plain_char (candidate_name (l_prefix loc) n (l_ext loc)) = true)
    as Hsafe.
  { apply candidate_name_forallb; try done.
    - intros c Hc. by destruct (digit_char_cp latin1_only c Hc) as (_ & ? & _).
    - rewrite Hpre. destruct (l_registro loc) as [r|]; cbn [from_option]; [|done].
      destruct (str_digits r (Hreg r eq_refl)) as [_ Hd].
      apply (str_forallb_impl is_digit); [|done].
      intros c Hc. by destruct (digit_char_cp latin1_only c Hc) as (_ & ? & _).
    - destruct (dict_get_ALLOWED_MIMES _ _ Hext) as [[_ ->]|[[_ ->]|[_ ->]]];
        reflexivity. }
  split; [done|]. by apply (no_slash is_plain_char).
Qed.

Lemma stored_filename_safe_witness :
  let payload :=
    {| filename := "../../x.png"; data_url := abc_png; registro := None;
       ponto := None |} in
  let resp :=
    {| r_link := "http://127.0.0.1:8002/imagens/misc/0a1b2c3d-1.png";
       r_mime := "image/png"; r_size := 3; r_registro := None; r_ponto := None;
       r_path := "/imagens/misc/0a1b2c3d-1.png";
       r_filename := "0a1b2c3d-1.png" |} in
  (upload default_config quiet_env payload plain_request empty_fs).1 = Ok resp
  /\ str_forallb is_plain_char (r_filename resp) = true
  /\ str_in "/" (r_filename resp) = false.
Proof.
  intros payload resp.
  assert ((upload default_config quiet_env payload plain_request empty_fs).1 = Ok resp)
    as Hr by (vm_compute; reflexivity).
  split; [exact Hr|].
  apply (stored_filename_safe default_config quiet_env payload plain_request empty_fs
           (upload default_config quiet_env payload plain_request empty_fs).2 resp);
    [reflexivity|].
  rewrite <- Hr. apply surjective_pairing.
Defined.

(** ** BaseURLResolver *)

Lemma rstrip_no_trailing (c : ascii) (s : string) : endswith c (rstrip c s) = false.
Proof.
  induction s as [|a s IH]; [done|]. cbn [rstrip].
  destruct (rstrip c s) as [|b r] eqn:Hr.
  - destruct (Ascii.eqb a c) eqn:Hac; [done|]. cbn [endswith]. exact Hac.
  - cbn [endswith] in *. exact IH.
Qed.

Lemma rstrip_id (c : ascii) (s : string) : endswith c s = false -> rstrip c s = s.
Proof.
  induction s as [|a s IH]; [done|]. cbn [rstrip endswith].
  destruct s as [|b s'].
  - intros ->. done.
  - intros H. by rewrite (IH H).
Qed.

(** X16. A configured [BASE_URL] takes precedence over everything a
    request carries: the result is the configured value without its
    trailing slashes, whatever the forwarding headers, scheme or own
    base URL of the request. *)
Theorem get_base_url_static_wins (cfg : Config) (request1 request2 : Request)
  (b : string) :
  BASE_URL_ENV cfg = Some b -> nonempty b = true ->
  get_base_url cfg request1 = rstrip "/" b
  /\ get_base_url cfg request1 = get_base_url cfg request2
  /\ endswith "/" (get_base_url cfg request1) = false
  /\ (endswith "/" b = false -> get_base_url cfg request1 = b).
Proof.
  intros Hb Hn.
  assert (forall request, get_base_url cfg request = rstrip "/" b) as Hg.
  { intros request. unfold get_base_url. rewrite Hb. cbn [truthy default from_option id].
    by rewrite Hn. }
  rewrite !Hg. split_and!; try done.
  - apply rstrip_no_trailing.
  - apply rstrip_id.
Qed.

Lemma get_base_url_static_wins_witness :
  let cfg :=
    {| IMAGES_ROOT := "/srv/imagens"; BASE_URL_ENV := Some "https://img.example.org//"%string;
       MAX_SIZE_MB := 25; UNICODE := latin1_only |} in
  let proxied :=
    {| headers := [("x-forwarded-proto", "http"); ("x-forwarded-host", "evil.test");
                   ("x-forwarded-port", "8080")]%string;
       url_scheme := "http"; base_url := "http://10.0.0.7:8002/" |} in
  get_base_url cfg proxied = "https://img.example.org"%string
  /\ get_base_url cfg proxied = get_base_url cfg plain_request.
Proof.
  intros cfg proxied.
  destruct (get_base_url_static_wins cfg proxied plain_request
              "https://img.example.org//" eq_refl eq_refl) as (H1 & H2 & _).
  split; [exact H1|exact H2].
Defined.

(** X17. Unless a forwarded host is used, the resolved origin never ends
    with a slash: both the configured base URL and the request's own
    base URL are stripped of their trailing slashes. *)
Theorem get_base_url_no_trailing_slash (cfg : Config) (request : Request) :
  truthy (BASE_URL_ENV cfg) = true
  \/ truthy (headers_get (headers request) "x-forwarded-host") = false ->
  endswith "/" (get_base_url cfg request) = false.
Proof.
  intros H. unfold get_base_url.
  destruct (truthy (BASE_URL_ENV cfg)); [apply rstrip_no_trailing|].
  destruct H as [?| ->]; [done|]. apply rstrip_no_trailing.
Qed.

Lemma get_base_url_no_trailing_slash_witness :
  endswith "/" (get_base_url default_config plain_request) = false.
Proof.
  apply get_base_url_no_trailing_slash. right. reflexivity.
Defined.

(** ** CORS configuration *)

Lemma lstrip_ws_fixed (U : Unicode) (s : ustr) :
  lstrip_ws U (lstrip_ws U s) = lstrip_ws U s.
Proof.
  induction s as [|c s IH]; [done|]. cbn [lstrip_ws].
  destruct (is_space_cp U c) eqn:Hc; [done|]. cbn [lstrip_ws]. by rewrite Hc.
Qed.

Lemma rstrip_ws_fixed (U : Unicode) (s : ustr) :
  rstrip_ws U (rstrip_ws U s) = rstrip_ws U s.
Proof.
  induction s as [|a s IH]; [done|]. cbn [rstrip_ws].
  destruct (rstrip_ws U s) as [|b r] eqn:Hr.
  - destruct (is_space_cp U a) eqn:Ha; [done|]. cbn [rstrip_ws]. by rewrite Ha.
  - cbn [rstrip_ws] in *. by rewrite IH.
Qed.

Lemma lstrip_ws_length (U : Unicode) (u : ustr) :
  (List.length (lstrip_ws U u) <= List.length u)%nat.
Proof.
  induction u as [|c u IH]; [done|]. cbn [lstrip_ws].
  destruct (is_space_cp U c); cbn [List.length]; lia.
Qed.

Lemma lstrip_rstrip_ws (U : Unicode) (t : ustr) :
  lstrip_ws U t = t -> lstrip_ws U (rstrip_ws U t) = rstrip_ws U t.
Proof.
  destruct t as [|a s]; [done|]. cbn [lstrip_ws].
  destruct (is_space_cp U a) eqn:Ha.
  - intros H. apply (f_equal (@List.length N)) in H. cbn [List.length] in H.
    pose proof (lstrip_ws_length U s). lia.
  - intros _. cbn [rstrip_ws].
    destruct (rstrip_ws U s); rewrite ?Ha; cbn [lstrip_ws]; by rewrite Ha.
Qed.

(** [strip] of a stripped string changes nothing. *)
Lemma strip_fixed (U : Unicode) (s : ustr) : strip U (strip U s) = strip U s.
Proof.
  unfold strip.
  rewrite (lstrip_rstrip_ws U (lstrip_ws U s) (lstrip_ws_fixed U s)).
  apply rstrip_ws_fixed.
Qed.

Lemma lstrip_ws_forallb (U : Unicode) (q : N -> bool) (s : ustr) :
  forallb q s = true -> forallb q (lstrip_ws U s) = true.
Proof.
  induction s as [|c s IH]; [done|]. cbn [lstrip_ws].
  destruct (is_space_cp U c); [|done]. cbn [forallb].
  intros [_ Hs]%andb_true_iff. by apply IH.
Qed.

Lemma rstrip_ws_forallb (U : Unicode) (q : N -> bool) (s : ustr) :
  forallb q s = true -> forallb q (rstrip_ws U s) = true.
Proof.
  induction s as [|a s IH]; [done|]. cbn [rstrip_ws forallb].
  intros [Ha Hs]%andb_true_iff. specialize (IH Hs).
  destruct (rstrip_ws U s) as [|b r].
  - destruct (is_space_cp U a); [done|]. cbn [forallb]. by rewrite Ha.
  - cbn [forallb] in *. by rewrite Ha, IH.
Qed.

(** The pieces of [split] do not contain the separator. *)
Lemma u_split_no_sep (sep : N) (s : ustr) :
  Forall (fun x => forallb (fun c => negb (c =? sep)%N) x = true) (u_split sep s).
Proof.
  induction s as [|c s IH]; [by repeat constructor|]. cbn [u_split].
  destruct (c =? sep)%N eqn:Hc; [by constructor|].
  destruct (u_split sep s) as [|x xs];
    [constructor; [cbn [forallb]; by rewrite Hc|constructor]|].
  inversion IH as [|? ? Hx Hxs]; subst. constructor; [|done].
  cbn [forallb]. by rewrite Hc, Hx.
Qed.

(** [split] always returns at least one piece. *)
Lemma u_split_nonnil (sep : N) (s : ustr) : u_split sep s <> [].
Proof.
  destruct s as [|c s]; [done|]. cbn [u_split].
  destruct (c =? sep)%N; [done|]. by destruct (u_split sep s).
Qed.

Lemma forallb_not_in (sep : N) (o : ustr) :
  forallb (fun c => negb (c =? sep)%N) o = true -> sep ∉ o.
Proof.
  induction o as [|c o IH]; [intros _; apply not_elem_of_nil|].
  cbn [forallb]. intros [Hc Ho]%andb_true_iff [<-|Hin]%elem_of_cons.
  - by rewrite N.eqb_refl in Hc.
  - by apply IH.
Qed.

(** Items that are neither blank nor padded pass the comprehension of
    line 20 unchanged. *)
Lemma clean_items_kept (U : Unicode) (items : list ustr) :
  Forall (fun o => nonempty o = true /\ strip U o = o) items ->
  List.map (strip U) (List.filter (fun o => nonempty (strip U o)) items) = items.
Proof.
  induction 1 as [|o os [Hne Hst] _ IH]; [done|].
  cbn [List.filter]. rewrite Hst, Hne. cbn [List.map]. by rewrite Hst, IH.
Qed.

(** X18. [CORS_ORIGINS] is never empty, and each of its origins is
    non-empty, free of commas and free of surrounding whitespace: blank
    items of the variable are dropped, and a variable that is unset or
    holds no item gives the eight local defaults. A variable whose items
    are all non-blank and without surrounding whitespace is taken as it
    is: its items, in order. *)
Theorem CORS_ORIGINS_wellformed (U : Unicode) (env_value : option ustr) :
  CORS_ORIGINS U env_value <> []
  /\ Forall (fun o => nonempty o = true /\ strip U o = o /\ 44%N ∉ o)
       (CORS_ORIGINS U env_value)
  /\ (CORS_ORIGINS U env_value = List.map ustr_of_string DEFAULT_CORS_ORIGINS
      \/ CORS_ORIGINS U env_value
         = List.map (strip U)
             (List.filter (fun o => nonempty (strip U o))
                (u_split 44 (strip U (default [] env_value)))))
  /\ (forall v, env_value = Some v ->
        Forall (fun o => nonempty o = true /\ strip U o = o) (u_split 44 (strip U v)) ->
        CORS_ORIGINS U env_value = u_split 44 (strip U v)).
Proof.
  unfold CORS_ORIGINS.
  set (pieces := u_split 44 (strip U (default [] env_value))).
  assert (Forall (fun o => nonempty o = true /\ strip U o = o /\ 44%N ∉ o)
            (List.map (strip U) (List.filter (fun o => nonempty (strip U o)) pieces)))
    as Hall.
  { pose proof (u_split_no_sep 44 (strip U (default [] env_value))) as Hsep.
    fold pieces in Hsep. induction Hsep as [|x xs Hx Hxs IH]; [constructor|].
    cbn [List.filter]. destruct (nonempty (strip U x)) eqn:Hn; [|exact IH].
    cbn [List.map]. constructor; [|exact IH].
    split_and!; [done|apply strip_fixed|].
    apply forallb_not_in. unfold strip.
    by apply rstrip_ws_forallb, lstrip_ws_forallb. }
  assert (forall v, env_value = Some v ->
            Forall (fun o => nonempty o = true /\ strip U o = o)
              (u_split 44 (strip U v)) ->
            List.map (strip U) (List.filter (fun o => nonempty (strip U o)) pieces)
            = u_split 44 (strip U v)) as Hkept.
  { intros v -> Hclean. unfold pieces. cbn [default from_option id].
    by apply clean_items_kept. }
  destruct (List.map (strip U) _) as [|o os] eqn:Ho.
  - split_and!; [done| |by left|].
    + unfold DEFAULT_CORS_ORIGINS. cbn [List.map].
      repeat (constructor;
              [split_and!; [reflexivity| |apply forallb_not_in; reflexivity]|]);
        [..|constructor].
      all: unfold strip; cbn; reflexivity.
    + intros v Hv Hclean. specialize (Hkept v Hv Hclean).
      symmetry in Hkept. by apply u_split_nonnil in Hkept.
  - split_and!; [done|exact Hall|by right|].
    intros v Hv Hclean. by rewrite <- (Hkept v Hv Hclean).
Qed.

(** The value of the comment of line 18 gives its two origins. *)
Lemma CORS_ORIGINS_wellformed_witness :
  let v := ustr_of_string "https://app.seu-dominio.com,https://www.seu-dominio.com" in
  CORS_ORIGINS latin1_only (Some v)
  = [ustr_of_string "https://app.seu-dominio.com";
     ustr_of_string "https://www.seu-dominio.com"].
Proof.
  intros v.
  destruct (CORS_ORIGINS_wellformed latin1_only (Some v)) as (_ & _ & _ & Hkept).
  rewrite (Hkept v eq_refl).
  - reflexivity.
  - assert (u_split 44 (strip latin1_only v)
            = [ustr_of_string "https://app.seu-dominio.com";
               ustr_of_string "https://www.seu-dominio.com"]) as ->
      by (vm_compute; reflexivity).
    apply List.Forall_cons; [split; vm_compute; reflexivity|].
    apply List.Forall_cons; [split; vm_compute; reflexivity|].
    apply List.Forall_nil.
Defined.

(** Blank items are dropped, and the items are stripped, also of the
    no-break space (code point 160). *)
Example CORS_ORIGINS_blank_items :
  CORS_ORIGINS latin1_only
    (Some ([32; 160]%N ++ ustr_of_string "https://a.test , ,https://b.test,"))
  = [ustr_of_string "https://a.test"; ustr_of_string "https://b.test"].
Proof. reflexivity. Qed.

(** *** Where a file can be created *)

Lemma endswith_append (c : ascii) (s t : string) :
  nonempty t = true -> endswith c (s +:+ t) = endswith c t.
Proof.
  intros Ht. induction s as [|a s IH]; [done|]. rewrite append_cons.
  cbn [endswith]. destruct (s +:+ t) eqn:Hst; [|done].
  apply (f_equal String.length) in Hst. rewrite length_append in Hst.
  destruct t; [done|]. cbn in Hst. lia.
Qed.

Lemma endswith_in (s : string) : endswith "/" s = true -> str_in "/" s = true.
Proof.
  induction s as [|a s IH]; [done|]. cbn [endswith str_in].
  rewrite prefix_slash. destruct s as [|b s'].
  - intros ->. done.
  - intros H. rewrite (IH H). apply orb_true_r.
Qed.

Lemma path_head_plain (name : string) : str_in "/" name = false -> path_head name = ""%string.
Proof. destruct name; [done|]. cbn [path_head]. by intros ->. Qed.

Lemma str_in_slash_append (s t : string) : str_in "/" (s +:+ "/" +:+ t) = true.
Proof.
  induction s as [|a s IH].
  - rewrite append_nil_l. change ("/" +:+ t) with (String "/" t).
    cbn [str_in]. by rewrite prefix_slash.
  - rewrite append_cons. cbn [str_in]. rewrite IH. apply orb_true_r.
Qed.

Lemma path_head_append (s name : string) :
  str_in "/" name = false -> path_head (s +:+ "/" +:+ name) = s +:+ "/".
Proof.
  intros Hn. induction s as [|a s IH].
  - rewrite !append_nil_l. change ("/" +:+ name) with (String "/" name).
    cbn [path_head]. rewrite (path_head_plain _ Hn).
    cbn [str_in]. by rewrite prefix_slash.
  - change (String a s +:+ "/" +:+ name) with (String a (s +:+ "/" +:+ name)).
    change (String a s +:+ "/") with (String a (s +:+ "/")).
    cbn [path_head].
    rewrite IH. pose proof (str_in_slash_append (String a s) name) as H.
    rewrite append_cons in H. by rewrite H.
Qed.

Lemma not_all_slashes (d : string) :
  nonempty d = true -> endswith "/" d = false -> str_forallb (Ascii.eqb "/") d = false.
Proof.
  induction d as [|a d IH]; [done|]. intros _. cbn [endswith str_forallb].
  destruct d as [|b d'].
  - rewrite Ascii.eqb_sym. intros ->. done.
  - intros H. rewrite (IH eq_refl H). apply andb_false_r.
Qed.

Lemma rstrip_append_sep (c : ascii) (d : string) :
  endswith c d = false -> rstrip c (d +:+ String c "") = d.
Proof.
  induction d as [|a d IH].
  - intros _. rewrite append_nil_l. cbn [rstrip]. by rewrite Ascii.eqb_refl.
  - rewrite append_cons. cbn [rstrip endswith]. destruct d as [|b d'].
    + intros Hac. rewrite append_nil_l. cbn [rstrip].
      by rewrite Ascii.eqb_refl, Hac.
    + intros H. by rewrite (IH H).
Qed.

(** In a directory that exists, a file can be created under every bare
    name for which the path is not too long. *)
Lemma can_create_in_dir (fs : FS) (d name : string) :
  is_dir fs d = true -> nonempty d = true -> endswith "/" d = false ->
  nonempty name = true -> str_in "/" name = false ->
  os_path_join d name = d +:+ "/" +:+ name
  /\ can_create fs (os_path_join d name) = path_fits (d +:+ "/" +:+ name).
Proof.
  intros Hd Hne Hend Hname Hplain.
  assert (os_path_join d name = d +:+ "/" +:+ name) as Hjoin.
  { unfold os_path_join. rewrite prefix_slash, Hne, Hend.
    destruct name as [|c name]; [done|]. cbn [str_in] in Hplain.
    rewrite prefix_slash in Hplain. by apply orb_false_iff in Hplain as [-> _]. }
  split; [exact Hjoin|]. rewrite Hjoin. unfold can_create.
  assert (os_path_dirname (d +:+ "/" +:+ name) = d) as ->.
  { unfold os_path_dirname. rewrite (path_head_append _ _ Hplain).
    rewrite str_forallb_append, (not_all_slashes _ Hne Hend). cbn [andb].
    by apply rstrip_append_sep. }
  rewrite Hne, Hd. cbn [negb orb]. rewrite andb_true_r.
  rewrite !endswith_append by (by destruct name).
  destruct (endswith "/" name) eqn:He; [by rewrite (endswith_in _ He) in Hplain|].
  rewrite nonempty_append_l by done. by rewrite !andb_true_r.
Qed.

Lemma os_path_join_plain (a x : string) :
  nonempty x = true -> str_in "/" x = false ->
  nonempty (os_path_join a x) = true /\ endswith "/" (os_path_join a x) = false.
Proof.
  intros Hx Hplain.
  assert (endswith "/" x = false) as Hend.
  { destruct (endswith "/" x) eqn:He; [|done]. by rewrite (endswith_in _ He) in Hplain. }
  unfold os_path_join. rewrite prefix_slash.
  destruct x as [|c x]; [done|]. cbn [str_in] in Hplain.
  rewrite prefix_slash in Hplain. apply orb_false_iff in Hplain as [-> _].
  destruct (negb (nonempty a) || endswith "/" a).
  - split; [by destruct a|]. by rewrite endswith_append.
  - split; [by destruct a|]. by rewrite !endswith_append.
Qed.

(** For a located upload, whether the file of number [n] can be created
    is a matter of the length of its path alone, provided the random
    prefix is a bare name. *)
Lemma located_can_create (cfg : Config) (env : Env) (payload : UploadIn)
  (fs fs1 : FS) (loc : Located) (n : Z) :
  locate cfg env payload fs = (Ok loc, fs1) ->
  nonempty (uuid_hex8 env) = true -> str_in "/" (uuid_hex8 env) = false ->
  0 <= n ->
  let full := os_path_join (l_dir loc) (candidate_name (l_prefix loc) n (l_ext loc)) in
  can_create fs1 full = path_fits full.
Proof.
  intros Hl Hune Huplain Hn full.
  destruct (locate_spec _ _ _ _ _ _ Hl) as (_ & _ & Hext & _ & Ht & Hmk & _).
  apply os_makedirs_spec in Hmk as (_ & _ & Hdir & _).
  destruct (storage_target_prefix _ _ _ _ _ Ht) as (Hpre & Hd & Hreg).
  set (q := fun c => negb (Ascii.eqb c "/")).
  assert (forall c, is_digit c = true -> q c = true) as Hdq.
  { intros c Hc. destruct c as [[] [] [] [] [] [] [] []]; by vm_compute in Hc |- *. }
  assert (forall s, str_in "/" s = false -> str_forallb q s = true) as Hq.
  { induction s as [|c s IH]; [done|]. cbn [str_in str_forallb].
    rewrite prefix_slash. intros [Hc Hs]%orb_false_iff. unfold q at 1.
    by rewrite Hc, (IH Hs). }
  assert (nonempty (l_prefix loc) = true /\ str_forallb q (l_prefix loc) = true
          /\ nonempty (from_option str "misc"%string (l_registro loc)) = true
          /\ str_in "/" (from_option str "misc"%string (l_registro loc)) = false)
    as (Hpne & Hpq & Hxne & Hxplain).
  { rewrite Hpre. destruct (l_registro loc) as [r|]; cbn [from_option].
    - destruct (str_digits r (Hreg r eq_refl)) as [Hne Hdig].
      pose proof (str_forallb_impl is_digit q _ Hdq Hdig) as Hqr.
      split_and!; try done. by apply (no_slash q).
    - split_and!; try done. by apply Hq. }
  assert (str_forallb q (candidate_name (l_prefix loc) n (l_ext loc)) = true) as Hcq.
  { apply candidate_name_forallb; try done.
    destruct (dict_get_ALLOWED_MIMES _ _ Hext) as [[_ ->]|[[_ ->]|[_ ->]]];
      reflexivity. }
  destruct (os_path_join_plain (IMAGES_ROOT cfg) _ Hxne Hxplain) as [Hdne Hdend].
  rewrite <- Hd in Hdne, Hdend.
  destruct (can_create_in_dir fs1 (l_dir loc)
              (candidate_name (l_prefix loc) n (l_ext loc)) Hdir Hdne Hdend)
    as [Hjoin Hcan].
  - unfold candidate_name. by apply nonempty_append_l.
  - by apply (no_slash q).
  - unfold full. by rewrite Hcan, Hjoin.
Qed.

(** ** Numbering *)

(** X21. Without a ponto the numbers of a registro are handed out in
    order: when [{prefix}-1.{ext}] to [{prefix}-{k}.{ext}] exist, the
    next one does not and a file can be created under that name, an
    upload whose write goes through is stored as
    [{prefix}-{k+1}.{ext}]; in an empty directory that is number 1. *)
Theorem upload_takes_next_number (cfg : Config) (env : Env) (payload : UploadIn)
  (request : Request) (fs fs1 : FS) (loc : Located) (k : Z) :
  locate cfg env payload fs = (Ok loc, fs1) ->
  l_ponto loc = None ->
  fault env = NoFault ->
  0 <= k < 10000 ->
  (forall i, 1 <= i <= k ->
     os_path_exists fs1
       (os_path_join (l_dir loc) (candidate_name (l_prefix loc) i (l_ext loc))) = true) ->
  os_path_exists fs1
    (os_path_join (l_dir loc) (candidate_name (l_prefix loc) (k + 1) (l_ext loc)))
  = false ->
  can_create fs1
    (os_path_join (l_dir loc) (candidate_name (l_prefix loc) (k + 1) (l_ext loc)))
  = true ->
  exists resp,
    (upload cfg env payload request fs).1 = Ok resp
    /\ r_filename resp = candidate_name (l_prefix loc) (k + 1) (l_ext loc)
    /\ r_ponto resp = None.
Proof.
  intros Hl Hp Hflt Hk Hocc Hfree Hcan.
  pose proof (locate_dir _ _ _ _ _ _ Hl) as Hdir.
  destruct (store_file_via_namer NoFault fs1 (l_dir loc) (l_prefix loc) (l_ext loc)
              (l_ponto loc) (l_binary loc) 1 Hdir ltac:(lia)) as [Hfirst _].
  { by rewrite Hp. }
  destruct (Hfirst (k + 1)) as (Hok & _); [lia|done|intros i Hi; apply Hocc; lia|].
  rewrite (upload_located _ _ _ _ _ _ _ Hl), Hflt, (Hok Hcan eq_refl). cbn [fst].
  eexists. split_and!; [reflexivity|reflexivity|].
  rewrite <- Hp. by cbn [build_response r_ponto].
Qed.

Lemma upload_takes_next_number_witness :
  let payload :=
    {| filename := "x.png"; data_url := abc_png; registro := Some 5; ponto := None |} in
  let fs :=
    {| files := {["/srv/imagens/5/5-1.png"%string := abc]};
       dirs := {["/srv/imagens/5"%string]} |} in
  exists resp,
    (upload default_config quiet_env payload plain_request fs).1 = Ok resp
    /\ r_filename resp = candidate_name "5" (1 + 1) "png"
    /\ r_ponto resp = None.
Proof.
  intros payload fs.
  apply (upload_takes_next_number default_config quiet_env payload plain_request fs fs
           {| l_mime := "image/png"; l_binary := abc; l_ext := "png";
              l_registro := Some 5; l_ponto := None;
              l_dir := "/srv/imagens/5"; l_prefix := "5" |} 1);
    try (vm_compute; reflexivity); try lia.
  intros i Hi. assert (i = 1) as -> by lia. vm_compute. reflexivity.
Defined.

(** Where the name does not fit the file system the upload fails: the
    directory of a registro of 251 digits can be created, a file
    [{registro}-1.png] in it cannot. *)
Example long_prefix_fails :
  let payload :=
    {| filename := "x.png"; data_url := abc_png; registro := Some (10 ^ 250);
       ponto := None |} in
  let outcome := upload default_config quiet_env payload plain_request empty_fs in
  outcome.1 = HTTPException 500 "Erro interno do servidor"
  /\ files outcome.2 = ∅.
Proof. split; vm_compute; reflexivity. Qed.

(** ** Witnesses of the two lemmas above *)

Lemma write_is_last_fallible_step_witness :
  let payload :=
    {| filename := "x.png"; data_url := abc_png; registro := Some 5; ponto := None |} in
  is_ok (upload default_config quiet_env payload plain_request empty_fs).1 = true.
Proof.
  intros payload.
  apply (write_is_last_fallible_step default_config quiet_env payload plain_request
           empty_fs dir5_fs
           {| l_mime := "image/png"; l_binary := abc; l_ext := "png";
              l_registro := Some 5; l_ponto := None;
              l_dir := "/srv/imagens/5"; l_prefix := "5" |} "5-1.png");
    vm_compute; reflexivity.
Defined.

Lemma proc_run_alone_witness :
  proc_run (Z.to_nat max_attempts + 7) job_a AtFinalName dir5_fs
  = (Finished (store_file (j_fault job_a) dir5_fs (j_dir job_a) (j_prefix job_a)
                 (j_ext job_a) (j_ponto job_a) (j_binary job_a)).1,
     (store_file (j_fault job_a) dir5_fs (j_dir job_a) (j_prefix job_a)
        (j_ext job_a) (j_ponto job_a) (j_binary job_a)).2).
Proof. apply proc_run_alone. apply Nat.le_refl. Defined.
